(** * inkscore: the wallet scoring engine of [points-service-v2.ts]

    A shallow embedding of [PointsServiceV2] (tier resolvers, the two
    registry caches, rank resolution and [calculateWalletScore]) and the
    properties of its specification that hold, or fail, on the code. *)

From Stdlib Require Import ZArith List String Ascii Bool Lia.
From Stdlib Require Import Floats.SpecFloat.
Import ListNotations.
Open Scope Z_scope.

(** ** JavaScript numbers

    A JS [number] is an IEEE 754 binary64 value.  The Standard Library's
    [spec_float] is exactly that datatype (without NaN payloads) and its
    operations are executable, so the comparisons and additions of the
    source are modelled by the IEEE operations at precision 53. *)

Module JS.

Definition number := spec_float.
Definition prec : Z := 53.
Definition emax : Z := 1024.

(** A numeric literal with an integer value. *)
Definition lit (z : Z) : number := binary_normalize prec emax z 0 false.

Definition zero : number := S754_zero false.
Definition nan : number := S754_nan.

(** [x >= y], [x <= y], [x > y], [x + y] of the source. *)
Definition ge (x y : number) : bool := SFleb y x.
Definition le (x y : number) : bool := SFleb x y.
Definition gt (x y : number) : bool := SFltb y x.
Definition add (x y : number) : number := SFadd prec emax x y.

(** The global [isNaN] applied to a number. *)
Definition isNaN (x : number) : bool :=
  match x with S754_nan => true | _ => false end.

(** Truthiness of a number: everything but [NaN], [+0] and [-0]. *)
Definition truthy (x : number) : bool :=
  match x with S754_nan | S754_zero _ => false | _ => true end.

(** [x || 0] where [x] is a number. *)
Definition or0 (x : number) : number := if truthy x then x else zero.

(** [o.field || 0] where the field may be absent ([undefined] is falsy). *)
Definition opt0 (x : option number) : number :=
  match x with Some v => or0 v | None => zero end.

(** The numbers a JSON document or a computation can really hold. *)
Definition valid (x : number) : bool := valid_binary prec emax x.

End JS.

Declare Scope js_scope.
Delimit Scope js_scope with js.
Notation "x >=? y" := (JS.ge x y) (at level 70, no associativity) : js_scope.
Notation "x <=? y" := (JS.le x y) (at level 70, no associativity) : js_scope.
Notation "x >? y" := (JS.gt x y) (at level 70, no associativity) : js_scope.
Notation "x +! y" := (JS.add x y) (at level 50, left associativity) : js_scope.
Notation "# z" := (JS.lit z) (at level 9, format "# z") : js_scope.

(** ** Tier resolvers

    Point values are integer literals and their sums stay far below 2^53,
    where binary64 arithmetic on integers is exact; they are modelled in
    [Z].  The metrics they are computed from stay JS numbers. *)

Module Tier.
Import JS.
Local Open Scope js_scope.

Definition calculateNftCollectionsPoints (nftCount : number) : Z :=
  if nftCount >=? #10 then 400
  else if nftCount >=? #5 then 250
  else if nftCount >=? #3 then 150
  else if nftCount >=? #1 then 50
  else 0.

(** The tier ladders of [calculateTokenHoldingsPoints] and
    [calculateMemeCoinsPoints], applied to the USD total once it is summed. *)
Definition tokenHoldingsTier (totalUsd : number) : Z :=
  if isNaN totalUsd then 0
  else if totalUsd >=? #10000 then 400
  else if totalUsd >=? #1000 then 300
  else if totalUsd >=? #100 then 150
  else if totalUsd >=? #1 then 50
  else 0.

Definition memeCoinsTier (totalUsd : number) : Z :=
  if isNaN totalUsd then 0
  else if totalUsd >=? #1000 then 300
  else if totalUsd >=? #500 then 200
  else if totalUsd >=? #100 then 100
  else if totalUsd >=? #1 then 50
  else 0.

Definition calculateWalletAgePoints (ageDays : number) : Z :=
  if ageDays <=? #0 then 0
  else if ageDays <=? #30 then 100
  else if ageDays <=? #90 then 200
  else if ageDays <=? #180 then 300
  else if ageDays <=? #365 then 400
  else if ageDays <=? #730 then 500
  else 600.

Definition calculateTotalTxPoints (txCount : number) : Z :=
  if txCount <=? #0 then 0
  else if txCount <=? #100 then 100
  else if txCount <=? #200 then 200
  else if txCount <=? #400 then 300
  else if txCount <=? #700 then 400
  else if txCount <=? #900 then 500
  else 600.

Definition getBridgeVolumeTierPoints (volumeUsd : number) : Z :=
  if volumeUsd >=? #10000 then 500
  else if volumeUsd >=? #5000 then 400
  else if volumeUsd >=? #1000 then 250
  else if volumeUsd >=? #100 then 100
  else if volumeUsd >=? #1 then 25
  else 0.

Definition calculateBridgeInPoints (bridgeInVolumeUsd : number) : Z :=
  getBridgeVolumeTierPoints bridgeInVolumeUsd.

Definition calculateBridgeOutPoints (bridgeOutVolumeUsd : number) : Z :=
  getBridgeVolumeTierPoints bridgeOutVolumeUsd.

Definition calculateGmPoints (gmCount : number) : Z :=
  if gmCount >=? #150 then 400
  else if gmCount >=? #50 then 250
  else if gmCount >=? #10 then 150
  else if gmCount >=? #1 then 50
  else 0.

Definition calculateInkyPumpPoints (createdCount buyVolumeUsd sellVolumeUsd : number) : Z :=
  let createPoints :=
    if createdCount >=? #3 then 50 else if createdCount >=? #1 then 25 else 0 in
  let totalVolume := buyVolumeUsd +! sellVolumeUsd in
  let volumePoints :=
    if totalVolume >=? #10000 then 350
    else if totalVolume >=? #1000 then 250
    else if totalVolume >=? #100 then 150
    else if totalVolume >=? #1 then 50
    else 0 in
  createPoints + volumePoints.

Definition getTydroSupplyTierPoints (supplyUsd : number) : Z :=
  if supplyUsd >=? #50000 then 1250
  else if supplyUsd >=? #10000 then 1000
  else if supplyUsd >=? #1000 then 600
  else if supplyUsd >=? #100 then 250
  else if supplyUsd >=? #1 then 50
  else 0.

Definition getTydroBorrowTierPoints (borrowUsd : number) : Z :=
  if borrowUsd >=? #25000 then 1250
  else if borrowUsd >=? #5000 then 1000
  else if borrowUsd >=? #500 then 600
  else if borrowUsd >=? #50 then 250
  else if borrowUsd >=? #1 then 50
  else 0.

Definition calculateTydroPoints (supplyUsd borrowUsd : number) : Z :=
  let supplyPoints := getTydroSupplyTierPoints supplyUsd in
  let borrowPoints := getTydroBorrowTierPoints borrowUsd in
  supplyPoints + borrowPoints.

Definition calculateSwapVolumePoints (swapAmountUsd : number) : Z :=
  if swapAmountUsd >=? #25000 then 500
  else if swapAmountUsd >=? #10000 then 400
  else if swapAmountUsd >=? #5000 then 250
  else if swapAmountUsd >=? #1000 then 100
  else if swapAmountUsd >=? #1 then 25
  else 0.

Definition calculateShelliesPoints
    (playedGameCount stakedNftCount joinedRaffleCount : number) : Z :=
  let playPoints :=
    if playedGameCount >=? #50 then 150
    else if playedGameCount >=? #10 then 75
    else if playedGameCount >=? #1 then 25
    else 0 in
  let stakePoints :=
    if stakedNftCount >=? #5 then 150
    else if stakedNftCount >=? #3 then 100
    else if stakedNftCount >=? #1 then 50
    else 0 in
  let rafflePoints :=
    if joinedRaffleCount >=? #10 then 100
    else if joinedRaffleCount >=? #5 then 50
    else if joinedRaffleCount >=? #1 then 25
    else 0 in
  playPoints + stakePoints + rafflePoints.

Definition calculateZnsPoints (deployCount saidGmCount registerCount : number) : Z :=
  let registerPoints :=
    if registerCount >=? #3 then 200 else if registerCount >=? #1 then 100 else 0 in
  let deployPoints :=
    if deployCount >=? #3 then 50 else if deployCount >=? #1 then 20 else 0 in
  let gmPoints :=
    if saidGmCount >=? #10 then 50 else if saidGmCount >=? #1 then 20 else 0 in
  registerPoints + deployPoints + gmPoints.

Definition calculateMarvkPoints (cardMintedCount lockTokenCount vestTokenCount : number) : Z :=
  let cardPoints := if cardMintedCount >=? #1 then 100 else 0 in
  let lockPoints :=
    if lockTokenCount >=? #5 then 100 else if lockTokenCount >=? #1 then 50 else 0 in
  let vestPoints :=
    if vestTokenCount >=? #5 then 100 else if vestTokenCount >=? #1 then 50 else 0 in
  cardPoints + lockPoints + vestPoints.

Definition calculateNadoPoints (totalDeposits totalVolume : number) : Z :=
  let depositPoints :=
    if totalDeposits >=? #50000 then 1250
    else if totalDeposits >=? #10000 then 1000
    else if totalDeposits >=? #1000 then 600
    else if totalDeposits >=? #100 then 250
    else if totalDeposits >=? #1 then 50
    else 0 in
  let volumePoints :=
    if totalVolume >=? #25000000 then 1250
    else if totalVolume >=? #10000000 then 1150
    else if totalVolume >=? #5000000 then 1000
    else if totalVolume >=? #1000000 then 800
    else if totalVolume >=? #500000 then 550
    else if totalVolume >=? #100000 then 300
    else if totalVolume >=? #0 then 50
    else 0 in
  depositPoints + volumePoints.

Definition calculateCopinkPoints (subaccountsFound totalVolume : number) : Z :=
  let volumePoints :=
    if totalVolume >=? #10000 then 300
    else if totalVolume >=? #5000 then 250
    else if totalVolume >=? #1000 then 150
    else if totalVolume >=? #1 then 50
    else 0 in
  let subaccountPoints :=
    if subaccountsFound >=? #3 then 100 else if subaccountsFound >=? #1 then 50 else 0 in
  volumePoints + subaccountPoints.

Definition calculateNft2mePoints (collectionCreatedCount nftMintedCount : number) : Z :=
  let collectionPoints :=
    if collectionCreatedCount >=? #3 then 100
    else if collectionCreatedCount >=? #1 then 50
    else 0 in
  let mintPoints :=
    if nftMintedCount >=? #100 then 200
    else if nftMintedCount >=? #10 then 100
    else if nftMintedCount >=? #1 then 50
    else 0 in
  collectionPoints + mintPoints.

Definition calculateNftTradingPoints (squidCount netProtocolCount mintiqueCount : number) : Z :=
  let platformPoints := 0 in
  let platformPoints := if squidCount >? #0 then platformPoints + 50 else platformPoints in
  let platformPoints := if netProtocolCount >? #0 then platformPoints + 35 else platformPoints in
  let platformPoints := if mintiqueCount >? #0 then platformPoints + 15 else platformPoints in
  let totalTrades := squidCount +! netProtocolCount +! mintiqueCount in
  let tradePoints :=
    if totalTrades >=? #10 then 300
    else if totalTrades >=? #5 then 150
    else if totalTrades >=? #1 then 50
    else 0 in
  platformPoints + tradePoints.

End Tier.

(** ** Strings, sets of strings and object maps *)

Module Str.

(** [String.prototype.toLowerCase] on the characters an address is made of:
    the ASCII capitals are mapped to their small letters, every other
    character is kept. *)
Definition lower_char (c : ascii) : ascii :=
  let n := nat_of_ascii c in
  if (Nat.leb 65 n && Nat.leb n 90)%bool then ascii_of_nat (n + 32) else c.

Fixpoint toLowerCase (s : string) : string :=
  match s with
  | EmptyString => EmptyString
  | String c s' => String (lower_char c) (toLowerCase s')
  end.

(** The counterpart on capitals, used to phrase queries in another case. *)
Definition upper_char (c : ascii) : ascii :=
  let n := nat_of_ascii c in
  if (Nat.leb 97 n && Nat.leb n 122)%bool then ascii_of_nat (n - 32) else c.

Fixpoint toUpperCase (s : string) : string :=
  match s with
  | EmptyString => EmptyString
  | String c s' => String (upper_char c) (toUpperCase s')
  end.

(** A JS [Set<string>]: its elements in insertion order, each once. *)
Definition StrSet := list string.

Definition has (s : StrSet) (x : string) : bool := existsb (String.eqb x) s.

Definition setAdd (s : StrSet) (x : string) : StrSet :=
  if has s x then s else s ++ [x].

(** [new Set(iterable)]. *)
Definition newSet (l : list string) : StrSet := fold_left setAdd l [].

(** A JS object used as a map with string keys: the own properties in
    insertion order.  [obj[k] = v] overwrites in place or appends. *)
Definition Obj (V : Type) := list (string * V).

Fixpoint setProp {V} (o : Obj V) (k : string) (v : V) : Obj V :=
  match o with
  | [] => [(k, v)]
  | (k', v') :: o' =>
      if String.eqb k' k then (k', v) :: o' else (k', v') :: setProp o' k v
  end.

Fixpoint getProp {V} (o : Obj V) (k : string) : option V :=
  match o with
  | [] => None
  | (k', v') :: o' => if String.eqb k' k then Some v' else getProp o' k
  end.

Definition keys {V} (o : Obj V) : list string := map fst o.

End Str.

(** ** The process state and its surroundings *)

Module World.
Import JS Str.

(** A row of [assetsService.getMemeCoins()]; only its address is read. *)
Record MemeCoin := { coin_address : string }.

(** A column the store may deliver as text or as a number. *)
Inductive StrOrNum := IsStr (s : string) | IsNum (n : number).

(** A row of the [ranks] query, and the [Rank] made of it. *)
Record RawRank := {
  raw_id : number;
  raw_name : string;
  raw_min_points : StrOrNum;
  raw_max_points : option StrOrNum;
  raw_logo_url : option string;
  raw_color : option string;
  raw_description : option string;
  raw_display_order : number;
  raw_is_active : bool }.

Record Rank := {
  id : number;
  name : string;
  min_points : number;
  max_points : option number;
  logo_url : option string;
  color : option string;
  description : option string;
  display_order : number;
  is_active : bool;
  created_at : Z;
  updated_at : Z }.

Record RanksCache := { ranks : list Rank; ranks_timestamp : Z }.
Record MemeTokensCache := { addresses : StrSet; meme_timestamp : Z }.

Definition RANKS_CACHE_TTL : Z := 60 * 1000.
Definition MEME_TOKENS_CACHE_TTL : Z := 5 * 60 * 1000.

(** The JSON bodies of the seventeen endpoints.  Every field has the type
    the interfaces of the source declare for it: a number where a number
    is declared, an array (or nothing) where an array is declared.  A field
    that is missing is absent; an element of an array may be [null], and a
    token holding may come without a string [address]: these are the
    places where the scoring reads a property of what is not an object, or
    calls a method of what is not a string, and throws a TypeError. *)
Record NftCollection := { count : option number }.
Record TokenHolding := {
  address : option string;
  symbol : option string;
  usdValue : number }.
Record WalletStatsResponse := {
  nftCollections : option (list (option NftCollection));
  tokenHoldings : option (list (option TokenHolding));
  balanceUsd : option number;
  ageDays : option number;
  totalTxns : option number }.
Record BridgeResponse := {
  bridgedInUsd : option number;
  bridgedInCount : option number;
  bridgedOutUsd : option number;
  bridgedOutCount : option number }.
Record SwapResponse := { totalUsd : option number; txCount : option number }.
Record TydroResponse := {
  currentSupplyUsd : option number;
  currentBorrowUsd : option number;
  depositCount : option number;
  borrowCount : option number }.
Record CountResponse := { total_count : option number; total_value : option string }.
Record ZnsResponse := {
  zns_total_count : option number;
  deploy_count : option number;
  say_gm_count : option number;
  register_domain_count : option number }.
Record Nft2meResponse := {
  collectionsCreated : option number;
  nftsMinted : option number;
  nft2me_totalTransactions : option number }.
Record ContractCount := { contract_address : string; contract_count : number }.
Record NftTradingResponse := {
  nft_total_count : option number;
  by_contract : option (list (option ContractCount)) }.
Record MarvkResponse := {
  lockTokenCount : option number;
  vestTokenCount : option number;
  cardMintedCount : option number;
  marvk_totalTransactions : option number }.
Record NadoResponse := {
  totalDeposits : option number;
  nado_totalTransactions : option number;
  nadoVolumeUSD : option number }.
Record CopinkResponse := {
  copink_totalVolume : option number;
  subaccountsFound : option number }.

(** What [res.json()] finds in a body: text that is not JSON (it throws),
    [null], or an object with the fields above; and what [fetch] settles
    to. *)
Inductive Body (A : Type) := Malformed | JsonNull | JsonObject (a : A).
Arguments Malformed {A}.
Arguments JsonNull {A}.
Arguments JsonObject {A} a.

Record Response (A : Type) := { ok : bool; body : Body A }.
Arguments ok {A} r.
Arguments body {A} r.
Arguments Build_Response {A} ok body.

Inductive Fetched (A : Type) := Rejected | Resolved (r : Response A).
Arguments Rejected {A}.
Arguments Resolved {A} r.

(** The seventeen requests of one call, in the order of the source. *)
Record Fetches := {
  f_walletStats : Fetched WalletStatsResponse;
  f_bridge : Fetched BridgeResponse;
  f_swap : Fetched SwapResponse;
  f_tydro : Fetched TydroResponse;
  f_gm : Fetched CountResponse;
  f_inkyPumpCreated : Fetched CountResponse;
  f_inkyPumpBuy : Fetched CountResponse;
  f_inkyPumpSell : Fetched CountResponse;
  f_shelliesRaffles : Fetched CountResponse;
  f_shelliesPayToPlay : Fetched CountResponse;
  f_shelliesStaking : Fetched CountResponse;
  f_zns : Fetched ZnsResponse;
  f_nft2me : Fetched Nft2meResponse;
  f_nftTrading : Fetched NftTradingResponse;
  f_marvk : Fetched MarvkResponse;
  f_nado : Fetched NadoResponse;
  f_copink : Fetched CopinkResponse }.

(** Everything outside the module: the built-in parsers, the clock, the
    store and the HTTP host.  Reads of the clock and queries of the store
    are numbered, so that a run is a function of the environment. *)
Record Env := {
  parseInt10 : string -> number;
  parseFloat : string -> number;
  clock : nat -> Z;
  getMemeCoins : nat -> option (list MemeCoin);
  queryRanks : nat -> option (list RawRank);
  http : string -> Fetches }.

(** The module-level variables, with counters of the reads and queries
    made so far. *)
Record State := {
  ranksCache : option RanksCache;
  memeTokensCache : option MemeTokensCache;
  clockReads : nat;
  memeQueries : nat;
  rankQueries : nat }.

Definition initial : State :=
  {| ranksCache := None; memeTokensCache := None;
     clockReads := 0; memeQueries := 0; rankQueries := 0 |}.

(** What a call can throw. *)
Inductive Thrown :=
| NetworkError
| SyntaxError
| TypeError
| Error (message : string).

Inductive Outcome (A : Type) := Returned (a : A) | Threw (e : Thrown).
Arguments Returned {A} a.
Arguments Threw {A} e.

(** Computations that read and write the state and may throw. *)
Definition M (A : Type) : Type := State -> Outcome A * State.

Definition ret {A} (a : A) : M A := fun s => (Returned a, s).

Definition bind {A B} (m : M A) (k : A -> M B) : M B :=
  fun s =>
    match m s with
    | (Returned a, s') => k a s'
    | (Threw e, s') => (Threw e, s')
    end.

Definition throw {A} (e : Thrown) : M A := fun s => (Threw e, s).

(** [try { m } catch (error) { h }]. *)
Definition tryCatch {A} (m : M A) (h : Thrown -> M A) : M A :=
  fun s =>
    match m s with
    | (Returned a, s') => (Returned a, s')
    | (Threw e, s') => h e s'
    end.

End World.

Declare Scope m_scope.
Delimit Scope m_scope with M.
Notation "x <- m ;; k" := (World.bind m (fun x => k))
  (at level 61, m at next level, right associativity) : m_scope.

(** ** Registry caches and rank resolution *)

Module Registry.
Import JS Str World.
Local Open Scope m_scope.
Local Open Scope js_scope.

(** The list returned when the meme-token query fails. *)
Definition fallbackMemeTokens : StrSet :=
  newSet [ "0x0606fc632ee812ba970af72f8489baaa443c4b98"%string;
           "0x20c69c12abf2b6f8d8ca33604dd25c700c7e70a5"%string;
           "0xd642b49d10cc6e1bc1c6945725667c35e0875f22"%string;
           "0x2a1bce657f919ac3f9ab50b2584cfc77563a02ec"%string;
           "0x32bcb803f696c99eb263d60a05cafd8689026575"%string;
           "0x62c99fac20b33b5423fdf9226179e973a8353e36"%string ].

Section WithEnv.
Variable env : Env.

(** [Date.now()] and [new Date()]: the next reading of the clock. *)
Definition dateNow : M Z := fun s =>
  (Returned (clock env (clockReads s)),
   {| ranksCache := ranksCache s; memeTokensCache := memeTokensCache s;
      clockReads := S (clockReads s); memeQueries := memeQueries s;
      rankQueries := rankQueries s |}).

(** [await assetsService.getMemeCoins()]: the next query; it may reject. *)
Definition assetsService_getMemeCoins : M (list MemeCoin) := fun s =>
  let s' := {| ranksCache := ranksCache s; memeTokensCache := memeTokensCache s;
               clockReads := clockReads s; memeQueries := S (memeQueries s);
               rankQueries := rankQueries s |} in
  match getMemeCoins env (memeQueries s) with
  | Some rows => (Returned rows, s')
  | None => (Threw (Error "getMemeCoins"), s')
  end.

(** [await query(SELECT ... FROM ranks ...)]. *)
Definition query_ranks : M (list RawRank) := fun s =>
  let s' := {| ranksCache := ranksCache s; memeTokensCache := memeTokensCache s;
               clockReads := clockReads s; memeQueries := memeQueries s;
               rankQueries := S (rankQueries s) |} in
  match queryRanks env (rankQueries s) with
  | Some rows => (Returned rows, s')
  | None => (Threw (Error "query"), s')
  end.

Definition setMemeTokensCache (c : MemeTokensCache) : M unit := fun s =>
  (Returned tt,
   {| ranksCache := ranksCache s; memeTokensCache := Some c;
      clockReads := clockReads s; memeQueries := memeQueries s;
      rankQueries := rankQueries s |}).

Definition setRanksCache (c : RanksCache) : M unit := fun s =>
  (Returned tt,
   {| ranksCache := Some c; memeTokensCache := memeTokensCache s;
      clockReads := clockReads s; memeQueries := memeQueries s;
      rankQueries := rankQueries s |}).

Definition readMemeTokensCache : M (option MemeTokensCache) :=
  fun s => (Returned (memeTokensCache s), s).

Definition readRanksCache : M (option RanksCache) :=
  fun s => (Returned (ranksCache s), s).

(** The [try]/[catch] of [getMemeTokenAddresses]. *)
Definition refreshMemeTokens : M StrSet :=
  tryCatch
    (memeCoins <- assetsService_getMemeCoins ;;
     let addresses := newSet (map (fun coin => toLowerCase (coin_address coin)) memeCoins) in
     now <- dateNow ;;
     _ <- setMemeTokensCache {| addresses := addresses; meme_timestamp := now |} ;;
     ret addresses)
    (fun error => ret fallbackMemeTokens).

Definition getMemeTokenAddresses : M StrSet :=
  cache <- readMemeTokensCache ;;
  match cache with
  | Some c =>
      now <- dateNow ;;
      if (now - meme_timestamp c <? MEME_TOKENS_CACHE_TTL)%Z
      then ret (addresses c)
      else refreshMemeTokens
  | None => refreshMemeTokens
  end.

Definition isMemeToken (address : string) : M bool :=
  memeTokens <- getMemeTokenAddresses ;;
  ret (has memeTokens (toLowerCase address)).

Definition parseRank (r : RawRank) : M Rank :=
  let min :=
    match raw_min_points r with IsStr s => parseInt10 env s | IsNum n => n end in
  let max :=
    match raw_max_points r with
    | None => None
    | Some (IsStr s) => Some (parseInt10 env s)
    | Some (IsNum n) => Some n
    end in
  created <- dateNow ;;
  updated <- dateNow ;;
  ret {| id := raw_id r; name := raw_name r; min_points := min; max_points := max;
         logo_url := raw_logo_url r; color := raw_color r;
         description := raw_description r; display_order := raw_display_order r;
         is_active := raw_is_active r; created_at := created; updated_at := updated |}.

Fixpoint mapM {A B} (f : A -> M B) (l : list A) : M (list B) :=
  match l with
  | [] => ret []
  | a :: l' => b <- f a ;; bs <- mapM f l' ;; ret (b :: bs)
  end.

(** The [try]/[catch] of [getCachedRanks]. *)
Definition refreshRanks : M (list Rank) :=
  tryCatch
    (rawRanks <- query_ranks ;;
     ranks <- mapM parseRank rawRanks ;;
     now <- dateNow ;;
     _ <- setRanksCache {| ranks := ranks; ranks_timestamp := now |} ;;
     ret ranks)
    (fun error => ret []).

Definition getCachedRanks : M (list Rank) :=
  cache <- readRanksCache ;;
  match cache with
  | Some c =>
      now <- dateNow ;;
      if (now - ranks_timestamp c <? RANKS_CACHE_TTL)%Z
      then ret (ranks c)
      else refreshRanks
  | None => refreshRanks
  end.

End WithEnv.

(** Whether [totalPoints] lies in the range of [rank]. *)
Definition inRange (rank : Rank) (totalPoints : number) : bool :=
  let minOk := totalPoints >=? min_points rank in
  let maxOk :=
    match max_points rank with
    | None => true
    | Some max => totalPoints <=? max
    end in
  minOk && maxOk.

Fixpoint getRankForPoints (ranks : list Rank) (totalPoints : number) : option Rank :=
  match ranks with
  | [] => None
  | rank :: rest =>
      if inRange rank totalPoints then Some rank else getRankForPoints rest totalPoints
  end.

End Registry.

(** ** The score aggregator *)

Module Aggregator.
Import JS Str World Registry Tier.
Local Open Scope m_scope.
Local Open Scope js_scope.
Local Open Scope string_scope.

Record NativeEntry := { value : number; points : Z }.
Record PlatformEntry := { tx_count : number; usd_volume : number; platform_points : Z }.
Record WalletPointsBreakdown := {
  native : Obj NativeEntry;
  platforms : Obj PlatformEntry }.

Record RankInfo := {
  rank_name : string;
  rank_color : option string;
  rank_logo_url : option string }.

Record WalletScoreResponse := {
  wallet_address : string;
  total_points : Z;
  rank : option RankInfo;
  breakdown : WalletPointsBreakdown;
  last_updated : Z }.

(** [data?.field]. *)
Definition chain {A B} (data : option A) (field : A -> option B) : option B :=
  match data with Some a => field a | None => None end.

(** [list || []] and [text || '0']: absent and, for a string, empty are
    falsy. *)
Definition orEmpty {A} (l : option (list A)) : list A :=
  match l with Some l => l | None => [] end.

Definition orDigit0 (text : option string) : string :=
  match text with
  | Some "" | None => "0"
  | Some s => s
  end.

(** [await] of one element of the [Promise.all]: a rejected fetch rejects
    the whole of it. *)
Definition settled {A} (f : Fetched A) : M (Response A) :=
  match f with
  | Rejected => throw NetworkError
  | Resolved r => ret r
  end.

(** [res.ok ? await res.json() : null]. *)
Definition jsonIfOk {A} (res : Response A) : M (option A) :=
  if ok res then
    match body res with
    | Malformed => throw SyntaxError
    | JsonNull => ret None
    | JsonObject a => ret (Some a)
    end
  else ret None.

Definition NFT_CONTRACTS_squid := "0x9ebf93fdba9f32accab3d6716322dccd617a78f3".
Definition NFT_CONTRACTS_netProtocol := "0xd00c96804e9ff35f10c7d2a92239c351ff3f94e5".
Definition NFT_CONTRACTS_mintique := "0xbd6a027b85fd5285b1623563bbef6fadbe396afb".

(** A step that throws a TypeError when it has no result: a property
    read of [null], a method call on [undefined]. *)
Definition orTypeError {A} (result : option A) : M A :=
  match result with
  | Some a => ret a
  | None => throw TypeError
  end.

(** [cols.reduce((sum, col) => sum + (col.count || 0), sum0)]; [col.count]
    of a [null] element throws. *)
Fixpoint sumCounts (cols : list (option NftCollection)) (sum : number) : option number :=
  match cols with
  | [] => Some sum
  | Some col :: rest => sumCounts rest (sum +! opt0 (count col))
  | None :: _ => None
  end.

(** [token.address.toLowerCase()]; it throws on a [null] token and on one
    without a string address. *)
Definition lowerAddress (token : option TokenHolding) : option string :=
  match token with
  | Some t => option_map toLowerCase (address t)
  | None => None
  end.

(** [tokens.filter(token => keep(token.address.toLowerCase()))]. *)
Fixpoint filterTokens (keep : string -> bool) (tokens : list (option TokenHolding))
    : option (list TokenHolding) :=
  match tokens with
  | [] => Some []
  | token :: rest =>
      match token, lowerAddress token with
      | Some t, Some a =>
          option_map (fun kept => if keep a then t :: kept else kept)
                     (filterTokens keep rest)
      | _, _ => None
      end
  end.

(** [byContract.find(c => c.contract_address === a)]; a [null] row met
    before a match throws. *)
Fixpoint findContract (a : string) (byContract : list (option ContractCount))
    : option (option ContractCount) :=
  match byContract with
  | [] => Some None
  | Some c :: rest =>
      if String.eqb (contract_address c) a then Some (Some c) else findContract a rest
  | None :: _ => None
  end.

(** [byContract.find(c => c.contract_address === a)?.count || 0]. *)
Definition countOf (byContract : list (option ContractCount)) (a : string)
    : option number :=
  option_map (fun found => opt0 (option_map contract_count found))
             (findContract a byContract).

(** [holdings.reduce((sum, t) => sum + (Number(t.usdValue) || 0), 0)], on
    the objects a filter has kept. *)
Definition sumUsd (holdings : list TokenHolding) : number :=
  fold_left (fun sum token => sum +! or0 (usdValue token)) holdings zero.

(** The same on the array as it came; [t.usdValue] of a [null] element
    throws. *)
Fixpoint sumUsdOf (holdings : list (option TokenHolding)) (sum : number) : option number :=
  match holdings with
  | [] => Some sum
  | Some t :: rest => sumUsdOf rest (sum +! or0 (usdValue t))
  | None :: _ => None
  end.

Definition nativeEth (nativeEthUsd : number) : TokenHolding :=
  {| address := Some "0x0000000000000000000000000000000000000000";
     symbol := Some "ETH"; usdValue := nativeEthUsd |}.

Section WithEnv.
Variable env : Env.

Definition calculateTokenHoldingsPoints (tokenHoldings : list (option TokenHolding))
    : M Z :=
  memeTokens <- getMemeTokenAddresses env ;;
  kept <- orTypeError (filterTokens (fun a => negb (has memeTokens a)) tokenHoldings) ;;
  let totalUsd := sumUsd kept in
  ret (tokenHoldingsTier totalUsd).

Definition calculateMemeCoinsPoints (tokenHoldings : list (option TokenHolding))
    : M Z :=
  memeTokens <- getMemeTokenAddresses env ;;
  kept <- orTypeError (filterTokens (has memeTokens) tokenHoldings) ;;
  let totalUsd := sumUsd kept in
  ret (memeCoinsTier totalUsd).

(** The body of the [try] block once the seventeen bodies are decoded. *)
Definition score (wallet : string)
    (walletStats : WalletStatsResponse)
    (bridgeData : option BridgeResponse) (swapData : option SwapResponse)
    (tydroData : option TydroResponse) (gmData : option CountResponse)
    (inkyPumpCreated inkyPumpBuy inkyPumpSell : option CountResponse)
    (shelliesRaffles shelliesPayToPlay shelliesStaking : option CountResponse)
    (znsData : option ZnsResponse) (nft2meData : option Nft2meResponse)
    (nftTradingData : option NftTradingResponse) (marvkData : option MarvkResponse)
    (nadoData : option NadoResponse) (copinkData : option CopinkResponse)
    : M WalletScoreResponse :=
  let native0 : Obj NativeEntry := [] in
  let platforms0 : Obj PlatformEntry := [] in
  let totalPoints := 0%Z in

  supportedNftCount <-
    orTypeError (sumCounts (orEmpty (nftCollections walletStats)) zero) ;;
  let nftPoints := calculateNftCollectionsPoints supportedNftCount in
  let native1 := setProp native0 "nft_collections"
                   {| value := supportedNftCount; points := nftPoints |} in
  let totalPoints := (totalPoints + nftPoints)%Z in

  let tokenHoldings := orEmpty (tokenHoldings walletStats) in
  let nativeEthUsd := opt0 (balanceUsd walletStats) in
  let allHoldings := (tokenHoldings ++ [Some (nativeEth nativeEthUsd)])%list in

  tokenPoints <- calculateTokenHoldingsPoints allHoldings ;;
  totalTokenValue <- orTypeError (sumUsdOf allHoldings zero) ;;
  let native2 := setProp native1 "erc20_tokens"
                   {| value := totalTokenValue; points := tokenPoints |} in
  let totalPoints := (totalPoints + tokenPoints)%Z in

  memePoints <- calculateMemeCoinsPoints tokenHoldings ;;
  memeTokens <- getMemeTokenAddresses env ;;
  memeHeld <- orTypeError (filterTokens (has memeTokens) tokenHoldings) ;;
  let memeTokenCount := #(Z.of_nat (List.length memeHeld)) in
  let native3 := setProp native2 "meme_coins"
                   {| value := memeTokenCount; points := memePoints |} in
  let totalPoints := (totalPoints + memePoints)%Z in

  let agePoints := calculateWalletAgePoints (opt0 (ageDays walletStats)) in
  let native4 := setProp native3 "wallet_age"
                   {| value := opt0 (ageDays walletStats); points := agePoints |} in
  let totalPoints := (totalPoints + agePoints)%Z in

  let txPoints := calculateTotalTxPoints (opt0 (totalTxns walletStats)) in
  let native5 := setProp native4 "total_tx"
                   {| value := opt0 (totalTxns walletStats); points := txPoints |} in
  let totalPoints := (totalPoints + txPoints)%Z in

  let bridgeInUsd := opt0 (chain bridgeData bridgedInUsd) in
  let bridgeOutUsd := opt0 (chain bridgeData bridgedOutUsd) in
  let bridgeInPoints := calculateBridgeInPoints bridgeInUsd in
  let bridgeOutPoints := calculateBridgeOutPoints bridgeOutUsd in
  let platforms1 := setProp platforms0 "bridge_in"
        {| tx_count := opt0 (chain bridgeData bridgedInCount);
           usd_volume := bridgeInUsd; platform_points := bridgeInPoints |} in
  let platforms2 := setProp platforms1 "bridge_out"
        {| tx_count := opt0 (chain bridgeData bridgedOutCount);
           usd_volume := bridgeOutUsd; platform_points := bridgeOutPoints |} in
  let totalPoints := (totalPoints + (bridgeInPoints + bridgeOutPoints))%Z in

  let gmCount := opt0 (chain gmData total_count) in
  let gmPoints := calculateGmPoints gmCount in
  let platforms3 := setProp platforms2 "gm"
        {| tx_count := gmCount; usd_volume := zero; platform_points := gmPoints |} in
  let totalPoints := (totalPoints + gmPoints)%Z in

  let inkyPumpCreatedCount := opt0 (chain inkyPumpCreated total_count) in
  let inkyPumpBuyUsd := parseFloat env (orDigit0 (chain inkyPumpBuy total_value)) in
  let inkyPumpSellUsd := parseFloat env (orDigit0 (chain inkyPumpSell total_value)) in
  let inkyPumpPoints :=
    calculateInkyPumpPoints inkyPumpCreatedCount inkyPumpBuyUsd inkyPumpSellUsd in
  let inkyPumpTotalUsd := inkyPumpBuyUsd +! inkyPumpSellUsd in
  let platforms4 := setProp platforms3 "inkypump"
        {| tx_count := inkyPumpCreatedCount +! opt0 (chain inkyPumpBuy total_count)
                         +! opt0 (chain inkyPumpSell total_count);
           usd_volume := inkyPumpTotalUsd; platform_points := inkyPumpPoints |} in
  let totalPoints := (totalPoints + inkyPumpPoints)%Z in

  let tydroSupplyUsd := opt0 (chain tydroData currentSupplyUsd) in
  let tydroBorrowUsd := opt0 (chain tydroData currentBorrowUsd) in
  let tydroPoints := calculateTydroPoints tydroSupplyUsd tydroBorrowUsd in
  let platforms5 := setProp platforms4 "tydro"
        {| tx_count := opt0 (chain tydroData depositCount) +! opt0 (chain tydroData borrowCount);
           usd_volume := tydroSupplyUsd +! tydroBorrowUsd;
           platform_points := tydroPoints |} in
  let totalPoints := (totalPoints + tydroPoints)%Z in

  let swapUsd := opt0 (chain swapData totalUsd) in
  let swapPoints := calculateSwapVolumePoints swapUsd in
  let platforms6 := setProp platforms5 "swap"
        {| tx_count := opt0 (chain swapData txCount);
           usd_volume := swapUsd; platform_points := swapPoints |} in
  let totalPoints := (totalPoints + swapPoints)%Z in

  let shelliesPlayedCount := opt0 (chain shelliesPayToPlay total_count) in
  let shelliesStakedCount := opt0 (chain shelliesStaking total_count) in
  let shelliesRafflesCount := opt0 (chain shelliesRaffles total_count) in
  let shelliesPoints :=
    calculateShelliesPoints shelliesPlayedCount shelliesStakedCount shelliesRafflesCount in
  let platforms7 := setProp platforms6 "shellies"
        {| tx_count := shelliesPlayedCount +! shelliesStakedCount +! shelliesRafflesCount;
           usd_volume := zero; platform_points := shelliesPoints |} in
  let totalPoints := (totalPoints + shelliesPoints)%Z in

  let znsDeployCount := opt0 (chain znsData deploy_count) in
  let znsSaidGmCount := opt0 (chain znsData say_gm_count) in
  let znsRegisterCount := opt0 (chain znsData register_domain_count) in
  let znsPoints := calculateZnsPoints znsDeployCount znsSaidGmCount znsRegisterCount in
  let platforms8 := setProp platforms7 "zns"
        {| tx_count := opt0 (chain znsData zns_total_count);
           usd_volume := zero; platform_points := znsPoints |} in
  let totalPoints := (totalPoints + znsPoints)%Z in

  let nft2meCollectionsCount := opt0 (chain nft2meData collectionsCreated) in
  let nft2meMintedCount := opt0 (chain nft2meData nftsMinted) in
  let nft2mePoints := calculateNft2mePoints nft2meCollectionsCount nft2meMintedCount in
  let platforms9 := setProp platforms8 "nft2me"
        {| tx_count := opt0 (chain nft2meData nft2me_totalTransactions);
           usd_volume := zero; platform_points := nft2mePoints |} in
  let totalPoints := (totalPoints + nft2mePoints)%Z in

  let byContract := orEmpty (chain nftTradingData by_contract) in
  squidCount <- orTypeError (countOf byContract NFT_CONTRACTS_squid) ;;
  netProtocolCount <- orTypeError (countOf byContract NFT_CONTRACTS_netProtocol) ;;
  mintiqueCount <- orTypeError (countOf byContract NFT_CONTRACTS_mintique) ;;
  let nftTradingPoints :=
    calculateNftTradingPoints squidCount netProtocolCount mintiqueCount in
  let platforms10 := setProp platforms9 "nft_trading"
        {| tx_count := opt0 (chain nftTradingData nft_total_count);
           usd_volume := zero; platform_points := nftTradingPoints |} in
  let totalPoints := (totalPoints + nftTradingPoints)%Z in

  let marvkCardMinted := opt0 (chain marvkData cardMintedCount) in
  let marvkLockCount := opt0 (chain marvkData lockTokenCount) in
  let marvkVestCount := opt0 (chain marvkData vestTokenCount) in
  let marvkPoints := calculateMarvkPoints marvkCardMinted marvkLockCount marvkVestCount in
  let platforms11 := setProp platforms10 "marvk"
        {| tx_count := opt0 (chain marvkData marvk_totalTransactions);
           usd_volume := zero; platform_points := marvkPoints |} in
  let totalPoints := (totalPoints + marvkPoints)%Z in

  let nadoTotalDeposits := opt0 (chain nadoData totalDeposits) in
  let nadoTotalVolume := opt0 (chain nadoData nadoVolumeUSD) in
  let nadoPoints := calculateNadoPoints nadoTotalDeposits nadoTotalVolume in
  let platforms12 := setProp platforms11 "nado"
        {| tx_count := opt0 (chain nadoData nado_totalTransactions);
           usd_volume := nadoTotalVolume; platform_points := nadoPoints |} in
  let totalPoints := (totalPoints + nadoPoints)%Z in

  let copinkSubaccounts := opt0 (chain copinkData subaccountsFound) in
  let copinkVolume := opt0 (chain copinkData copink_totalVolume) in
  let copinkPoints := calculateCopinkPoints copinkSubaccounts copinkVolume in
  let platforms13 := setProp platforms12 "copink"
        {| tx_count := copinkSubaccounts; usd_volume := copinkVolume;
           platform_points := copinkPoints |} in
  let totalPoints := (totalPoints + copinkPoints)%Z in

  ranks <- getCachedRanks env ;;
  let rank := getRankForPoints ranks #totalPoints in
  now <- dateNow env ;;
  ret {| wallet_address := wallet;
         total_points := totalPoints;
         rank := option_map (fun r => {| rank_name := name r; rank_color := color r;
                                         rank_logo_url := logo_url r |}) rank;
         breakdown := {| native := native5; platforms := platforms13 |};
         last_updated := now |}.

Definition calculateWalletScore (walletAddress : string) : M WalletScoreResponse :=
  let wallet := toLowerCase walletAddress in
  tryCatch
    (let fs := http env wallet in
     walletStatsRes <- settled (f_walletStats fs) ;;
     bridgeRes <- settled (f_bridge fs) ;;
     swapRes <- settled (f_swap fs) ;;
     tydroRes <- settled (f_tydro fs) ;;
     gmRes <- settled (f_gm fs) ;;
     inkyPumpCreatedRes <- settled (f_inkyPumpCreated fs) ;;
     inkyPumpBuyRes <- settled (f_inkyPumpBuy fs) ;;
     inkyPumpSellRes <- settled (f_inkyPumpSell fs) ;;
     shelliesRafflesRes <- settled (f_shelliesRaffles fs) ;;
     shelliesPayToPlayRes <- settled (f_shelliesPayToPlay fs) ;;
     shelliesStakingRes <- settled (f_shelliesStaking fs) ;;
     znsRes <- settled (f_zns fs) ;;
     nft2meRes <- settled (f_nft2me fs) ;;
     nftTradingRes <- settled (f_nftTrading fs) ;;
     marvkRes <- settled (f_marvk fs) ;;
     nadoRes <- settled (f_nado fs) ;;
     copinkRes <- settled (f_copink fs) ;;

     walletStats <- jsonIfOk walletStatsRes ;;
     bridgeData <- jsonIfOk bridgeRes ;;
     swapData <- jsonIfOk swapRes ;;
     tydroData <- jsonIfOk tydroRes ;;
     gmData <- jsonIfOk gmRes ;;
     inkyPumpCreated <- jsonIfOk inkyPumpCreatedRes ;;
     inkyPumpBuy <- jsonIfOk inkyPumpBuyRes ;;
     inkyPumpSell <- jsonIfOk inkyPumpSellRes ;;
     shelliesRaffles <- jsonIfOk shelliesRafflesRes ;;
     shelliesPayToPlay <- jsonIfOk shelliesPayToPlayRes ;;
     shelliesStaking <- jsonIfOk shelliesStakingRes ;;
     znsData <- jsonIfOk znsRes ;;
     nft2meData <- jsonIfOk nft2meRes ;;
     nftTradingData <- jsonIfOk nftTradingRes ;;
     marvkData <- jsonIfOk marvkRes ;;
     nadoData <- jsonIfOk nadoRes ;;
     copinkData <- jsonIfOk copinkRes ;;

     match walletStats with
     | None => throw (Error "Failed to fetch wallet stats")
     | Some walletStats =>
         score wallet walletStats bridgeData swapData tydroData gmData
               inkyPumpCreated inkyPumpBuy inkyPumpSell
               shelliesRaffles shelliesPayToPlay shelliesStaking
               znsData nft2meData nftTradingData marvkData nadoData copinkData
     end)
    (fun error => throw error).

End WithEnv.

End Aggregator.

(** ** The value of a number

    What the proofs about [+] need: the value of a number as an integer
    multiple of 2^-1074, and the rounding to nearest, ties to even, that
    the IEEE addition applies to an exact sum. *)

Module Ieee.
Import JS.

(** The first magnitude that overflows, 2^1024, in units of 2^-1074. *)
Definition top : Z := 2 ^ 2098.

Definition signed (s : bool) (v : Z) : Z := if s then - v else v.

(** The value of [x] in units of 2^-1074; the infinities sit at [top]. *)
Definition sval (x : number) : Z :=
  match x with
  | S754_zero _ => 0
  | S754_infinity s => if s then - top else top
  | S754_nan => 0
  | S754_finite s m e => if s then - (Zpos m * 2 ^ (e + 1074)) else Zpos m * 2 ^ (e + 1074)
  end.

(** The mantissa of [V] once its [k] low bits are rounded away. *)
Definition rounded (V k : Z) : Z :=
  let q := V / 2 ^ k in
  let r := V mod 2 ^ k in
  if (2 ^ (k - 1) <? r) || ((2 ^ (k - 1) =? r) && Z.odd q) then q + 1 else q.

(** The rounding of a positive value to 53 significant bits. *)
Definition rnd_pos (V : Z) : Z :=
  if Z.log2 V + 1 <=? 53 then V
  else Z.min top (rounded V (Z.log2 V + 1 - 53) * 2 ^ (Z.log2 V + 1 - 53)).

Definition rnd (V : Z) : Z :=
  match V with
  | Z0 => 0
  | Zpos _ => rnd_pos V
  | Zneg p => - rnd_pos (Zpos p)
  end.

Definition is_finite (x : number) : bool :=
  match x with S754_zero _ | S754_finite _ _ _ => true | _ => false end.

(** The number with mantissa [m] and exponent [e], or the infinity when
    the exponent is out of range. *)
Definition packed (s : bool) (m : positive) (e : Z) : number :=
  if e <=? 971 then S754_finite s m e else S754_infinity s.

(** [r] is a valid number of sign [s] and magnitude [v]. *)
Definition represents (s : bool) (v : Z) (r : number) : Prop :=
  valid r = true /\ sval r = signed s v /\
  match r with
  | S754_finite s' _ _ | S754_infinity s' => s' = s
  | _ => False
  end.

(** How two sums compare when the second adds to a larger number: in
    order, or the first is [NaN], or the second is and the first is
    [-Infinity]. *)
Definition sum_le (a b : number) : Prop :=
  (valid a = true /\ valid b = true /\ le a b = true) \/
  a = S754_nan \/
  (b = S754_nan /\ a = S754_infinity true).

End Ieee.

(** ** The vocabulary of the specification *)

Module Spec.
Import JS Str World Registry Aggregator.
Local Open Scope js_scope.

(** [NaN], a negative number, zero, or any number below 1. *)
Definition below_one (x : number) : Prop := (x >=? #1) = false.

(** [NaN], a negative number or zero. *)
Definition not_positive (x : number) : Prop := (x >? #0) = false.

(** The interval [[min_points, max_points]] of a rank contains [P]; an
    absent [max_points] leaves it unbounded above. *)
Definition in_interval (r : Rank) (P : number) : Prop :=
  (min_points r <=? P) = true /\
  match max_points r with
  | None => True
  | Some max => (P <=? max) = true
  end.

(** Two spellings of one address: equal once both are lowercased. *)
Definition same_address (a b : string) : Prop := toLowerCase a = toLowerCase b.

(** The sum of the points of the entries of a breakdown, the keys in
    [skip] left out. *)
Definition nativeSum (skip : list string) (o : Obj NativeEntry) : Z :=
  fold_right (fun kv acc =>
                if existsb (String.eqb (fst kv)) skip then acc
                else (points (snd kv) + acc)%Z) 0%Z o.

Definition platformSum (skip : list string) (o : Obj PlatformEntry) : Z :=
  fold_right (fun kv acc =>
                if existsb (String.eqb (fst kv)) skip then acc
                else (platform_points (snd kv) + acc)%Z) 0%Z o.

Definition breakdownSum (skip : list string) (b : WalletPointsBreakdown) : Z :=
  (nativeSum skip (native b) + platformSum skip (platforms b))%Z.

(** What the aggregator reads from a settled response whose body, if it is
    read at all, is JSON. *)
Definition dataOf {A} (res : Response A) : option A :=
  if ok res then
    match body res with
    | JsonObject a => Some a
    | _ => None
    end
  else None.

(** A 2xx response whose body is not JSON. *)
Definition unparsable {A} (res : Response A) : bool :=
  ok res && match body res with Malformed => true | _ => false end.

(** The same for the outcome of a fetch. *)
Definition rejected {A} (f : Fetched A) : bool :=
  match f with Rejected => true | Resolved _ => false end.

Definition unparsableF {A} (f : Fetched A) : bool :=
  match f with Rejected => false | Resolved r => unparsable r end.

Definition dataOfF {A} (f : Fetched A) : option A :=
  match f with Rejected => None | Resolved r => dataOf r end.

Definition anyRejected (fs : Fetches) : bool :=
  rejected (f_walletStats fs) || rejected (f_bridge fs) || rejected (f_swap fs) ||
  rejected (f_tydro fs) || rejected (f_gm fs) || rejected (f_inkyPumpCreated fs) ||
  rejected (f_inkyPumpBuy fs) || rejected (f_inkyPumpSell fs) ||
  rejected (f_shelliesRaffles fs) || rejected (f_shelliesPayToPlay fs) ||
  rejected (f_shelliesStaking fs) || rejected (f_zns fs) || rejected (f_nft2me fs) ||
  rejected (f_nftTrading fs) || rejected (f_marvk fs) || rejected (f_nado fs) ||
  rejected (f_copink fs).

Definition anyUnparsable (fs : Fetches) : bool :=
  unparsableF (f_walletStats fs) || unparsableF (f_bridge fs) || unparsableF (f_swap fs) ||
  unparsableF (f_tydro fs) || unparsableF (f_gm fs) || unparsableF (f_inkyPumpCreated fs) ||
  unparsableF (f_inkyPumpBuy fs) || unparsableF (f_inkyPumpSell fs) ||
  unparsableF (f_shelliesRaffles fs) || unparsableF (f_shelliesPayToPlay fs) ||
  unparsableF (f_shelliesStaking fs) || unparsableF (f_zns fs) || unparsableF (f_nft2me fs) ||
  unparsableF (f_nftTrading fs) || unparsableF (f_marvk fs) || unparsableF (f_nado fs) ||
  unparsableF (f_copink fs).

(** The primary source gave nothing to score: the fetch was rejected, the
    status was not 2xx, or the body was not a JSON object. *)
Definition primaryUnusable (fs : Fetches) : Prop :=
  match f_walletStats fs with
  | Rejected => True
  | Resolved r =>
      ok r = false \/ body r = Malformed \/ body r = JsonNull
  end.

(** The source answered with a status that is not 2xx. *)
Definition non2xx {A} (f : Fetched A) : Prop :=
  match f with
  | Rejected => False
  | Resolved r => ok r = false
  end.

(** A cache that is absent, or as old as its time to live: at every
    reading of the clock from now on for the ranks, which a call reads
    after the meme tokens, at the next reading for the meme tokens. *)
Definition ranksExpired (env : Env) (s : State) : Prop :=
  match ranksCache s with
  | None => True
  | Some c =>
      forall n, (clockReads s <= n)%nat ->
                (RANKS_CACHE_TTL <= clock env n - ranks_timestamp c)%Z
  end.

(** The rank table is absent, or as old as its time to live at the next
    reading of the clock: the next read refreshes it. *)
Definition ranksStale (env : Env) (s : State) : Prop :=
  match ranksCache s with
  | None => True
  | Some c => (RANKS_CACHE_TTL <= clock env (clockReads s) - ranks_timestamp c)%Z
  end.

Definition memeTokensExpired (env : Env) (s : State) : Prop :=
  match memeTokensCache s with
  | None => True
  | Some c => (MEME_TOKENS_CACHE_TTL <= clock env (clockReads s) - meme_timestamp c)%Z
  end.

(** The arrays the scoring walks have the declared shape: no element of
    [nftCollections], [tokenHoldings] or [by_contract] is [null], and every
    token holding has a string address. *)
Definition declaredShape (walletStats : WalletStatsResponse)
    (nftTradingData : option NftTradingResponse) : Prop :=
  Forall (fun col => col <> None) (orEmpty (nftCollections walletStats)) /\
  Forall (fun token => lowerAddress token <> None) (orEmpty (tokenHoldings walletStats)) /\
  Forall (fun row => row <> None) (orEmpty (chain nftTradingData by_contract)).

(** Whether the scoring gets through these arrays without a TypeError:
    the three walks of the collections, of the holdings and of the rows
    (one search per contract) all have a result. *)
Definition scoreable (walletStats : WalletStatsResponse)
    (nftTradingData : option NftTradingResponse) : bool :=
  let byContract := orEmpty (chain nftTradingData by_contract) in
  match sumCounts (orEmpty (nftCollections walletStats)) zero,
        filterTokens (fun _ => true) (orEmpty (tokenHoldings walletStats)),
        countOf byContract NFT_CONTRACTS_squid,
        countOf byContract NFT_CONTRACTS_netProtocol,
        countOf byContract NFT_CONTRACTS_mintique
  with
  | Some _, Some _, Some _, Some _, Some _ => true
  | _, _, _, _, _ => false
  end.

(** The entry of a platform nothing is known about. *)
Definition noActivity : PlatformEntry :=
  {| tx_count := zero; usd_volume := zero; platform_points := 0 |}.

End Spec.

(** ** Sample runs *)

Module Examples.
Import JS Str World Registry Aggregator.
Local Open Scope js_scope.
Local Open Scope string_scope.

(** A stand-in for [parseInt] and [parseFloat], exact on the strings made
    of decimal digits and [NaN] on the others. *)
Fixpoint digits (s : string) (acc : Z) : option Z :=
  match s with
  | EmptyString => Some acc
  | String c s' =>
      let n := nat_of_ascii c in
      if (Nat.leb 48 n && Nat.leb n 57)%bool
      then digits s' (10 * acc + Z.of_nat (n - 48))%Z
      else None
  end.

Definition parseDigits (s : string) : number :=
  match s with
  | EmptyString => nan
  | _ => match digits s 0%Z with Some z => #z | None => nan end
  end.

Definition status200 {A} (a : A) : Fetched A :=
  Resolved {| ok := true; body := JsonObject a |}.

Definition status500 {A} : Fetched A :=
  Resolved {| ok := false; body := Malformed |}.

Definition notJson {A} : Fetched A :=
  Resolved {| ok := true; body := Malformed |}.

Definition anita := "0x0606FC632EE812BA970AF72F8489BAAA443C4B98".

Definition walletStats : WalletStatsResponse :=
  {| nftCollections := Some [ Some {| count := Some #3 |}; Some {| count := Some #4 |} ];
     tokenHoldings :=
       Some [ Some {| address := Some "0x0606fc632ee812ba970af72f8489baaa443c4b98";
                      symbol := Some "ANITA"; usdValue := #120 |};
              Some {| address := Some "0x4200000000000000000000000000000000000006";
                      symbol := Some "WETH"; usdValue := #2000 |} ];
     balanceUsd := Some #50;
     ageDays := Some #400;
     totalTxns := Some #150 |}.

Definition bridge : BridgeResponse :=
  {| bridgedInUsd := Some #1500; bridgedInCount := Some #4;
     bridgedOutUsd := None; bridgedOutCount := None |}.

Definition noCount : CountResponse := {| total_count := None; total_value := None |}.

Definition gm : CountResponse := {| total_count := Some #12; total_value := None |}.

Definition buys : CountResponse := {| total_count := Some #2; total_value := Some "250" |}.

Definition nado : NadoResponse :=
  {| totalDeposits := Some #2000; nado_totalTransactions := Some #9;
     nadoVolumeUSD := Some #600000 |}.

(** Every source answers 200. *)
Definition allUp : Fetches :=
  {| f_walletStats := status200 walletStats;
     f_bridge := status200 bridge;
     f_swap := status200 {| totalUsd := Some #5200; txCount := Some #31 |};
     f_tydro := status200 {| currentSupplyUsd := None; currentBorrowUsd := None;
                             depositCount := None; borrowCount := None |};
     f_gm := status200 gm;
     f_inkyPumpCreated := status200 noCount;
     f_inkyPumpBuy := status200 buys;
     f_inkyPumpSell := status200 noCount;
     f_shelliesRaffles := status200 noCount;
     f_shelliesPayToPlay := status200 noCount;
     f_shelliesStaking := status200 noCount;
     f_zns := status200 {| zns_total_count := None; deploy_count := None;
                           say_gm_count := None; register_domain_count := None |};
     f_nft2me := status200 {| collectionsCreated := None; nftsMinted := None;
                              nft2me_totalTransactions := None |};
     f_nftTrading := status200 {| nft_total_count := None; by_contract := None |};
     f_marvk := status200 {| lockTokenCount := None; vestTokenCount := None;
                             cardMintedCount := None; marvk_totalTransactions := None |};
     f_nado := status200 nado;
     f_copink := status200 {| copink_totalVolume := None; subaccountsFound := None |} |}.

(** The same with one source changed. *)
Definition withWalletStats (f : Fetched WalletStatsResponse) (fs : Fetches) : Fetches :=
  {| f_walletStats := f; f_bridge := f_bridge fs; f_swap := f_swap fs;
     f_tydro := f_tydro fs; f_gm := f_gm fs;
     f_inkyPumpCreated := f_inkyPumpCreated fs; f_inkyPumpBuy := f_inkyPumpBuy fs;
     f_inkyPumpSell := f_inkyPumpSell fs; f_shelliesRaffles := f_shelliesRaffles fs;
     f_shelliesPayToPlay := f_shelliesPayToPlay fs;
     f_shelliesStaking := f_shelliesStaking fs; f_zns := f_zns fs;
     f_nft2me := f_nft2me fs; f_nftTrading := f_nftTrading fs; f_marvk := f_marvk fs;
     f_nado := f_nado fs; f_copink := f_copink fs |}.

Definition withBridge (f : Fetched BridgeResponse) (fs : Fetches) : Fetches :=
  {| f_walletStats := f_walletStats fs; f_bridge := f; f_swap := f_swap fs;
     f_tydro := f_tydro fs; f_gm := f_gm fs;
     f_inkyPumpCreated := f_inkyPumpCreated fs; f_inkyPumpBuy := f_inkyPumpBuy fs;
     f_inkyPumpSell := f_inkyPumpSell fs; f_shelliesRaffles := f_shelliesRaffles fs;
     f_shelliesPayToPlay := f_shelliesPayToPlay fs;
     f_shelliesStaking := f_shelliesStaking fs; f_zns := f_zns fs;
     f_nft2me := f_nft2me fs; f_nftTrading := f_nftTrading fs; f_marvk := f_marvk fs;
     f_nado := f_nado fs; f_copink := f_copink fs |}.

Definition withNado (f : Fetched NadoResponse) (fs : Fetches) : Fetches :=
  {| f_walletStats := f_walletStats fs; f_bridge := f_bridge fs; f_swap := f_swap fs;
     f_tydro := f_tydro fs; f_gm := f_gm fs;
     f_inkyPumpCreated := f_inkyPumpCreated fs; f_inkyPumpBuy := f_inkyPumpBuy fs;
     f_inkyPumpSell := f_inkyPumpSell fs; f_shelliesRaffles := f_shelliesRaffles fs;
     f_shelliesPayToPlay := f_shelliesPayToPlay fs;
     f_shelliesStaking := f_shelliesStaking fs; f_zns := f_zns fs;
     f_nft2me := f_nft2me fs; f_nftTrading := f_nftTrading fs; f_marvk := f_marvk fs;
     f_nado := f; f_copink := f_copink fs |}.

Definition bronze : RawRank :=
  {| raw_id := #1; raw_name := "Bronze"; raw_min_points := IsStr "0";
     raw_max_points := Some (IsStr "999"); raw_logo_url := None;
     raw_color := Some "#cd7f32"; raw_description := None;
     raw_display_order := #1; raw_is_active := true |}.

Definition silver : RawRank :=
  {| raw_id := #2; raw_name := "Silver"; raw_min_points := IsNum #1000;
     raw_max_points := None; raw_logo_url := None;
     raw_color := Some "#c0c0c0"; raw_description := None;
     raw_display_order := #2; raw_is_active := true |}.

(** A store that answers, and one that is down. *)
Definition world (time : nat -> Z) (storeUp : bool) (fs : Fetches) : Env :=
  {| parseInt10 := parseDigits;
     parseFloat := parseDigits;
     clock := time;
     getMemeCoins := fun _ => if storeUp then Some [ {| coin_address := anita |} ] else None;
     queryRanks := fun _ => if storeUp then Some [ bronze; silver ] else None;
     http := fun _ => fs |}.

Definition ticking (n : nat) : Z := (1000 * Z.of_nat n)%Z.

(** Both caches filled at time 1000. *)
Definition warm : State :=
  {| ranksCache :=
       Some {| ranks := [ {| id := #1; name := "Bronze"; min_points := #0;
                             max_points := None; logo_url := None; color := None;
                             description := None; display_order := #1;
                             is_active := true; created_at := 1000;
                             updated_at := 1000 |} ];
               ranks_timestamp := 1000 |};
     memeTokensCache :=
       Some {| addresses := [ "0x0606fc632ee812ba970af72f8489baaa443c4b98" ];
               meme_timestamp := 1000 |};
     clockReads := 0; memeQueries := 1; rankQueries := 1 |}.

Definition wallet := "0xAbCdEf0123456789aBcDeF0123456789AbCdEf01".

End Examples.

(** ** The rest of the service and of the helpers *)

Module More.
Import JS Str World Registry Tier Aggregator.
Local Open Scope js_scope.
Local Open Scope string_scope.

(** The name of the bridge tier of a volume. *)
Definition getBridgeTierName (volumeUsd : number) : string :=
  if volumeUsd >=? #10000 then "5 (Bridge Whale)"
  else if volumeUsd >=? #5000 then "4 (Connector)"
  else if volumeUsd >=? #1000 then "3 (Settler)"
  else if volumeUsd >=? #100 then "2 (Explorer)"
  else if volumeUsd >=? #1 then "1 (Tourist)"
  else "0 (None)".

(** [getProxiedImageUrl] of the image helpers.  The argument is absent for
    [undefined] and [null]; [encodeURIComponent] is the built-in, which
    throws on a string that is not well-formed (no result then). *)
Definition getProxiedImageUrl (encodeURIComponent : string -> option string)
    (url : option string) : option string :=
  match url with
  | None => Some ""
  | Some "" => Some ""
  | Some url =>
      if (prefix "/" url || prefix "data:" url)%bool then Some url
      else
        match encodeURIComponent url with
        | Some encoded => Some ("/api/proxy-image?url=" ++ encoded)
        | None => None
        end
  end.

End More.

(** ** What a call records, given what it read

    The entries [score] writes, as functions of the decoded bodies and of
    the three meme-token sets it was given; the properties below state
    that [score] records exactly these. *)

Module Recorded.
Import JS Str World Registry Tier Aggregator.
Local Open Scope js_scope.
Local Open Scope string_scope.

(** The result of a walk that has one.  The default stands in for a walk
    that throws, which no response records. *)
Definition got {A} (default : A) (result : option A) : A :=
  match result with
  | Some a => a
  | None => default
  end.

Definition nativeEntries (walletStats : WalletStatsResponse)
    (memeTokens1 memeTokens2 memeTokens3 : StrSet) : Obj NativeEntry :=
  let nftCount := got zero (sumCounts (orEmpty (nftCollections walletStats)) zero) in
  let holdings := orEmpty (tokenHoldings walletStats) in
  let allHoldings :=
    (holdings ++ [Some (nativeEth (opt0 (balanceUsd walletStats)))])%list in
  [
     ("nft_collections"%string,
      {| value := nftCount; points := calculateNftCollectionsPoints nftCount |});
     ("erc20_tokens"%string,
      {| value := got zero (sumUsdOf allHoldings zero);
         points := tokenHoldingsTier
                     (sumUsd (got [] (filterTokens (fun a => negb (has memeTokens1 a))
                                                   allHoldings))) |});
     ("meme_coins"%string,
      {| value := #(Z.of_nat (List.length
                                (got [] (filterTokens (has memeTokens3) holdings))));
         points := memeCoinsTier
                     (sumUsd (got [] (filterTokens (has memeTokens2) holdings))) |});
     ("wallet_age"%string,
      {| value := opt0 (ageDays walletStats);
         points := calculateWalletAgePoints (opt0 (ageDays walletStats)) |});
     ("total_tx"%string,
      {| value := opt0 (totalTxns walletStats);
         points := calculateTotalTxPoints (opt0 (totalTxns walletStats)) |}) ].

Section WithEnv.
Variable env : Env.

Definition platformEntries
    (bridgeData : option BridgeResponse) (swapData : option SwapResponse)
    (tydroData : option TydroResponse) (gmData : option CountResponse)
    (inkyPumpCreated inkyPumpBuy inkyPumpSell : option CountResponse)
    (shelliesRaffles shelliesPayToPlay shelliesStaking : option CountResponse)
    (znsData : option ZnsResponse) (nft2meData : option Nft2meResponse)
    (nftTradingData : option NftTradingResponse) (marvkData : option MarvkResponse)
    (nadoData : option NadoResponse) (copinkData : option CopinkResponse)
    : Obj PlatformEntry :=
  let buyUsd := parseFloat env (orDigit0 (chain inkyPumpBuy total_value)) in
  let sellUsd := parseFloat env (orDigit0 (chain inkyPumpSell total_value)) in
  let byContract := orEmpty (chain nftTradingData by_contract) in
  [
     ("bridge_in"%string,
      {| tx_count := opt0 (chain bridgeData bridgedInCount);
              usd_volume := opt0 (chain bridgeData bridgedInUsd);
              platform_points :=
                calculateBridgeInPoints (opt0 (chain bridgeData bridgedInUsd)) |});
     ("bridge_out"%string,
      {| tx_count := opt0 (chain bridgeData bridgedOutCount);
              usd_volume := opt0 (chain bridgeData bridgedOutUsd);
              platform_points :=
                calculateBridgeOutPoints (opt0 (chain bridgeData bridgedOutUsd)) |});
     ("gm"%string,
      {| tx_count := opt0 (chain gmData total_count); usd_volume := zero;
              platform_points := calculateGmPoints (opt0 (chain gmData total_count)) |});
     ("inkypump"%string,
      {| tx_count := opt0 (chain inkyPumpCreated total_count)
                            +! opt0 (chain inkyPumpBuy total_count)
                            +! opt0 (chain inkyPumpSell total_count);
              usd_volume := buyUsd +! sellUsd;
              platform_points :=
                calculateInkyPumpPoints (opt0 (chain inkyPumpCreated total_count))
                                        buyUsd sellUsd |});
     ("tydro"%string,
      {| tx_count := opt0 (chain tydroData depositCount)
                            +! opt0 (chain tydroData borrowCount);
              usd_volume := opt0 (chain tydroData currentSupplyUsd)
                              +! opt0 (chain tydroData currentBorrowUsd);
              platform_points :=
                calculateTydroPoints (opt0 (chain tydroData currentSupplyUsd))
                                     (opt0 (chain tydroData currentBorrowUsd)) |});
     ("swap"%string,
      {| tx_count := opt0 (chain swapData txCount);
              usd_volume := opt0 (chain swapData totalUsd);
              platform_points :=
                calculateSwapVolumePoints (opt0 (chain swapData totalUsd)) |});
     ("shellies"%string,
      {| tx_count := opt0 (chain shelliesPayToPlay total_count)
                            +! opt0 (chain shelliesStaking total_count)
                            +! opt0 (chain shelliesRaffles total_count);
              usd_volume := zero;
              platform_points :=
                calculateShelliesPoints (opt0 (chain shelliesPayToPlay total_count))
                                        (opt0 (chain shelliesStaking total_count))
                                        (opt0 (chain shelliesRaffles total_count)) |});
     ("zns"%string,
      {| tx_count := opt0 (chain znsData zns_total_count); usd_volume := zero;
              platform_points :=
                calculateZnsPoints (opt0 (chain znsData deploy_count))
                                   (opt0 (chain znsData say_gm_count))
                                   (opt0 (chain znsData register_domain_count)) |});
     ("nft2me"%string,
      {| tx_count := opt0 (chain nft2meData nft2me_totalTransactions);
              usd_volume := zero;
              platform_points :=
                calculateNft2mePoints (opt0 (chain nft2meData collectionsCreated))
                                      (opt0 (chain nft2meData nftsMinted)) |});
     ("nft_trading"%string,
      {| tx_count := opt0 (chain nftTradingData nft_total_count); usd_volume := zero;
              platform_points :=
                calculateNftTradingPoints
                  (got zero (countOf byContract NFT_CONTRACTS_squid))
                  (got zero (countOf byContract NFT_CONTRACTS_netProtocol))
                  (got zero (countOf byContract NFT_CONTRACTS_mintique)) |});
     ("marvk"%string,
      {| tx_count := opt0 (chain marvkData marvk_totalTransactions);
              usd_volume := zero;
              platform_points :=
                calculateMarvkPoints (opt0 (chain marvkData cardMintedCount))
                                     (opt0 (chain marvkData lockTokenCount))
                                     (opt0 (chain marvkData vestTokenCount)) |});
     ("nado"%string,
      {| tx_count := opt0 (chain nadoData nado_totalTransactions);
              usd_volume := opt0 (chain nadoData nadoVolumeUSD);
              platform_points :=
                calculateNadoPoints (opt0 (chain nadoData totalDeposits))
                                    (opt0 (chain nadoData nadoVolumeUSD)) |});
     ("copink"%string,
      {| tx_count := opt0 (chain copinkData subaccountsFound);
              usd_volume := opt0 (chain copinkData copink_totalVolume);
              platform_points :=
                calculateCopinkPoints (opt0 (chain copinkData subaccountsFound))
                                      (opt0 (chain copinkData copink_totalVolume)) |}) ].

End WithEnv.

(** The platform entries of the answers of the HTTP host. *)
Definition platformsOf (env : Env) (fs : Fetches) : Obj PlatformEntry :=
  platformEntries env
    (Spec.dataOfF (f_bridge fs)) (Spec.dataOfF (f_swap fs)) (Spec.dataOfF (f_tydro fs))
    (Spec.dataOfF (f_gm fs)) (Spec.dataOfF (f_inkyPumpCreated fs))
    (Spec.dataOfF (f_inkyPumpBuy fs)) (Spec.dataOfF (f_inkyPumpSell fs))
    (Spec.dataOfF (f_shelliesRaffles fs)) (Spec.dataOfF (f_shelliesPayToPlay fs))
    (Spec.dataOfF (f_shelliesStaking fs)) (Spec.dataOfF (f_zns fs))
    (Spec.dataOfF (f_nft2me fs)) (Spec.dataOfF (f_nftTrading fs))
    (Spec.dataOfF (f_marvk fs)) (Spec.dataOfF (f_nado fs)) (Spec.dataOfF (f_copink fs)).

(** The response made of the entries, the rank table and the time read. *)
Definition responseOf (wallet : string) (native : Obj NativeEntry)
    (platforms : Obj PlatformEntry) (ranks : list Rank) (now : Z)
    : WalletScoreResponse :=
  let breakdown := {| native := native; platforms := platforms |} in
  let total := Spec.breakdownSum [] breakdown in
  {| wallet_address := wallet;
     total_points := total;
     rank := option_map (fun r => {| rank_name := name r; rank_color := color r;
                                     rank_logo_url := logo_url r |})
                        (getRankForPoints ranks #total);
     breakdown := breakdown;
     last_updated := now |}.

(** Two responses that differ at most in [last_updated]. *)
Definition sameButTime (a b : WalletScoreResponse) : Prop :=
  wallet_address a = wallet_address b /\
  total_points a = total_points b /\
  rank a = rank b /\
  breakdown a = breakdown b.

(** Both caches are filled and stay within their time to live at the next
    [k] readings of the clock. *)
Definition cachesFresh (env : Env) (k : nat) (s : State) : Prop :=
  (exists c, ranksCache s = Some c /\
             forall n, (clockReads s <= n < clockReads s + k)%nat ->
                       (clock env n - ranks_timestamp c < RANKS_CACHE_TTL)%Z) /\
  (exists c, memeTokensCache s = Some c /\
             forall n, (clockReads s <= n < clockReads s + k)%nat ->
                       (clock env n - meme_timestamp c < MEME_TOKENS_CACHE_TTL)%Z).

(** A set of lowercase addresses, and a state whose meme-token cache is
    one. *)
Definition lowercaseSet (set : StrSet) : Prop :=
  Forall (fun a => toLowerCase a = a) set.

Definition memeCacheLowercase (s : State) : Prop :=
  match memeTokensCache s with
  | Some c => lowercaseSet (addresses c)
  | None => True
  end.

(** The number a column delivered as a text or as a number stands for, and
    the fields a rank takes from its row. *)
Definition columnValue (env : Env) (c : StrOrNum) : number :=
  match c with IsStr s => parseInt10 env s | IsNum n => n end.

Definition madeOf (env : Env) (row : RawRank) (r : Rank) : Prop :=
  name r = raw_name row /\ color r = raw_color row /\ logo_url r = raw_logo_url row /\
  min_points r = columnValue env (raw_min_points row) /\
  max_points r = option_map (columnValue env) (raw_max_points row).

(** The bridge tiers: name and points. *)
Definition bridgeTiers : list (string * Z) :=
  [ ("5 (Bridge Whale)", 500%Z); ("4 (Connector)", 400%Z); ("3 (Settler)", 250%Z);
    ("2 (Explorer)", 100%Z); ("1 (Tourist)", 25%Z); ("0 (None)", 0%Z) ].

End Recorded.

(** ** More sample data *)

Module Samples.
Import JS Str World Registry Aggregator Examples.
Local Open Scope js_scope.
Local Open Scope string_scope.

Definition bronzeRank : Rank :=
  {| id := #1; name := "Bronze"; min_points := #0; max_points := None;
     logo_url := None; color := None; description := None; display_order := #1;
     is_active := true; created_at := 1000; updated_at := 1000 |}.

(** [encodeURIComponent] on a string given by its UTF-8 bytes: the letters,
    the digits and [- _ . ! ~ * ' ( )] are kept, every other byte becomes
    [%] and its two capital hexadecimal digits.  Such a string is
    well-formed, so the built-in does not throw on it. *)
Definition unreserved (c : ascii) : bool :=
  let n := nat_of_ascii c in
  ((Nat.leb 48 n && Nat.leb n 57) || (Nat.leb 65 n && Nat.leb n 90) ||
   (Nat.leb 97 n && Nat.leb n 122) ||
   existsb (Nat.eqb n) [45; 95; 46; 33; 126; 42; 39; 40; 41]%nat)%bool.

Definition hexDigit (n : nat) : ascii :=
  ascii_of_nat (if Nat.ltb n 10 then 48 + n else 55 + n).

Fixpoint percentEncode (s : string) : string :=
  match s with
  | EmptyString => EmptyString
  | String c s' =>
      if unreserved c then String c (percentEncode s')
      else
        let n := nat_of_ascii c in
        String "%" (String (hexDigit (n / 16))
                           (String (hexDigit (n mod 16)) (percentEncode s')))
  end.

Definition encodeUtf8 (s : string) : option string := Some (percentEncode s).

(** A clock that stands at two seconds. *)
Definition steady (n : nat) : Z := 2000.

(** A sell total that is not a number, and trades on a contract that is
    none of the three (the Squid address in capitals). *)
Definition garbled : CountResponse :=
  {| total_count := Some #1; total_value := Some "n/a" |}.

Definition elsewhere : NftTradingResponse :=
  {| nft_total_count := Some #12;
     by_contract :=
       Some [ Some {| contract_address := "0x9EBF93FDBA9F32ACCAB3D6716322DCCD617A78F3";
                      contract_count := #12 |} ] |}.


Definition withInkyPumpSell (f : Fetched CountResponse) (fs : Fetches) : Fetches :=
  {| f_walletStats := f_walletStats fs; f_bridge := f_bridge fs; f_swap := f_swap fs;
     f_tydro := f_tydro fs; f_gm := f_gm fs;
     f_inkyPumpCreated := f_inkyPumpCreated fs; f_inkyPumpBuy := f_inkyPumpBuy fs;
     f_inkyPumpSell := f; f_shelliesRaffles := f_shelliesRaffles fs;
     f_shelliesPayToPlay := f_shelliesPayToPlay fs;
     f_shelliesStaking := f_shelliesStaking fs; f_zns := f_zns fs;
     f_nft2me := f_nft2me fs; f_nftTrading := f_nftTrading fs; f_marvk := f_marvk fs;
     f_nado := f_nado fs; f_copink := f_copink fs |}.

Definition withNftTrading (f : Fetched NftTradingResponse) (fs : Fetches) : Fetches :=
  {| f_walletStats := f_walletStats fs; f_bridge := f_bridge fs; f_swap := f_swap fs;
     f_tydro := f_tydro fs; f_gm := f_gm fs;
     f_inkyPumpCreated := f_inkyPumpCreated fs; f_inkyPumpBuy := f_inkyPumpBuy fs;
     f_inkyPumpSell := f_inkyPumpSell fs; f_shelliesRaffles := f_shelliesRaffles fs;
     f_shelliesPayToPlay := f_shelliesPayToPlay fs;
     f_shelliesStaking := f_shelliesStaking fs; f_zns := f_zns fs;
     f_nft2me := f_nft2me fs; f_nftTrading := f; f_marvk := f_marvk fs;
     f_nado := f_nado fs; f_copink := f_copink fs |}.

End Samples.

(** * Properties *)

Import JS Ieee Str World Registry Tier Aggregator Spec.
Local Open Scope js_scope.

(** ** The order of JS numbers *)

Lemma SFleb_trans (a b c : number) :
  SFleb a b = true -> SFleb b c = true -> SFleb a c = true.
Proof.
  unfold SFleb, SFcompare.
  destruct a as [sa|sa| |sa ma ea], b as [sb|sb| |sb mb eb], c as [sc|sc| |sc mc ec];
    try destruct sa; try destruct sb; try destruct sc; simpl;
    try congruence;
    repeat match goal with
    | |- context [Z.compare ?x ?y] => destruct (Z.compare_spec x y); simpl
    end;
    try congruence; try lia; subst;
    change (Pos.compare_cont Eq) with Pos.compare;
    repeat match goal with
    | |- context [Pos.compare ?x ?y] => destruct (Pos.compare_spec x y); simpl
    end;
    try congruence; try lia.
Qed.

(** ** Shifting and rounding in [binary_round] *)

Lemma digits2_log2 m : Zpos (digits2_pos m) = Z.log2 (Zpos m) + 1.
Proof.
  assert (H : forall p, digits2_pos p = Pos.size p) by (induction p; simpl; congruence).
  destruct m; simpl; rewrite ?H; lia.
Qed.

Lemma digits2_bounds m :
  2 ^ (Zpos (digits2_pos m) - 1) <= Zpos m < 2 ^ Zpos (digits2_pos m).
Proof.
  rewrite digits2_log2.
  replace (Z.log2 (Zpos m) + 1 - 1) with (Z.log2 (Zpos m)) by lia.
  apply (Z.log2_spec (Zpos m)). lia.
Qed.

Lemma log2_unique' n a : 0 < n -> 2 ^ (n - 1) <= a < 2 ^ n -> Z.log2 a + 1 = n.
Proof.
  intros Hn H. rewrite (Z.log2_unique a (n - 1)); try lia.
  replace (Z.succ (n - 1)) with n by lia. exact H.
Qed.

Lemma iter_pos_nat {A} (f : A -> A) p x : iter_pos f p x = Nat.iter (Pos.to_nat p) f x.
Proof.
  revert x. induction p as [p IH|p IH|]; intros x; cbn [iter_pos].
  - rewrite !IH, Pos2Nat.inj_xI, <- Nat.iter_succ_r, <- Nat.iter_add.
    f_equal. lia.
  - rewrite !IH, Pos2Nat.inj_xO, <- Nat.iter_add. f_equal. lia.
  - reflexivity.
Qed.

Lemma shr_1_spec m r s : 0 <= m ->
  shr_1 (Build_shr_record m r s) = Build_shr_record (m / 2) (Z.odd m) (r || s).
Proof.
  intros Hm. rewrite <- Z.div2_div.
  destruct m as [|p|p]; [reflexivity| |lia].
  destruct p; reflexivity.
Qed.

Lemma sticky_step a n : 0 <= a -> 0 <= n ->
  Z.odd (a / 2 ^ n) || negb (a mod 2 ^ n =? 0) = negb (a mod 2 ^ (n + 1) =? 0).
Proof.
  intros Ha Hn.
  assert (Hp : 0 < 2 ^ n) by (apply Z.pow_pos_nonneg; lia).
  rewrite Z.pow_add_r by lia. change (2 ^ 1) with 2.
  rewrite Z.rem_mul_r by lia.
  pose proof (Z.mod_pos_bound a (2 ^ n) Hp).
  rewrite (Zmod_odd (a / 2 ^ n)).
  destruct (Z.odd (a / 2 ^ n)); simpl.
  - symmetry. apply negb_true_iff, Z.eqb_neq. lia.
  - f_equal. rewrite Z.mul_0_r, Z.add_0_r. reflexivity.
Qed.

Lemma shr_iter n m : 0 <= m ->
  Nat.iter (S n) shr_1 (Build_shr_record m false false) =
  Build_shr_record (m / 2 ^ Z.of_nat (S n)) (Z.odd (m / 2 ^ Z.of_nat n))
                   (negb (m mod 2 ^ Z.of_nat n =? 0)).
Proof.
  intros Hm. induction n as [|n IH].
  - unfold Nat.iter; cbn [nat_rect]. rewrite shr_1_spec by lia.
    change (Z.of_nat 1) with 1. change (2 ^ Z.of_nat 0) with 1. change (2 ^ 1) with 2.
    rewrite Z.div_1_r, Z.mod_1_r. reflexivity.
  - rewrite Nat.iter_succ, IH, shr_1_spec.
    + rewrite Z.div_div by (try apply Z.pow_pos_nonneg; lia).
      rewrite sticky_step by lia.
      replace (Z.of_nat (S (S n))) with (Z.of_nat (S n) + 1) by lia.
      replace (Z.of_nat (S n)) with (Z.of_nat n + 1) by lia.
      rewrite (Z.pow_add_r 2 (Z.of_nat n + 1) 1) by lia. reflexivity.
    + apply Z.div_pos; [lia|apply Z.pow_pos_nonneg; lia].
Qed.

Lemma shr_pos p m e : 0 <= m ->
  shr (Build_shr_record m false false) e (Zpos p) =
  (Build_shr_record (m / 2 ^ Zpos p) (Z.odd (m / 2 ^ (Zpos p - 1)))
                    (negb (m mod 2 ^ (Zpos p - 1) =? 0)), e + Zpos p).
Proof.
  intros Hm. unfold shr. rewrite iter_pos_nat.
  destruct (Pos2Nat.is_succ p) as [n Hn]. rewrite Hn, shr_iter by lia.
  replace (Z.of_nat (S n)) with (Zpos p) by lia.
  replace (Z.of_nat n) with (Zpos p - 1) by lia. reflexivity.
Qed.

Lemma fexp_eq k : fexp prec emax k = Z.max (k - 53) (-1074).
Proof. reflexivity. Qed.

Lemma iter_xO m d : Zpos (Pos.iter xO m d) = Zpos m * 2 ^ Zpos d.
Proof.
  induction d as [|d IH] using Pos.peano_ind.
  - simpl. lia.
  - rewrite Pos.iter_succ, Pos2Z.inj_xO, IH, Pos2Z.inj_succ, Z.pow_succ_r by lia. lia.
Qed.

Lemma top_eq : top = 2 ^ 53 * 2 ^ 2045.
Proof. reflexivity. Qed.

(** The mantissa already fits: no bit is lost. *)
Lemma round_aux_fits s m e :
  fexp prec emax (Zpos (digits2_pos m) + e) = e ->
  binary_round_aux prec emax s (Zpos m) e loc_Exact = packed s m e.
Proof.
  intros H. unfold binary_round_aux, shr_fexp.
  cbn [Zdigits2 shr_record_of_loc]. rewrite H, Z.sub_diag.
  cbn [shr shr_m loc_of_shr_record round_nearest_even Zdigits2 shr_record_of_loc].
  rewrite H, Z.sub_diag. reflexivity.
Qed.

Lemma pow2_pos k : 0 <= k -> 0 < 2 ^ k.
Proof. intros. apply Z.pow_pos_nonneg; lia. Qed.

Lemma pow2_split a b : 0 <= a -> 0 <= b -> 2 ^ (a + b) = 2 ^ a * 2 ^ b.
Proof. intros. apply Z.pow_add_r; lia. Qed.

Lemma pow2_le a b : a <= b -> 2 ^ a <= 2 ^ b.
Proof. intros. destruct (Z_lt_le_dec a 0).
  - rewrite (Z.pow_neg_r 2 a) by lia. apply Z.pow_nonneg. lia.
  - apply Z.pow_le_mono_r; lia. Qed.

Lemma packed_value s m e : -1074 <= e ->
  fexp prec emax (Zpos (digits2_pos m) + e) = e ->
  represents s (Z.min top (Zpos m * 2 ^ (e + 1074))) (packed s m e).
Proof.
  intros He H. rewrite fexp_eq in H.
  pose proof (digits2_bounds m) as Hd.
  set (d := Zpos (digits2_pos m)) in *.
  assert (Hd0 : 0 < d) by (unfold d; lia).
  set (t := e + 1074) in *.
  assert (Ht : 0 < 2 ^ t) by (apply pow2_pos; lia).
  unfold represents, packed.
  destruct (Z.leb_spec e 971) as [Hle|Hgt].
  - split; [|split; [|reflexivity]].
    + unfold valid, valid_binary, bounded, canonical_mantissa.
      rewrite fexp_eq. fold d. apply andb_true_iff. split; [apply Z.eqb_eq; lia|].
      apply Z.leb_le. unfold emax, prec. lia.
    + cbn [sval]. fold t. f_equal.
      rewrite Z.min_r; [destruct s; reflexivity|].
      rewrite top_eq.
      assert (d <= 53) by lia.
      assert (2 ^ d <= 2 ^ 53) by (apply pow2_le; lia).
      assert (2 ^ t <= 2 ^ 2045) by (apply pow2_le; lia).
      nia.
  - split; [reflexivity|split; [|reflexivity]].
    cbn [sval]. rewrite Z.min_l; [destruct s; reflexivity|].
    rewrite top_eq.
    assert (d = 53) by lia.
    assert (2 ^ 52 <= Zpos m) by (replace 52 with (d - 1) by lia; lia).
    assert (2 ^ 2046 <= 2 ^ t) by (apply pow2_le; lia).
    change (2 ^ 53) with (2 ^ 52 * 2). change (2 ^ 2046) with (2 * 2 ^ 2045) in *.
    assert (0 < 2 ^ 2045) by (apply pow2_pos; lia).
    nia.
Qed.

(** A canonical mantissa is a fixed point of the rounding. *)
Lemma rnd_pos_fits m e : -1074 <= e ->
  fexp prec emax (Zpos (digits2_pos m) + e) = e ->
  rnd_pos (Zpos m * 2 ^ (e + 1074)) = Z.min top (Zpos m * 2 ^ (e + 1074)).
Proof.
  intros He H. rewrite fexp_eq in H.
  pose proof (digits2_bounds m) as Hd.
  set (d := Zpos (digits2_pos m)) in *.
  assert (Hd0 : 0 < d) by (unfold d; lia).
  set (t := e + 1074) in *.
  assert (Ht : 0 < 2 ^ t) by (apply pow2_pos; lia).
  assert (HD : Z.log2 (Zpos m * 2 ^ t) + 1 = d + t).
  { apply log2_unique'; [lia|].
    replace (d + t - 1) with ((d - 1) + t) by lia.
    rewrite !pow2_split by lia. nia. }
  unfold rnd_pos, rounded. rewrite HD. destruct (Z.leb_spec (d + t) 53) as [Hle|Hgt].
  - symmetry. apply Z.min_r. rewrite top_eq.
    assert (Zpos m * 2 ^ t < 2 ^ 53).
    { assert (2 ^ (d + t) <= 2 ^ 53) by (apply pow2_le; lia).
      rewrite pow2_split in * by lia. nia. }
    assert (0 < 2 ^ 2045) by (apply pow2_pos; lia). nia.
  - assert (Ht' : t = d + t - 53) by lia. rewrite <- Ht'.
    rewrite Z.div_mul, Z.mod_mul by lia.
    assert (0 < 2 ^ (t - 1)) by (apply pow2_pos; lia).
    destruct (Z.ltb_spec (2 ^ (t - 1)) 0); [lia|].
    destruct (Z.eqb_spec (2 ^ (t - 1)) 0); [lia|]. reflexivity.
Qed.

Lemma scaled_div m p t : 0 <= p -> 0 <= t ->
  (m * 2 ^ t) / 2 ^ (p + t) = m / 2 ^ p.
Proof.
  intros Hp Ht. rewrite pow2_split by lia.
  pose proof (pow2_pos t Ht). pose proof (pow2_pos p Hp).
  rewrite Z.div_mul_cancel_r by lia. reflexivity.
Qed.

Lemma scaled_mod m p t : 0 <= p -> 0 <= t ->
  (m * 2 ^ t) mod 2 ^ (p + t) = (m mod 2 ^ p) * 2 ^ t.
Proof.
  intros Hp Ht. rewrite pow2_split by lia.
  pose proof (pow2_pos t Ht). pose proof (pow2_pos p Hp).
  rewrite Z.mul_mod_distr_r by lia. reflexivity.
Qed.

(** The round-up decision on the value is the one taken on the round and
    sticky bits. *)
Lemma up_bits m p t : 0 <= m -> 0 < p -> 0 <= t ->
  let V := m * 2 ^ t in
  let k := p + t in
  (2 ^ (k - 1) <? V mod 2 ^ k) || ((2 ^ (k - 1) =? V mod 2 ^ k) && Z.odd (V / 2 ^ k)) =
  Z.odd (m / 2 ^ (p - 1)) && (negb (m mod 2 ^ (p - 1) =? 0) || Z.odd (m / 2 ^ p)).
Proof.
  intros Hm Hp Ht V k. unfold V, k.
  rewrite scaled_div, scaled_mod by lia.
  replace (p + t - 1) with ((p - 1) + t) by lia. rewrite pow2_split by lia.
  pose proof (pow2_pos t Ht) as HT. pose proof (pow2_pos (p - 1)) as HP.
  assert (Hrho : m mod 2 ^ p = m mod 2 ^ (p - 1) + 2 ^ (p - 1) * ((m / 2 ^ (p - 1)) mod 2)).
  { replace p with ((p - 1) + 1) at 1 by lia. rewrite pow2_split by lia.
    change (2 ^ 1) with 2. apply Z.rem_mul_r; lia. }
  rewrite Hrho, (Zmod_odd (m / 2 ^ (p - 1))).
  pose proof (Z.mod_pos_bound m (2 ^ (p - 1))) as Hs.
  set (hp := 2 ^ (p - 1)) in *. set (sg := m mod hp) in *. set (T := 2 ^ t) in *.
  destruct (Z.odd (m / hp)); cbn [andb].
  - destruct (Z.eqb_spec sg 0) as [E|E]; cbn [negb orb].
    + rewrite E. replace ((0 + hp * 1) * T) with (hp * T) by lia.
      rewrite Z.ltb_irrefl, Z.eqb_refl. reflexivity.
    + destruct (Z.ltb_spec (hp * T) ((sg + hp * 1) * T)); [reflexivity|nia].
  - replace ((sg + hp * 0) * T) with (sg * T) by lia.
    destruct (Z.ltb_spec (hp * T) (sg * T)); [nia|].
    destruct (Z.eqb_spec (hp * T) (sg * T)); [nia|]. reflexivity.
Qed.

Lemma rne_bits q rb st :
  round_nearest_even q (loc_of_shr_record (Build_shr_record q rb st)) =
  if rb && (st || Z.odd q) then q + 1 else q.
Proof.
  rewrite <- Z.negb_even.
  destruct rb, st; cbn; try reflexivity. destruct (Z.even q); reflexivity.
Qed.

(** The mantissa has [p] bits too many: they are shifted out and the
    53 bits that remain are rounded to nearest, ties to even. *)
Lemma round_aux_shifts s m e p :
  Zpos (digits2_pos m) = 53 + Zpos p -> -1074 <= e ->
  represents s (rnd_pos (Zpos m * 2 ^ (e + 1074)))
             (binary_round_aux prec emax s (Zpos m) e loc_Exact).
Proof.
  intros Hd He.
  pose proof (digits2_bounds m) as Hb. rewrite Hd in Hb.
  set (t := e + 1074). assert (Ht : 0 <= t) by (unfold t; lia).
  set (q := Zpos m / 2 ^ Zpos p).
  set (up := Z.odd (Zpos m / 2 ^ (Zpos p - 1)) &&
             (negb (Zpos m mod 2 ^ (Zpos p - 1) =? 0) || Z.odd q)).
  set (q' := if up then q + 1 else q).
  pose proof (pow2_pos (Zpos p)) as HP.
  assert (Hq : 2 ^ 52 <= q < 2 ^ 53).
  { unfold q. replace (53 + Zpos p - 1) with (52 + Zpos p) in Hb by lia.
    rewrite !pow2_split in Hb by lia. split.
    - apply Z.div_le_lower_bound; lia.
    - apply Z.div_lt_upper_bound; lia. }
  assert (Hq' : 2 ^ 52 <= q' <= 2 ^ 53) by (unfold q'; destruct up; lia).
  (* the value *)
  assert (Hrnd : rnd_pos (Zpos m * 2 ^ t) = Z.min top (q' * 2 ^ (Zpos p + t))).
  { unfold rnd_pos, rounded.
    assert (HD : Z.log2 (Zpos m * 2 ^ t) + 1 = 53 + Zpos p + t).
    { apply log2_unique'; [lia|].
      replace (53 + Zpos p + t - 1) with ((53 + Zpos p - 1) + t) by lia.
      rewrite (pow2_split (53 + Zpos p - 1) t), (pow2_split (53 + Zpos p) t) by lia.
      pose proof (pow2_pos t Ht). nia. }
    rewrite HD. destruct (Z.leb_spec (53 + Zpos p + t) 53); [lia|].
    replace (53 + Zpos p + t - 53) with (Zpos p + t) by lia.
    rewrite (up_bits (Zpos m) (Zpos p) t) by lia.
    rewrite scaled_div by lia. reflexivity. }
  rewrite Hrnd.
  (* the code *)
  unfold binary_round_aux, shr_fexp. cbn [Zdigits2 shr_record_of_loc].
  rewrite Hd, fexp_eq.
  replace (Z.max (53 + Zpos p + e - 53) (-1074) - e) with (Zpos p) by lia.
  rewrite shr_pos by lia. cbn [shr_m]. rewrite rne_bits.
  fold q. fold up. fold q'.
  destruct (Z.eq_dec q' (2 ^ 53)) as [Ecarry|Ncarry].
  - rewrite Ecarry.
    replace (Zdigits2 (2 ^ 53)) with 54 by reflexivity. rewrite fexp_eq.
    replace (Z.max (54 + (e + Zpos p) - 53) (-1074) - (e + Zpos p)) with 1 by lia.
    cbn [shr iter_pos]. rewrite shr_1_spec by (apply Z.pow_nonneg; lia). cbn [shr_m].
    change (2 ^ 53 / 2) with (Zpos (2 ^ 52)).
    replace (2 ^ 53 * 2 ^ (Zpos p + t)) with (Zpos (2 ^ 52) * 2 ^ (e + Zpos p + 1 + 1074)).
    2:{ replace (e + Zpos p + 1 + 1074) with (1 + (Zpos p + t)) by (unfold t; lia).
        rewrite (pow2_split 1) by lia.
        change (2 ^ 53) with 9007199254740992. change (2 ^ 1) with 2.
        change (Zpos (2 ^ 52)) with 4503599627370496. ring. }
    apply (packed_value s (2 ^ 52)%positive (e + Zpos p + 1)); [lia|].
    rewrite fexp_eq. replace (Zpos (digits2_pos (2 ^ 52))) with 53 by reflexivity. lia.
  - destruct q' as [|mq|mq] eqn:Eq'; [lia| |lia].
    assert (Hdq : Zpos (digits2_pos mq) = 53).
    { rewrite digits2_log2. apply log2_unique'; lia. }
    cbn [Zdigits2]. rewrite Hdq, fexp_eq.
    replace (Z.max (53 + (e + Zpos p) - 53) (-1074) - (e + Zpos p)) with 0 by lia.
    cbn [shr shr_m].
    replace (Zpos p + t) with (e + Zpos p + 1074) by (unfold t; lia).
    apply (packed_value s mq (e + Zpos p)); [lia|].
    rewrite Hdq, fexp_eq. lia.
Qed.

Lemma binary_round_value s m e : -1074 <= e ->
  represents s (rnd_pos (Zpos m * 2 ^ (e + 1074))) (binary_round prec emax s m e).
Proof.
  intros He. unfold binary_round, shl_align. rewrite fexp_eq.
  pose proof (digits2_bounds m) as Hb.
  set (d := Zpos (digits2_pos m)) in *.
  assert (Hd0 : 0 < d) by (unfold d; lia).
  destruct (Z.max (d + e - 53) (-1074) - e) as [|pp|dd] eqn:Hsh.
  - assert (Hc : fexp prec emax (Zpos (digits2_pos m) + e) = e) by (rewrite fexp_eq; fold d; lia).
    rewrite round_aux_fits, rnd_pos_fits by assumption.
    apply packed_value; assumption.
  - apply (round_aux_shifts s m e pp); [fold d|]; lia.
  - set (e' := Z.max (d + e - 53) (-1074)) in *.
    assert (Hdd : Zpos dd = e - e') by lia.
    assert (He' : -1074 <= e' /\ d + e - 53 <= e') by (unfold e'; lia).
    assert (He'' : e' = Z.max (d + e - 53) (-1074)) by reflexivity.
    assert (Hm : Zpos (Pos.iter xO m dd) * 2 ^ (e' + 1074) = Zpos m * 2 ^ (e + 1074)).
    { rewrite iter_xO. replace (e + 1074) with (Zpos dd + (e' + 1074)) by lia.
      rewrite (pow2_split (Zpos dd)) by lia. ring. }
    assert (Hc : fexp prec emax (Zpos (digits2_pos (Pos.iter xO m dd)) + e') = e').
    { rewrite fexp_eq.
      replace (Zpos (digits2_pos (Pos.iter xO m dd))) with (d + Zpos dd); [lia|].
      symmetry. rewrite digits2_log2. apply log2_unique'; [lia|].
      rewrite iter_xO. replace (d + Zpos dd - 1) with ((d - 1) + Zpos dd) by lia.
      rewrite !pow2_split by lia. pose proof (pow2_pos (Zpos dd)). nia. }
    rewrite round_aux_fits, <- Hm, rnd_pos_fits by (assumption || lia).
    apply packed_value; [lia|assumption].
Qed.

(** *** Values of valid numbers *)

Lemma valid_finite s m e : valid (S754_finite s m e) = true ->
  -1074 <= e /\ fexp prec emax (Zpos (digits2_pos m) + e) = e /\
  0 < Zpos m * 2 ^ (e + 1074) < top.
Proof.
  unfold valid, valid_binary, bounded, canonical_mantissa. intros H.
  apply andb_true_iff in H. destruct H as [Hc Hb].
  apply Z.eqb_eq in Hc. apply Z.leb_le in Hb. change (emax - prec) with 971 in Hb.
  pose proof Hc as Hc'. rewrite fexp_eq in Hc'.
  pose proof (digits2_bounds m) as Hd.
  set (d := Zpos (digits2_pos m)) in *.
  assert (Hd0 : 0 < d) by (unfold d; lia).
  assert (He : -1074 <= e) by lia.
  assert (HT : 0 < 2 ^ (e + 1074)) by (apply pow2_pos; lia).
  repeat split; try lia; try assumption.
  rewrite top_eq.
  assert (2 ^ d <= 2 ^ 53) by (apply pow2_le; lia).
  assert (2 ^ (e + 1074) <= 2 ^ 2045) by (apply pow2_le; lia).
  nia.
Qed.

(** Between canonical mantissas the exponent decides. *)
Lemma finite_lt m1 e1 m2 e2 s1 s2 :
  valid (S754_finite s1 m1 e1) = true -> valid (S754_finite s2 m2 e2) = true ->
  e1 < e2 -> Zpos m1 * 2 ^ (e1 + 1074) < Zpos m2 * 2 ^ (e2 + 1074).
Proof.
  intros H1 H2 Hlt.
  destruct (valid_finite _ _ _ H1) as (He1 & Hc1 & _).
  destruct (valid_finite _ _ _ H2) as (He2 & Hc2 & _).
  rewrite fexp_eq in Hc1, Hc2.
  pose proof (digits2_bounds m1) as Hd1. pose proof (digits2_bounds m2) as Hd2.
  set (d1 := Zpos (digits2_pos m1)) in *. set (d2 := Zpos (digits2_pos m2)) in *.
  assert (d2 = 53) by lia. assert (d1 <= 53) by lia.
  assert (Zpos m1 < 2 ^ 53).
  { assert (2 ^ d1 <= 2 ^ 53) by (apply pow2_le; lia). lia. }
  assert (2 ^ 52 <= Zpos m2) by (replace 52 with (d2 - 1) by lia; lia).
  assert (2 * 2 ^ (e1 + 1074) <= 2 ^ (e2 + 1074)).
  { replace (e2 + 1074) with (1 + (e2 - e1 - 1) + (e1 + 1074)) by lia.
    rewrite (pow2_split (1 + (e2 - e1 - 1))), (pow2_split 1) by lia. change (2 ^ 1) with 2.
    assert (0 < 2 ^ (e2 - e1 - 1)) by (apply pow2_pos; lia).
    assert (0 < 2 ^ (e1 + 1074)) by (apply pow2_pos; lia). nia. }
  change (2 ^ 53) with (2 * 2 ^ 52) in *.
  assert (0 < 2 ^ (e1 + 1074)) by (apply pow2_pos; lia). nia.
Qed.

Lemma top_pos : 0 < top.
Proof. reflexivity. Qed.

Lemma compare_sval x y : valid x = true -> valid y = true ->
  isNaN x = false -> isNaN y = false ->
  SFcompare x y = Some (sval x ?= sval y).
Proof.
  intros Hx Hy Nx Ny. pose proof top_pos.
  destruct x as [sx|sx| |sx mx ex], y as [sy|sy| |sy my ey]; try discriminate;
    try (destruct (valid_finite _ _ _ Hx) as (? & ? & ?));
    try (destruct (valid_finite _ _ _ Hy) as (? & ? & ?));
    cbn [SFcompare sval]; f_equal; symmetry;
    try destruct sx; try destruct sy;
    try (apply Z.compare_eq_iff; lia);
    try (apply Z.compare_lt_iff; lia);
    try (apply Z.compare_gt_iff; lia).
  - (* both negative *)
    destruct (Z.compare_spec ex ey) as [E|L|G].
    + subst ey. change (Pos.compare_cont Eq mx my) with (Pos.compare mx my).
      rewrite Z.compare_opp, <- Zmult_compare_compat_r by lia.
      apply Pos.compare_antisym.
    + pose proof (finite_lt _ _ _ _ _ _ Hx Hy L). apply Z.compare_gt_iff. lia.
    + pose proof (finite_lt _ _ _ _ _ _ Hy Hx G). apply Z.compare_lt_iff. lia.
  - destruct (Z.compare_spec ex ey) as [E|L|G].
    + subst ey. change (Pos.compare_cont Eq mx my) with (Pos.compare mx my).
      rewrite <- Zmult_compare_compat_r by lia. reflexivity.
    + pose proof (finite_lt _ _ _ _ _ _ Hx Hy L). apply Z.compare_lt_iff. lia.
    + pose proof (finite_lt _ _ _ _ _ _ Hy Hx G). apply Z.compare_gt_iff. lia.
Qed.

(** *** The rounding is monotone *)

Lemma log2_bounds V : 0 < V -> 2 ^ (Z.log2 V + 1 - 1) <= V < 2 ^ (Z.log2 V + 1).
Proof.
  intros HV. replace (Z.log2 V + 1 - 1) with (Z.log2 V) by lia.
  apply Z.log2_spec. assumption.
Qed.

Lemma rounded_bounds V k : 0 < k -> 2 ^ (52 + k) <= V < 2 ^ (53 + k) ->
  2 ^ 52 <= rounded V k <= 2 ^ 53.
Proof.
  intros Hk HV. rewrite !pow2_split in HV by lia.
  assert (HK : 0 < 2 ^ k) by (apply pow2_pos; lia).
  assert (2 ^ 52 <= V / 2 ^ k < 2 ^ 53).
  { split; [apply Z.div_le_lower_bound|apply Z.div_lt_upper_bound]; lia. }
  unfold rounded.
  destruct ((2 ^ (k - 1) <? V mod 2 ^ k) || _); lia.
Qed.

Lemma rounded_mono V1 V2 k : 0 < k -> 0 <= V1 <= V2 -> rounded V1 k <= rounded V2 k.
Proof.
  intros Hk HV.
  assert (HK : 0 < 2 ^ k) by (apply pow2_pos; lia).
  pose proof (Z.div_mod V1 (2 ^ k)) as E1. pose proof (Z.div_mod V2 (2 ^ k)) as E2.
  pose proof (Z.mod_pos_bound V1 (2 ^ k) HK) as B1.
  pose proof (Z.mod_pos_bound V2 (2 ^ k) HK) as B2.
  assert (Hq : V1 / 2 ^ k <= V2 / 2 ^ k) by (apply Z.div_le_mono; lia).
  unfold rounded.
  set (q1 := V1 / 2 ^ k) in *. set (q2 := V2 / 2 ^ k) in *.
  set (r1 := V1 mod 2 ^ k) in *. set (r2 := V2 mod 2 ^ k) in *.
  set (h := 2 ^ (k - 1)). set (K := 2 ^ k) in *.
  destruct (Z.eq_dec q1 q2) as [E|N].
  - assert (r1 <= r2) by nia. rewrite <- E.
    destruct (Z.ltb_spec h r1), (Z.ltb_spec h r2), (Z.eqb_spec h r1), (Z.eqb_spec h r2),
      (Z.odd q1); cbn [orb andb]; lia.
  - destruct ((h <? r1) || _), ((h <? r2) || _); lia.
Qed.

Lemma rnd_pos_bounds V : 0 < V ->
  Z.min top (2 ^ (Z.log2 V + 1 - 1)) <= rnd_pos V <= Z.min top (2 ^ (Z.log2 V + 1)).
Proof.
  intros HV. pose proof (log2_bounds V HV) as HB.
  pose proof (Z.log2_nonneg V) as HL.
  unfold rnd_pos. set (D := Z.log2 V + 1) in *.
  destruct (Z.leb_spec D 53) as [Hle|Hgt].
  - assert (V < top).
    { rewrite top_eq. assert (2 ^ D <= 2 ^ 53) by (apply pow2_le; lia).
      assert (0 < 2 ^ 2045) by (apply pow2_pos; lia). nia. }
    lia.
  - assert (HR : 2 ^ 52 <= rounded V (D - 53) <= 2 ^ 53).
    { apply rounded_bounds; [lia|].
      replace (52 + (D - 53)) with (D - 1) by lia.
      replace (53 + (D - 53)) with D by lia. assumption. }
    assert (HK : 0 < 2 ^ (D - 53)) by (apply pow2_pos; lia).
    assert (E1 : 2 ^ (D - 1) = 2 ^ 52 * 2 ^ (D - 53)).
    { rewrite <- pow2_split by lia. f_equal. lia. }
    assert (E2 : 2 ^ D = 2 ^ 53 * 2 ^ (D - 53)).
    { rewrite <- pow2_split by lia. f_equal. lia. }
    rewrite E1, E2. split; apply Z.min_le_compat_l; nia.
Qed.

Lemma rnd_pos_positive V : 0 < V -> 0 < rnd_pos V.
Proof.
  intros HV. pose proof (rnd_pos_bounds V HV) as [H _].
  pose proof (Z.log2_nonneg V).
  assert (0 < 2 ^ (Z.log2 V + 1 - 1)) by (apply pow2_pos; lia).
  pose proof top_pos. lia.
Qed.

Lemma rnd_pos_mono V1 V2 : 0 < V1 <= V2 -> rnd_pos V1 <= rnd_pos V2.
Proof.
  intros HV.
  assert (HD : Z.log2 V1 <= Z.log2 V2) by (apply Z.log2_le_mono; lia).
  destruct (Z.eq_dec (Z.log2 V1) (Z.log2 V2)) as [E|N].
  - unfold rnd_pos. rewrite E.
    destruct (Z.leb_spec (Z.log2 V2 + 1) 53); [lia|].
    apply Z.min_le_compat_l. apply Z.mul_le_mono_nonneg_r.
    + apply Z.pow_nonneg; lia.
    + apply rounded_mono; lia.
  - pose proof (rnd_pos_bounds V1) as [_ H1]; [lia|].
    pose proof (rnd_pos_bounds V2) as [H2 _]; [lia|].
    assert (2 ^ (Z.log2 V1 + 1) <= 2 ^ (Z.log2 V2 + 1 - 1)) by (apply pow2_le; lia).
    lia.
Qed.

Lemma rnd_of_pos V : 0 < V -> rnd V = rnd_pos V.
Proof. destruct V; try lia. reflexivity. Qed.

Lemma rnd_of_neg V : V < 0 -> rnd V = - rnd_pos (- V).
Proof. destruct V; try lia. reflexivity. Qed.

Lemma rnd_mono V1 V2 : V1 <= V2 -> rnd V1 <= rnd V2.
Proof.
  intros H.
  destruct (Z.lt_trichotomy V1 0) as [N1|[Z1|P1]], (Z.lt_trichotomy V2 0) as [N2|[Z2|P2]];
    try lia; subst;
    rewrite ?(rnd_of_pos V1), ?(rnd_of_pos V2), ?(rnd_of_neg V1), ?(rnd_of_neg V2) by lia;
    cbn [rnd];
    try (pose proof (rnd_pos_positive (- V1)));
    try (pose proof (rnd_pos_positive V1));
    try (pose proof (rnd_pos_positive (- V2)));
    try (pose proof (rnd_pos_positive V2));
    try lia.
  - pose proof (rnd_pos_mono (- V2) (- V1)). lia.
  - apply rnd_pos_mono. lia.
Qed.

Lemma rnd_valid x : valid x = true -> is_finite x = true -> rnd (sval x) = sval x.
Proof.
  intros Hv Hf. destruct x as [s|s| |s m e]; try discriminate; [reflexivity|].
  destruct (valid_finite _ _ _ Hv) as (He & Hc & Hb).
  pose proof (rnd_pos_fits m e He Hc) as Hr. rewrite Z.min_r in Hr by lia.
  cbn [sval]. destruct s.
  - rewrite rnd_of_neg by lia. rewrite Z.opp_involutive, Hr. reflexivity.
  - rewrite rnd_of_pos by lia. exact Hr.
Qed.

Lemma shl_align_value mx ex ez : -1074 <= ez -> ez <= ex ->
  Zpos (fst (shl_align mx ex ez)) * 2 ^ (ez + 1074) = Zpos mx * 2 ^ (ex + 1074).
Proof.
  intros H1 H2. unfold shl_align.
  destruct (ez - ex) as [|d|d] eqn:E; cbn [fst]; try lia.
  - replace ex with ez by lia. reflexivity.
  - rewrite iter_xO. replace (ex + 1074) with (Zpos d + (ez + 1074)) by lia.
    rewrite (pow2_split (Zpos d)) by lia. ring.
Qed.

Lemma represents_value s v r : represents s v r -> 0 < v ->
  valid r = true /\ isNaN r = false /\ sval r = signed s v.
Proof.
  intros (Hv & Hs & Hshape) _. repeat split; try assumption.
  destruct r; try reflexivity. contradiction.
Qed.

Lemma sval_finite s m e : sval (S754_finite s m e) = signed s (Zpos m * 2 ^ (e + 1074)).
Proof. destruct s; reflexivity. Qed.

Lemma signed_mul s a b : signed s a * b = signed s (a * b).
Proof. destruct s; cbn; lia. Qed.

(** The sum of two finite numbers is the rounding of the exact sum. *)
Lemma add_value x y :
  valid x = true -> valid y = true -> is_finite x = true -> is_finite y = true ->
  valid (add x y) = true /\ isNaN (add x y) = false /\
  sval (add x y) = rnd (sval x + sval y).
Proof.
  intros Vx Vy Fx Fy.
  destruct x as [sx|sx| |sx mx ex], y as [sy|sy| |sy my ey]; try discriminate.
  - destruct sx, sy; repeat split.
  - cbn [add SFadd]. rewrite Z.add_0_l, rnd_valid by assumption. repeat split. assumption.
  - cbn [add SFadd]. cbn [sval]. rewrite Z.add_0_r.
    change (rnd (if sx then _ else _)) with (rnd (sval (S754_finite sx mx ex))).
    rewrite rnd_valid by assumption. repeat split. assumption.
  - destruct (valid_finite _ _ _ Vx) as (Hex & _ & _).
    destruct (valid_finite _ _ _ Vy) as (Hey & _ & _).
    unfold add, SFadd. cbv zeta. change cond_Zopp with signed. rewrite !sval_finite.
    set (ez := Z.min ex ey).
    assert (Hez : -1074 <= ez) by (unfold ez; lia).
    assert (HX := shl_align_value mx ex ez Hez ltac:(unfold ez; lia)).
    assert (HY := shl_align_value my ey ez Hez ltac:(unfold ez; lia)).
    rewrite <- HX, <- HY, <- !signed_mul, <- Z.mul_add_distr_r.
    set (M := signed sx _ + signed sy _).
    assert (HT : 0 < 2 ^ (ez + 1074)) by (apply pow2_pos; lia).
    unfold binary_normalize. destruct M as [|p|p] eqn:EM.
    + rewrite Z.mul_0_l. repeat split.
    + rewrite rnd_of_pos by lia.
      apply (represents_value false). 
      * apply binary_round_value. assumption.
      * apply rnd_pos_positive. lia.
    + rewrite rnd_of_neg by lia.
      replace (- (Z.neg p * 2 ^ (ez + 1074))) with (Zpos p * 2 ^ (ez + 1074)) by lia.
      apply (represents_value true).
      * apply binary_round_value. assumption.
      * apply rnd_pos_positive. lia.
Qed.

Lemma le_sval x y : valid x = true -> valid y = true ->
  isNaN x = false -> isNaN y = false ->
  le x y = (sval x <=? sval y)%Z.
Proof.
  intros. unfold le, SFleb. rewrite compare_sval by assumption.
  unfold Z.leb. destruct (sval x ?= sval y); reflexivity.
Qed.

Lemma le_not_nan x y : le x y = true -> isNaN x = false /\ isNaN y = false.
Proof. destruct x, y; cbn; intros; try discriminate; split; reflexivity. Qed.

Lemma sval_bounds x : valid x = true -> - top <= sval x <= top.
Proof.
  intros Hv. pose proof top_pos.
  destruct x as [s|s| |s m e]; cbn [sval]; try lia; try (destruct s; lia).
  destruct (valid_finite _ _ _ Hv) as (_ & _ & ?). destruct s; lia.
Qed.

Lemma add_comm x y : add x y = add y x.
Proof.
  unfold add, SFadd.
  destruct x as [sx|sx| |sx mx ex], y as [sy|sy| |sy my ey];
    try destruct sx; try destruct sy; try reflexivity;
    cbv zeta; rewrite (Z.min_comm ey ex), Z.add_comm; reflexivity.
Qed.

(** Adding the same number on the right keeps the order, up to the sums
    that are not numbers. *)
Theorem add_mono_l x y s :
  valid x = true -> valid y = true -> valid s = true -> le x y = true ->
  sum_le (add x s) (add y s).
Proof.
  unfold sum_le.
  intros Vx Vy Vs Hle.
  destruct (le_not_nan _ _ Hle) as [Nx Ny].
  rewrite le_sval in Hle by assumption. apply Z.leb_le in Hle.
  destruct (is_finite x) eqn:Fx, (is_finite y) eqn:Fy, (is_finite s) eqn:Fs.
  - destruct (add_value x s) as (V1 & N1 & S1); try assumption.
    destruct (add_value y s) as (V2 & N2 & S2); try assumption.
    left. repeat split; try assumption.
    rewrite le_sval by assumption. apply Z.leb_le. rewrite S1, S2.
    apply rnd_mono. lia.
  - destruct s as [ss|ss| |ss ms es]; try discriminate.
    + destruct x as [sx|sx| |sx mx ex], y as [sy|sy| |sy my ey]; try discriminate;
        left; repeat split; destruct ss; reflexivity.
    + right; left. destruct x; reflexivity.
  - (* y infinite *)
    destruct y as [sy|sy| |sy my ey]; try discriminate.
    destruct sy.
    + exfalso. pose proof top_pos. cbn [sval] in Hle.
      destruct x as [sx|sx| |sx mx ex]; try discriminate; cbn [sval] in Hle; try lia.
      destruct (valid_finite _ _ _ Vx) as (_ & _ & ?). destruct sx; lia.
    + destruct (add_value x s) as (V1 & N1 & S1); try assumption.
      left.
      assert (E : add (S754_infinity false) s = S754_infinity false)
        by (destruct s; try discriminate; reflexivity).
      rewrite E. repeat split; try assumption.
      rewrite le_sval by (assumption || reflexivity). apply Z.leb_le.
      apply sval_bounds. assumption.
  - destruct y as [sy|sy| |sy my ey]; try discriminate.
    destruct s as [ss|ss| |ss ms es]; try discriminate.
    + destruct sy.
      * exfalso. pose proof top_pos. cbn [sval] in Hle.
        destruct x as [sx|sx| |sx mx ex]; try discriminate; cbn [sval] in Hle; try lia.
        destruct (valid_finite _ _ _ Vx) as (_ & _ & ?). destruct sx; lia.
      * destruct ss.
        -- right; right. split; [reflexivity|]. destruct x; try discriminate; reflexivity.
        -- left. destruct x; try discriminate; repeat split.
    + right; left. destruct x; reflexivity.
  - (* x infinite *)
    destruct x as [sx|sx| |sx mx ex]; try discriminate.
    destruct sx.
    + destruct (add_value y s) as (V2 & N2 & S2); try assumption.
      left.
      assert (E : add (S754_infinity true) s = S754_infinity true)
        by (destruct s; try discriminate; reflexivity).
      rewrite E. repeat split; try assumption.
      rewrite le_sval by (assumption || reflexivity). apply Z.leb_le.
      apply sval_bounds. assumption.
    + exfalso. pose proof top_pos. cbn [sval] in Hle.
      destruct y as [sy|sy| |sy my ey]; try discriminate; cbn [sval] in Hle; try lia.
      destruct (valid_finite _ _ _ Vy) as (_ & _ & ?). destruct sy; lia.
  - destruct x as [sx|sx| |sx mx ex]; try discriminate.
    destruct s as [ss|ss| |ss ms es]; try discriminate.
    + destruct sx.
      * destruct ss.
        -- left. destruct y; try discriminate; repeat split.
        -- right; left. reflexivity.
      * exfalso. pose proof top_pos. cbn [sval] in Hle.
        destruct y as [sy|sy| |sy my ey]; try discriminate; cbn [sval] in Hle; try lia.
        destruct (valid_finite _ _ _ Vy) as (_ & _ & ?). destruct sy; lia.
    + right; left. reflexivity.
  - destruct x as [sx|sx| |sx mx ex], y as [sy|sy| |sy my ey]; try discriminate.
    pose proof top_pos.
    destruct sx, sy; cbn [sval] in Hle; try lia;
      left; destruct s; try discriminate; repeat split.
  - destruct x as [sx|sx| |sx mx ex], y as [sy|sy| |sy my ey]; try discriminate.
    pose proof top_pos.
    destruct s as [ss|ss| |ss ms es]; try discriminate.
    + destruct sx, sy, ss; cbn [sval] in Hle; try lia;
        try (left; repeat split; fail);
        try (right; left; reflexivity);
        try (right; right; split; reflexivity).
    + right; left. reflexivity.
Qed.

Lemma add_valid x y : valid x = true -> valid y = true -> valid (x +! y) = true.
Proof.
  intros Vx Vy.
  destruct (is_finite x) eqn:Fx, (is_finite y) eqn:Fy.
  - apply add_value; assumption.
  - destruct x as [sx|sx| |sx mx ex], y as [sy|sy| |sy my ey]; try discriminate; reflexivity.
  - destruct x as [sx|sx| |sx mx ex], y as [sy|sy| |sy my ey]; try discriminate; reflexivity.
  - destruct x as [sx|sx| |sx mx ex], y as [sy|sy| |sy my ey]; try discriminate;
      try destruct sx; try destruct sy; reflexivity.
Qed.

(** ** Ladders of thresholds *)

Lemma ge_mono x y c : (x <=? y) = true -> (x >=? c) = true -> (y >=? c) = true.
Proof. unfold JS.ge, JS.le. intros H1 H2. exact (SFleb_trans c x y H2 H1). Qed.

Lemma le_mono x y c : (x <=? y) = true -> (y <=? c) = true -> (x <=? c) = true.
Proof. unfold JS.le. intros H1 H2. exact (SFleb_trans x y c H1 H2). Qed.

Lemma gt_mono x y c : (x <=? y) = true -> (x >? c) = true -> (y >? c) = true.
Proof.
  unfold JS.gt, JS.le, SFltb, SFleb, SFcompare.
  destruct c as [sa|sa| |sa ma ea], x as [sb|sb| |sb mb eb], y as [sc|sc| |sc mc ec];
    try destruct sa; try destruct sb; try destruct sc; simpl;
    try congruence;
    repeat match goal with
    | |- context [Z.compare ?x ?y] => destruct (Z.compare_spec x y); simpl
    end;
    try congruence; try lia; subst;
    change (Pos.compare_cont Eq) with Pos.compare;
    repeat match goal with
    | |- context [Pos.compare ?x ?y] => destruct (Pos.compare_spec x y); simpl
    end;
    try congruence; try lia.
Qed.

Lemma ge_nan c : (S754_nan >=? c) = false.
Proof. destruct c; reflexivity. Qed.

(** Splits the ladders under the assumption [Hle : (x <=? y) = true]: what
    [x] reaches, [y] reaches. *)
Ltac ladders x y Hle :=
  repeat match goal with
  | |- context [x >=? ?c] =>
      let E := fresh "E" in
      destruct (x >=? c) eqn:E; [rewrite (ge_mono x y c Hle E)|]
  | |- context [x >? ?c] =>
      let E := fresh "E" in
      destruct (x >? c) eqn:E; [rewrite (gt_mono x y c Hle E)|]
  | |- context [y <=? ?c] =>
      let E := fresh "E" in
      destruct (y <=? c) eqn:E; [rewrite (le_mono x y c Hle E)|]
  end.

(** Decides the comparisons of [NaN] and [-Infinity] with a literal. *)
Ltac extremes :=
  repeat match goal with
  | |- context [S754_nan >=? ?c] => rewrite (ge_nan c)
  | |- context [S754_infinity true >=? # ?z] =>
      let v := eval vm_compute in (S754_infinity true >=? #z) in
      change (S754_infinity true >=? #z) with v
  end.

Ltac branches :=
  repeat match goal with
  | |- context [if ?b then _ else _] => destruct b
  end.

Ltac monotone x y Hle := ladders x y Hle; cbv iota; branches; lia.

(** The same for two sums [a] and [b] with [H : sum_le a b]. *)
Ltac monotone_sum a b H :=
  let Hab := fresh "Hab" in
  let Ea := fresh "Ea" in let Eb := fresh "Eb" in
  destruct H as [(_ & _ & Hab)|[Ea|[Eb Ea]]];
  [ monotone a b Hab
  | rewrite Ea; extremes; cbv iota; branches; lia
  | rewrite Ea, Eb; extremes; cbv iota; branches; lia ].

Lemma sum_le_add a b m : valid m = true -> sum_le a b -> sum_le (a +! m) (b +! m).
Proof.
  intros Vm [(Va & Vb & Hab)|[Ea|[Eb Ea]]].
  - apply add_mono_l; assumption.
  - right; left. rewrite Ea. reflexivity.
  - rewrite Ea, Eb. destruct m as [sm|sm| |sm mm em]; try destruct sm;
      try (right; left; reflexivity); right; right; split; reflexivity.
Qed.

Section TierMonotone.

Variables x y : number.
Hypothesis Vx : valid x = true.
Hypothesis Vy : valid y = true.
Hypothesis Hle : (x <=? y) = true.

Lemma mono_NftCollections : calculateNftCollectionsPoints x <= calculateNftCollectionsPoints y.
Proof. unfold calculateNftCollectionsPoints. monotone x y Hle. Qed.

Lemma mono_tokenHoldingsTier : tokenHoldingsTier x <= tokenHoldingsTier y.
Proof.
  unfold tokenHoldingsTier. destruct (le_not_nan x y Hle) as [-> ->]. monotone x y Hle.
Qed.

Lemma mono_memeCoinsTier : memeCoinsTier x <= memeCoinsTier y.
Proof.
  unfold memeCoinsTier. destruct (le_not_nan x y Hle) as [-> ->]. monotone x y Hle.
Qed.

Lemma mono_WalletAge : calculateWalletAgePoints x <= calculateWalletAgePoints y.
Proof. unfold calculateWalletAgePoints. monotone x y Hle. Qed.

Lemma mono_TotalTx : calculateTotalTxPoints x <= calculateTotalTxPoints y.
Proof. unfold calculateTotalTxPoints. monotone x y Hle. Qed.

Lemma mono_BridgeVolume : getBridgeVolumeTierPoints x <= getBridgeVolumeTierPoints y.
Proof. unfold getBridgeVolumeTierPoints. monotone x y Hle. Qed.

Lemma mono_Gm : calculateGmPoints x <= calculateGmPoints y.
Proof. unfold calculateGmPoints. monotone x y Hle. Qed.

Lemma mono_TydroSupply : getTydroSupplyTierPoints x <= getTydroSupplyTierPoints y.
Proof. unfold getTydroSupplyTierPoints. monotone x y Hle. Qed.

Lemma mono_TydroBorrow : getTydroBorrowTierPoints x <= getTydroBorrowTierPoints y.
Proof. unfold getTydroBorrowTierPoints. monotone x y Hle. Qed.

Lemma mono_Swap : calculateSwapVolumePoints x <= calculateSwapVolumePoints y.
Proof. unfold calculateSwapVolumePoints. monotone x y Hle. Qed.

Lemma mono_InkyPump_created b c :
  calculateInkyPumpPoints x b c <= calculateInkyPumpPoints y b c.
Proof. unfold calculateInkyPumpPoints. cbv zeta. monotone x y Hle. Qed.

Lemma mono_InkyPump_buy a c : valid c = true ->
  calculateInkyPumpPoints a x c <= calculateInkyPumpPoints a y c.
Proof.
  intros Vc. unfold calculateInkyPumpPoints. cbv zeta.
  pose proof (add_mono_l x y c Vx Vy Vc Hle) as H.
  monotone_sum (x +! c) (y +! c) H.
Qed.

Lemma mono_InkyPump_sell a b : valid b = true ->
  calculateInkyPumpPoints a b x <= calculateInkyPumpPoints a b y.
Proof.
  intros Vb. unfold calculateInkyPumpPoints. cbv zeta.
  rewrite (add_comm b x), (add_comm b y).
  pose proof (add_mono_l x y b Vx Vy Vb Hle) as H.
  monotone_sum (x +! b) (y +! b) H.
Qed.

Lemma mono_Tydro_supply b : calculateTydroPoints x b <= calculateTydroPoints y b.
Proof.
  unfold calculateTydroPoints, getTydroSupplyTierPoints, getTydroBorrowTierPoints.
  cbv zeta. monotone x y Hle.
Qed.

Lemma mono_Tydro_borrow a : calculateTydroPoints a x <= calculateTydroPoints a y.
Proof.
  unfold calculateTydroPoints, getTydroSupplyTierPoints, getTydroBorrowTierPoints.
  cbv zeta. monotone x y Hle.
Qed.

Lemma mono_Shellies_played b c :
  calculateShelliesPoints x b c <= calculateShelliesPoints y b c.
Proof. unfold calculateShelliesPoints. cbv zeta. monotone x y Hle. Qed.

Lemma mono_Shellies_staked a c :
  calculateShelliesPoints a x c <= calculateShelliesPoints a y c.
Proof. unfold calculateShelliesPoints. cbv zeta. monotone x y Hle. Qed.

Lemma mono_Shellies_raffles a b :
  calculateShelliesPoints a b x <= calculateShelliesPoints a b y.
Proof. unfold calculateShelliesPoints. cbv zeta. monotone x y Hle. Qed.

Lemma mono_Zns_deploy b c : calculateZnsPoints x b c <= calculateZnsPoints y b c.
Proof. unfold calculateZnsPoints. cbv zeta. monotone x y Hle. Qed.

Lemma mono_Zns_gm a c : calculateZnsPoints a x c <= calculateZnsPoints a y c.
Proof. unfold calculateZnsPoints. cbv zeta. monotone x y Hle. Qed.

Lemma mono_Zns_register a b : calculateZnsPoints a b x <= calculateZnsPoints a b y.
Proof. unfold calculateZnsPoints. cbv zeta. monotone x y Hle. Qed.

Lemma mono_Marvk_card b c : calculateMarvkPoints x b c <= calculateMarvkPoints y b c.
Proof. unfold calculateMarvkPoints. cbv zeta. monotone x y Hle. Qed.

Lemma mono_Marvk_lock a c : calculateMarvkPoints a x c <= calculateMarvkPoints a y c.
Proof. unfold calculateMarvkPoints. cbv zeta. monotone x y Hle. Qed.

Lemma mono_Marvk_vest a b : calculateMarvkPoints a b x <= calculateMarvkPoints a b y.
Proof. unfold calculateMarvkPoints. cbv zeta. monotone x y Hle. Qed.

Lemma mono_Nado_deposits b : calculateNadoPoints x b <= calculateNadoPoints y b.
Proof. unfold calculateNadoPoints. cbv zeta. monotone x y Hle. Qed.

Lemma mono_Nado_volume a : calculateNadoPoints a x <= calculateNadoPoints a y.
Proof. unfold calculateNadoPoints. cbv zeta. monotone x y Hle. Qed.

Lemma mono_Copink_subaccounts b : calculateCopinkPoints x b <= calculateCopinkPoints y b.
Proof. unfold calculateCopinkPoints. cbv zeta. monotone x y Hle. Qed.

Lemma mono_Copink_volume a : calculateCopinkPoints a x <= calculateCopinkPoints a y.
Proof. unfold calculateCopinkPoints. cbv zeta. monotone x y Hle. Qed.

Lemma mono_Nft2me_collections b : calculateNft2mePoints x b <= calculateNft2mePoints y b.
Proof. unfold calculateNft2mePoints. cbv zeta. monotone x y Hle. Qed.

Lemma mono_Nft2me_minted a : calculateNft2mePoints a x <= calculateNft2mePoints a y.
Proof. unfold calculateNft2mePoints. cbv zeta. monotone x y Hle. Qed.

Lemma mono_NftTrading_squid b c : valid b = true -> valid c = true ->
  calculateNftTradingPoints x b c <= calculateNftTradingPoints y b c.
Proof.
  intros Vb Vc. unfold calculateNftTradingPoints. cbv zeta.
  pose proof (sum_le_add _ _ c Vc (add_mono_l x y b Vx Vy Vb Hle)) as H.
  ladders x y Hle; cbv iota; monotone_sum (x +! b +! c) (y +! b +! c) H.
Qed.

Lemma mono_NftTrading_netProtocol a c : valid a = true -> valid c = true ->
  calculateNftTradingPoints a x c <= calculateNftTradingPoints a y c.
Proof.
  intros Va Vc. unfold calculateNftTradingPoints. cbv zeta.
  rewrite (add_comm a x), (add_comm a y).
  pose proof (sum_le_add _ _ c Vc (add_mono_l x y a Vx Vy Va Hle)) as H.
  ladders x y Hle; cbv iota; monotone_sum (x +! a +! c) (y +! a +! c) H.
Qed.

Lemma mono_NftTrading_mintique a b : valid a = true -> valid b = true ->
  calculateNftTradingPoints a b x <= calculateNftTradingPoints a b y.
Proof.
  intros Va Vb. unfold calculateNftTradingPoints. cbv zeta.
  rewrite (add_comm (a +! b) x), (add_comm (a +! b) y).
  pose proof (add_mono_l x y (a +! b) Vx Vy (add_valid a b Va Vb) Hle) as H.
  ladders x y Hle; cbv iota; monotone_sum (x +! (a +! b)) (y +! (a +! b)) H.
Qed.

End TierMonotone.

(** ** Monotonicity of the tier resolvers *)

(** C6. Every tier resolver is monotone in each of its numeric arguments:
    for numbers [x <= y] (which excludes [NaN]) put at any one argument of
    any resolver, the other arguments [a] and [b] being the same on both
    sides, the points for [y] are at least the points for [x]; so are the
    two ladders of the token holdings in the USD total.  The numbers are
    binary64 values ([valid] holds of every number a program can hold). *)
Theorem tier_resolvers_monotone (x y a b : number) :
  valid x = true -> valid y = true -> valid a = true -> valid b = true ->
  (x <=? y) = true ->
  calculateNftCollectionsPoints x <= calculateNftCollectionsPoints y /\
  (tokenHoldingsTier x <= tokenHoldingsTier y /\
   memeCoinsTier x <= memeCoinsTier y) /\
  calculateWalletAgePoints x <= calculateWalletAgePoints y /\
  calculateTotalTxPoints x <= calculateTotalTxPoints y /\
  getBridgeVolumeTierPoints x <= getBridgeVolumeTierPoints y /\
  calculateBridgeInPoints x <= calculateBridgeInPoints y /\
  calculateBridgeOutPoints x <= calculateBridgeOutPoints y /\
  calculateGmPoints x <= calculateGmPoints y /\
  (calculateInkyPumpPoints x a b <= calculateInkyPumpPoints y a b /\
   calculateInkyPumpPoints a x b <= calculateInkyPumpPoints a y b /\
   calculateInkyPumpPoints a b x <= calculateInkyPumpPoints a b y) /\
  (getTydroSupplyTierPoints x <= getTydroSupplyTierPoints y /\
   getTydroBorrowTierPoints x <= getTydroBorrowTierPoints y /\
   calculateTydroPoints x a <= calculateTydroPoints y a /\
   calculateTydroPoints a x <= calculateTydroPoints a y) /\
  calculateSwapVolumePoints x <= calculateSwapVolumePoints y /\
  (calculateShelliesPoints x a b <= calculateShelliesPoints y a b /\
   calculateShelliesPoints a x b <= calculateShelliesPoints a y b /\
   calculateShelliesPoints a b x <= calculateShelliesPoints a b y) /\
  (calculateZnsPoints x a b <= calculateZnsPoints y a b /\
   calculateZnsPoints a x b <= calculateZnsPoints a y b /\
   calculateZnsPoints a b x <= calculateZnsPoints a b y) /\
  (calculateMarvkPoints x a b <= calculateMarvkPoints y a b /\
   calculateMarvkPoints a x b <= calculateMarvkPoints a y b /\
   calculateMarvkPoints a b x <= calculateMarvkPoints a b y) /\
  (calculateNadoPoints x a <= calculateNadoPoints y a /\
   calculateNadoPoints a x <= calculateNadoPoints a y) /\
  (calculateCopinkPoints x a <= calculateCopinkPoints y a /\
   calculateCopinkPoints a x <= calculateCopinkPoints a y) /\
  (calculateNft2mePoints x a <= calculateNft2mePoints y a /\
   calculateNft2mePoints a x <= calculateNft2mePoints a y) /\
  (calculateNftTradingPoints x a b <= calculateNftTradingPoints y a b /\
   calculateNftTradingPoints a x b <= calculateNftTradingPoints a y b /\
   calculateNftTradingPoints a b x <= calculateNftTradingPoints a b y).
Proof.
  intros Vx Vy Va Vb Hle.
  repeat match goal with |- _ /\ _ => split end.
  - apply mono_NftCollections; assumption.
  - apply mono_tokenHoldingsTier; assumption.
  - apply mono_memeCoinsTier; assumption.
  - apply mono_WalletAge; assumption.
  - apply mono_TotalTx; assumption.
  - apply mono_BridgeVolume; assumption.
  - apply mono_BridgeVolume; assumption.
  - apply mono_BridgeVolume; assumption.
  - apply mono_Gm; assumption.
  - apply mono_InkyPump_created; assumption.
  - apply mono_InkyPump_buy; assumption.
  - apply mono_InkyPump_sell; assumption.
  - apply mono_TydroSupply; assumption.
  - apply mono_TydroBorrow; assumption.
  - apply mono_Tydro_supply; assumption.
  - apply mono_Tydro_borrow; assumption.
  - apply mono_Swap; assumption.
  - apply mono_Shellies_played; assumption.
  - apply mono_Shellies_staked; assumption.
  - apply mono_Shellies_raffles; assumption.
  - apply mono_Zns_deploy; assumption.
  - apply mono_Zns_gm; assumption.
  - apply mono_Zns_register; assumption.
  - apply mono_Marvk_card; assumption.
  - apply mono_Marvk_lock; assumption.
  - apply mono_Marvk_vest; assumption.
  - apply mono_Nado_deposits; assumption.
  - apply mono_Nado_volume; assumption.
  - apply mono_Copink_subaccounts; assumption.
  - apply mono_Copink_volume; assumption.
  - apply mono_Nft2me_collections; assumption.
  - apply mono_Nft2me_minted; assumption.
  - apply mono_NftTrading_squid; assumption.
  - apply mono_NftTrading_netProtocol; assumption.
  - apply mono_NftTrading_mintique; assumption.
Qed.

Lemma tier_resolvers_monotone_witness :
  (#3 <=? #7) = true /\
  calculateNftCollectionsPoints #3 <= calculateNftCollectionsPoints #7 /\
  calculateInkyPumpPoints #2 #3 #40 <= calculateInkyPumpPoints #2 #7 #40 /\
  calculateNftTradingPoints #2 #40 #3 <= calculateNftTradingPoints #2 #40 #7.
Proof.
  pose proof (tier_resolvers_monotone #3 #7 #2 #40
                eq_refl eq_refl eq_refl eq_refl eq_refl) as H.
  split; [reflexivity|].
  split; [apply H|]. split; apply H.
Defined.

(** ** Inputs below the lowest tier *)

Lemma below_threshold x c :
  below_one x -> (#1 <=? c) = true -> (x >=? c) = false.
Proof.
  unfold below_one. intros Hx Hc.
  destruct (x >=? c) eqn:E; [|reflexivity].
  unfold JS.ge, JS.le in *. rewrite (SFleb_trans _ _ _ Hc E) in Hx. discriminate.
Qed.

Lemma not_positive_below x c :
  not_positive x -> (c >? #0) = true -> (x >=? c) = false.
Proof.
  unfold not_positive. intros Hx Hc.
  destruct (x >=? c) eqn:E; [|reflexivity].
  rewrite (gt_mono c x #0 E Hc) in Hx. discriminate.
Qed.

Lemma lt_sval x y : valid x = true -> valid y = true ->
  isNaN x = false -> isNaN y = false ->
  SFltb x y = (sval x <? sval y)%Z.
Proof.
  intros. unfold SFltb. rewrite compare_sval by assumption.
  unfold Z.ltb. destruct (sval x ?= sval y); reflexivity.
Qed.

Lemma not_positive_sval x : valid x = true -> isNaN x = false ->
  not_positive x -> sval x <= 0.
Proof.
  unfold not_positive, JS.gt. intros Vx Nx H.
  rewrite lt_sval in H by (assumption || reflexivity).
  apply Z.ltb_ge in H. exact H.
Qed.

Lemma not_positive_le x : valid x = true -> isNaN x = false ->
  not_positive x -> (x <=? #0) = true.
Proof.
  intros Vx Nx H. rewrite le_sval by (assumption || reflexivity).
  apply Z.leb_le. apply (not_positive_sval x Vx Nx H).
Qed.

(** A sum of numbers that are not positive is not positive. *)
Lemma add_not_positive x y : valid x = true -> valid y = true ->
  not_positive x -> not_positive y -> not_positive (x +! y).
Proof.
  intros Vx Vy Hx Hy.
  destruct (isNaN x) eqn:Nx; [destruct x; try discriminate; reflexivity|].
  destruct (isNaN y) eqn:Ny; [destruct y; try discriminate; destruct x; reflexivity|].
  pose proof (not_positive_sval x Vx Nx Hx) as Sx.
  pose proof (not_positive_sval y Vy Ny Hy) as Sy.
  pose proof top_pos.
  destruct (is_finite x) eqn:Fx, (is_finite y) eqn:Fy.
  - destruct (add_value x y Vx Vy Fx Fy) as (V & N & S).
    unfold not_positive, JS.gt. rewrite lt_sval by (assumption || reflexivity).
    apply Z.ltb_ge. rewrite S. change (sval #0) with (rnd 0). apply rnd_mono. lia.
  - destruct y as [sy|sy| |sy my ey]; try discriminate.
    destruct sy; [|cbn [sval] in Sy; lia].
    destruct x; try discriminate; reflexivity.
  - destruct x as [sx|sx| |sx mx ex]; try discriminate.
    destruct sx; [|cbn [sval] in Sx; lia].
    destruct y; try discriminate; reflexivity.
  - destruct x as [sx|sx| |sx mx ex], y as [sy|sy| |sy my ey]; try discriminate.
    destruct sx; [|cbn [sval] in Sx; lia].
    destruct sy; [|cbn [sval] in Sy; lia]. reflexivity.
Qed.

(** Sets every rung a low input cannot reach to [false]. *)
Ltac unreached :=
  repeat match goal with
  | H : below_one ?x |- context [?x >=? ?c] =>
      rewrite (below_threshold x c H eq_refl)
  | H : not_positive ?x |- context [?x >=? ?c] =>
      rewrite (not_positive_below x c H eq_refl)
  | H : not_positive ?x |- context [?x >? #0] =>
      rewrite (H : (x >? #0) = false)
  end.

(** C2, as the code has it.  A low input earns nothing in every ladder
    that is climbed with [>=] from a lowest rung of 1; the two ladders
    written with [<=] earn nothing for a negative number or zero, and for
    [NaN] once the caller's [|| 0] has made it 0; the sums of
    [calculateInkyPumpPoints] and [calculateNftTradingPoints] earn nothing
    when no summand is positive; and the volume ladder of
    [calculateNadoPoints], whose lowest rung is 0, earns nothing below zero
    and at [NaN] but 50 from zero on.  The resolvers are total functions:
    none can throw. *)
Theorem low_inputs_earn_nothing (x y z u v w : number) :
  below_one x -> below_one y -> below_one z ->
  valid u = true -> valid v = true -> valid w = true ->
  not_positive u -> not_positive v -> not_positive w ->
  calculateNftCollectionsPoints x = 0 /\
  tokenHoldingsTier x = 0 /\
  memeCoinsTier x = 0 /\
  getBridgeVolumeTierPoints x = 0 /\
  calculateBridgeInPoints x = 0 /\
  calculateBridgeOutPoints x = 0 /\
  calculateGmPoints x = 0 /\
  getTydroSupplyTierPoints x = 0 /\
  getTydroBorrowTierPoints x = 0 /\
  calculateTydroPoints x y = 0 /\
  calculateSwapVolumePoints x = 0 /\
  calculateShelliesPoints x y z = 0 /\
  calculateZnsPoints x y z = 0 /\
  calculateMarvkPoints x y z = 0 /\
  calculateCopinkPoints x y = 0 /\
  calculateNft2mePoints x y = 0 /\
  calculateInkyPumpPoints x u v = 0 /\
  calculateNftTradingPoints u v w = 0 /\
  (isNaN u = false -> calculateWalletAgePoints u = 0 /\ calculateTotalTxPoints u = 0) /\
  (calculateWalletAgePoints (or0 u) = 0 /\ calculateTotalTxPoints (or0 u) = 0) /\
  ((y >=? #0) = false -> calculateNadoPoints x y = 0) /\
  ((y >=? #0) = true -> calculateNadoPoints x y = 50).
Proof.
  intros Hx Hy Hz Vu Vv Vw Hu Hv Hw.
  pose proof (add_not_positive u v Vu Vv Hu Hv) as Huv.
  pose proof (add_not_positive _ w (add_valid u v Vu Vv) Vw Huv Hw) as Huvw.
  unfold calculateBridgeInPoints, calculateBridgeOutPoints, calculateTydroPoints,
    calculateNftCollectionsPoints, tokenHoldingsTier, memeCoinsTier,
    getBridgeVolumeTierPoints, calculateGmPoints, getTydroSupplyTierPoints,
    getTydroBorrowTierPoints, calculateSwapVolumePoints, calculateShelliesPoints,
    calculateZnsPoints, calculateMarvkPoints, calculateCopinkPoints,
    calculateNft2mePoints, calculateInkyPumpPoints, calculateNftTradingPoints,
    calculateNadoPoints.
  cbv zeta.
  repeat match goal with |- _ /\ _ => split end; unreached;
    try reflexivity; try (destruct (isNaN x); reflexivity).
  - intros H. unfold calculateWalletAgePoints, calculateTotalTxPoints.
    rewrite (not_positive_le u Vu H Hu). split; reflexivity.
  - unfold or0. destruct (truthy u) eqn:T; [|reflexivity].
    unfold calculateWalletAgePoints.
    rewrite (not_positive_le u Vu) by (destruct u; try discriminate; trivial).
    reflexivity.
  - unfold or0. destruct (truthy u) eqn:T; [|reflexivity].
    unfold calculateTotalTxPoints.
    rewrite (not_positive_le u Vu) by (destruct u; try discriminate; trivial).
    reflexivity.
  - intros H. rewrite H. reflexivity.
  - intros H. rewrite H. reflexivity.
Qed.

Lemma low_inputs_earn_nothing_witness :
  calculateGmPoints nan = 0 /\
  calculateShelliesPoints nan #(-3) #0 = 0 /\
  calculateNftTradingPoints #(-2) nan #0 = 0 /\
  calculateNadoPoints nan #(-3) = 0.
Proof.
  pose proof (low_inputs_earn_nothing nan #(-3) #0 #(-2) nan #0
                eq_refl eq_refl eq_refl eq_refl eq_refl eq_refl
                eq_refl eq_refl eq_refl) as H.
  repeat split; apply H; reflexivity.
Defined.

(** C2 as stated fails: [NaN] earns the top tier of the two ladders written
    with [<=], and a zero volume earns the lowest Nado tier. *)
Lemma low_inputs_counterexample :
  calculateWalletAgePoints nan = 600 /\
  calculateTotalTxPoints nan = 600 /\
  calculateNadoPoints #0 #0 = 50 /\
  calculateNadoPoints nan nan = 0.
Proof. repeat split. Qed.

(** ** Rank resolution *)

Lemma inRange_in_interval r P : inRange r P = true <-> in_interval r P.
Proof.
  unfold inRange, in_interval, JS.ge, JS.le. cbv zeta.
  destruct (max_points r) as [max|]; rewrite andb_true_iff; intuition.
Qed.

(** C4. [getRankForPoints] returns the first rank of the list whose
    interval contains the points (every rank before it does not), and no
    rank when no interval does.  This holds of every list, so also of the
    lists sorted by [min_points], and of every number, [NaN] included. *)
Theorem getRankForPoints_first_match (ranks : list Rank) (P : number) :
  match getRankForPoints ranks P with
  | Some r =>
      exists before after,
        ranks = before ++ r :: after /\
        in_interval r P /\
        forall r', In r' before -> ~ in_interval r' P
  | None => forall r, In r ranks -> ~ in_interval r P
  end.
Proof.
  induction ranks as [|rank rest IH]; cbn [getRankForPoints].
  - intros r [].
  - destruct (inRange rank P) eqn:E.
    + exists [], rest. split; [reflexivity|]. split.
      * apply inRange_in_interval. exact E.
      * intros r' [].
    + assert (N : ~ in_interval rank P).
      { intros H. apply inRange_in_interval in H. congruence. }
      destruct (getRankForPoints rest P) as [r|].
      * destruct IH as (before & after & -> & Hin & Hbefore).
        exists (rank :: before), after. split; [reflexivity|]. split; [exact Hin|].
        intros r' [<-|H]; [exact N|apply Hbefore; exact H].
      * intros r [<-|H]; [exact N|apply IH; exact H].
Qed.

(** ** The registry caches *)

Section RegistryFacts.

Variable env : Env.

Lemma has_app s t x : has (s ++ t) x = has s x || has t x.
Proof. unfold has. apply existsb_app. Qed.

Lemma has_setAdd s y x : has (setAdd s y) x = has s x || String.eqb x y.
Proof.
  unfold setAdd. destruct (has s y) eqn:E.
  - destruct (String.eqb_spec x y) as [->|]; [rewrite E|rewrite orb_false_r]; reflexivity.
  - rewrite has_app. cbn. rewrite orb_false_r. reflexivity.
Qed.

Lemma has_fold_setAdd l s x :
  has (fold_left setAdd l s) x = has s x || existsb (String.eqb x) l.
Proof.
  revert s. induction l as [|y l IH]; intros s; cbn [fold_left existsb].
  - rewrite orb_false_r. reflexivity.
  - rewrite IH, has_setAdd, orb_assoc. reflexivity.
Qed.

Lemma has_newSet l x : has (newSet l) x = true <-> In x l.
Proof.
  unfold newSet. rewrite has_fold_setAdd. cbn [has existsb orb].
  rewrite existsb_exists. split.
  - intros (y & Hy & E). apply String.eqb_eq in E. subst. exact Hy.
  - intros H. exists x. split; [exact H|apply String.eqb_refl].
Qed.

Lemma lower_char_idempotent c : lower_char (lower_char c) = lower_char c.
Proof. destruct c as [[] [] [] [] [] [] [] []]; reflexivity. Qed.

Lemma lower_upper_char c : lower_char (upper_char c) = lower_char c.
Proof. destruct c as [[] [] [] [] [] [] [] []]; reflexivity. Qed.

Lemma same_address_lower a : same_address (toLowerCase a) a.
Proof.
  unfold same_address. induction a as [|c a IH]; cbn; [reflexivity|].
  rewrite lower_char_idempotent, IH. reflexivity.
Qed.

Lemma same_address_upper a : same_address (toUpperCase a) a.
Proof.
  unfold same_address. induction a as [|c a IH]; cbn; [reflexivity|].
  rewrite lower_upper_char, IH. reflexivity.
Qed.

(** What a cold or stale cache does when the store answers or fails. *)
Lemma refreshMemeTokens_ok s coins :
  getMemeCoins env (memeQueries s) = Some coins ->
  let set := newSet (map (fun coin => toLowerCase (coin_address coin)) coins) in
  refreshMemeTokens env s =
  (Returned set,
   {| ranksCache := ranksCache s;
      memeTokensCache := Some {| addresses := set;
                                 meme_timestamp := clock env (clockReads s) |};
      clockReads := S (clockReads s); memeQueries := S (memeQueries s);
      rankQueries := rankQueries s |}).
Proof.
  intros H. unfold refreshMemeTokens, tryCatch, bind, assetsService_getMemeCoins.
  rewrite H. reflexivity.
Qed.

Lemma refreshMemeTokens_fail s :
  getMemeCoins env (memeQueries s) = None ->
  refreshMemeTokens env s =
  (Returned fallbackMemeTokens,
   {| ranksCache := ranksCache s; memeTokensCache := memeTokensCache s;
      clockReads := clockReads s; memeQueries := S (memeQueries s);
      rankQueries := rankQueries s |}).
Proof.
  intros H. unfold refreshMemeTokens, tryCatch, bind, assetsService_getMemeCoins.
  rewrite H. reflexivity.
Qed.

(** Stamping the rows never throws and touches only the clock. *)
Lemma mapM_parseRank rows s :
  exists rs,
    mapM (parseRank env) rows s =
    (Returned rs,
     {| ranksCache := ranksCache s; memeTokensCache := memeTokensCache s;
        clockReads := (2 * List.length rows + clockReads s)%nat;
        memeQueries := memeQueries s; rankQueries := rankQueries s |}) /\
    map name rs = map raw_name rows.
Proof.
  revert s. induction rows as [|r rows IH]; intros s.
  - exists []. destruct s; split; reflexivity.
  - cbn [mapM]. unfold bind at 1. unfold parseRank at 1. unfold bind, dateNow, ret.
    cbn [clockReads ranksCache memeTokensCache memeQueries rankQueries].
    match goal with |- context [mapM (parseRank env) rows ?s1] =>
      destruct (IH s1) as (rs & E & Hn); rewrite E end.
    cbn [clockReads ranksCache memeTokensCache memeQueries rankQueries].
    eexists. split.
    + f_equal. f_equal. cbn [List.length]. lia.
    + cbn [map name]. rewrite Hn. reflexivity.
Qed.

Lemma refreshRanks_fail s :
  queryRanks env (rankQueries s) = None ->
  refreshRanks env s =
  (Returned [],
   {| ranksCache := ranksCache s; memeTokensCache := memeTokensCache s;
      clockReads := clockReads s; memeQueries := memeQueries s;
      rankQueries := S (rankQueries s) |}).
Proof.
  intros H. unfold refreshRanks, tryCatch, bind, query_ranks.
  rewrite H. reflexivity.
Qed.

Lemma refreshRanks_ok s rows :
  queryRanks env (rankQueries s) = Some rows ->
  exists rs,
    refreshRanks env s =
    (Returned rs,
     {| ranksCache :=
          Some {| ranks := rs;
                  ranks_timestamp := clock env (2 * List.length rows + clockReads s)%nat |};
        memeTokensCache := memeTokensCache s;
        clockReads := S (2 * List.length rows + clockReads s);
        memeQueries := memeQueries s; rankQueries := S (rankQueries s) |}) /\
    map name rs = map raw_name rows.
Proof.
  intros H. unfold refreshRanks, tryCatch, bind at 1, query_ranks.
  rewrite H. unfold bind at 1.
  match goal with |- context [mapM (parseRank env) rows ?s1] =>
    destruct (mapM_parseRank rows s1) as (rs & E & Hn); rewrite E end.
  exists rs. split; [reflexivity|exact Hn].
Qed.

Lemma refreshRanks_queries s :
  rankQueries (snd (refreshRanks env s)) = S (rankQueries s) /\
  exists rs, fst (refreshRanks env s) = Returned rs.
Proof.
  destruct (queryRanks env (rankQueries s)) as [rows|] eqn:E.
  - destruct (refreshRanks_ok s rows E) as (rs & -> & _). split; [reflexivity|].
    exists rs. reflexivity.
  - rewrite (refreshRanks_fail s E). split; [reflexivity|]. exists []. reflexivity.
Qed.

Lemma refreshMemeTokens_queries s :
  memeQueries (snd (refreshMemeTokens env s)) = S (memeQueries s) /\
  ranksCache (snd (refreshMemeTokens env s)) = ranksCache s /\
  rankQueries (snd (refreshMemeTokens env s)) = rankQueries s /\
  (clockReads s <= clockReads (snd (refreshMemeTokens env s)))%nat /\
  exists set, fst (refreshMemeTokens env s) = Returned set.
Proof.
  destruct (getMemeCoins env (memeQueries s)) as [coins|] eqn:E.
  - rewrite (refreshMemeTokens_ok s coins E). cbn [snd fst clockReads].
    repeat split; [lia|]. eexists. reflexivity.
  - rewrite (refreshMemeTokens_fail s E). cbn [snd fst clockReads].
    repeat split; [lia|]. eexists. reflexivity.
Qed.

End RegistryFacts.

(** The state after one more reading of the clock. *)
Lemma getCachedRanks_cold env s :
  ranksCache s = None -> getCachedRanks env s = refreshRanks env s.
Proof.
  intros H. unfold getCachedRanks, bind, readRanksCache. rewrite H. reflexivity.
Qed.

Lemma getMemeTokenAddresses_cold env s :
  memeTokensCache s = None -> getMemeTokenAddresses env s = refreshMemeTokens env s.
Proof.
  intros H. unfold getMemeTokenAddresses, bind, readMemeTokensCache. rewrite H. reflexivity.
Qed.

Lemma getCachedRanks_warm env s c :
  ranksCache s = Some c ->
  getCachedRanks env s =
  if (clock env (clockReads s) - ranks_timestamp c <? RANKS_CACHE_TTL)%Z
  then (Returned (ranks c), snd (dateNow env s))
  else refreshRanks env (snd (dateNow env s)).
Proof.
  intros H. unfold getCachedRanks, bind, readRanksCache. rewrite H.
  cbn [dateNow snd]. unfold dateNow.
  destruct (clock env (clockReads s) - ranks_timestamp c <? RANKS_CACHE_TTL)%Z; reflexivity.
Qed.

Lemma getMemeTokenAddresses_warm env s c :
  memeTokensCache s = Some c ->
  getMemeTokenAddresses env s =
  if (clock env (clockReads s) - meme_timestamp c <? MEME_TOKENS_CACHE_TTL)%Z
  then (Returned (addresses c), snd (dateNow env s))
  else refreshMemeTokens env (snd (dateNow env s)).
Proof.
  intros H. unfold getMemeTokenAddresses, bind, readMemeTokensCache. rewrite H.
  cbn [dateNow snd]. unfold dateNow.
  destruct (clock env (clockReads s) - meme_timestamp c <? MEME_TOKENS_CACHE_TTL)%Z; reflexivity.
Qed.

Import Recorded.

(** ** One read of a registry *)

Section Reads.

Variable env : Env.

Lemma toLowerCase_idempotent a : toLowerCase (toLowerCase a) = toLowerCase a.
Proof. apply same_address_lower. Qed.

Lemma lowercaseSet_setAdd set a :
  lowercaseSet set -> toLowerCase a = a -> lowercaseSet (setAdd set a).
Proof.
  unfold lowercaseSet, setAdd. intros Hs Ha. destruct (has set a); [exact Hs|].
  apply Forall_app. split; [exact Hs|]. constructor; [exact Ha|constructor].
Qed.

Lemma lowercaseSet_fold l set :
  lowercaseSet set -> Forall (fun a => toLowerCase a = a) l ->
  lowercaseSet (fold_left setAdd l set).
Proof.
  revert set. induction l as [|a l IH]; intros set Hs Hl; cbn [fold_left]; [exact Hs|].
  inversion Hl; subst. apply IH; [apply lowercaseSet_setAdd|]; assumption.
Qed.

Lemma lowercaseSet_newSet (coins : list MemeCoin) :
  lowercaseSet (newSet (map (fun coin => toLowerCase (coin_address coin)) coins)).
Proof.
  apply lowercaseSet_fold; [constructor|].
  apply Forall_forall. intros a Ha. apply in_map_iff in Ha.
  destruct Ha as (coin & <- & _). apply toLowerCase_idempotent.
Qed.

Lemma lowercaseSet_fallback : lowercaseSet fallbackMemeTokens.
Proof. repeat constructor. Qed.

(** A read of the meme-token set returns; it leaves the rank cache alone,
    sends at most one query, and what it returns is what the cache holds
    afterwards, unless the query failed: then the fallback list comes
    back and the cache is left as it was. *)
Lemma getMemeTokenAddresses_facts s :
  exists set s',
    getMemeTokenAddresses env s = (Returned set, s') /\
    ranksCache s' = ranksCache s /\ rankQueries s' = rankQueries s /\
    (clockReads s <= clockReads s' <= clockReads s + 2)%nat /\
    (memeQueries s <= memeQueries s' <= S (memeQueries s))%nat /\
    ((exists c, memeTokensCache s' = Some c /\ addresses c = set /\
                (memeTokensCache s = Some c \/
                 meme_timestamp c = clock env (pred (clockReads s')) /\
                 memeQueries s' = S (memeQueries s))) \/
     (set = fallbackMemeTokens /\ memeTokensCache s' = memeTokensCache s /\
      memeQueries s' = S (memeQueries s) /\
      getMemeCoins env (memeQueries s) = None)) /\
    (memeCacheLowercase s -> lowercaseSet set /\ memeCacheLowercase s').
Proof.
  unfold memeCacheLowercase.
  destruct (memeTokensCache s) as [c|] eqn:E.
  - rewrite (getMemeTokenAddresses_warm env s c E).
    destruct (clock env (clockReads s) - meme_timestamp c <? MEME_TOKENS_CACHE_TTL)%Z.
    + eexists _, _. split; [reflexivity|].
      cbn [dateNow snd clockReads ranksCache rankQueries memeQueries memeTokensCache].
      rewrite E. repeat split; try lia.
      * left. exists c. repeat split. left. reflexivity.
      * assumption.
      * assumption.
    + destruct (getMemeCoins env (memeQueries s)) as [coins|] eqn:Q.
      * rewrite refreshMemeTokens_ok with (coins := coins) by exact Q.
        eexists _, _. split; [reflexivity|].
        cbn [dateNow snd clockReads ranksCache rankQueries memeQueries memeTokensCache].
        repeat split; try lia.
        -- left. eexists. repeat split. right. split; reflexivity.
        -- apply lowercaseSet_newSet.
        -- apply lowercaseSet_newSet.
      * rewrite refreshMemeTokens_fail by exact Q.
        eexists _, _. split; [reflexivity|].
        cbn [dateNow snd clockReads ranksCache rankQueries memeQueries memeTokensCache].
        rewrite E. repeat split; try lia.
        -- right. repeat split.
        -- apply lowercaseSet_fallback.
        -- assumption.
  - rewrite (getMemeTokenAddresses_cold env s E).
    destruct (getMemeCoins env (memeQueries s)) as [coins|] eqn:Q.
    + rewrite refreshMemeTokens_ok with (coins := coins) by exact Q.
      eexists _, _. split; [reflexivity|].
      cbn [dateNow snd clockReads ranksCache rankQueries memeQueries memeTokensCache].
      repeat split; try lia.
      * left. eexists. repeat split. right. split; reflexivity.
      * apply lowercaseSet_newSet.
      * apply lowercaseSet_newSet.
    + rewrite refreshMemeTokens_fail by exact Q.
      eexists _, _. split; [reflexivity|].
      cbn [dateNow snd clockReads ranksCache rankQueries memeQueries memeTokensCache].
      rewrite E. repeat split; try lia.
      * right. repeat split.
      * apply lowercaseSet_fallback.
Qed.

(** The same for the rank table, whose failure value is the empty list. *)
Lemma getCachedRanks_facts s :
  exists rs s',
    getCachedRanks env s = (Returned rs, s') /\
    memeTokensCache s' = memeTokensCache s /\ memeQueries s' = memeQueries s /\
    (clockReads s <= clockReads s')%nat /\
    (rankQueries s <= rankQueries s' <= S (rankQueries s))%nat /\
    ((exists c, ranksCache s' = Some c /\ ranks c = rs /\
                (ranksCache s = Some c \/
                 ranks_timestamp c = clock env (pred (clockReads s')) /\
                 rankQueries s' = S (rankQueries s))) \/
     (rs = [] /\ ranksCache s' = ranksCache s /\
      rankQueries s' = S (rankQueries s) /\
      queryRanks env (rankQueries s) = None)).
Proof.
  destruct (ranksCache s) as [c|] eqn:E.
  - rewrite (getCachedRanks_warm env s c E).
    destruct (clock env (clockReads s) - ranks_timestamp c <? RANKS_CACHE_TTL)%Z.
    + eexists _, _. split; [reflexivity|].
      cbn [dateNow snd clockReads ranksCache rankQueries memeQueries memeTokensCache].
      rewrite E. repeat split; try lia.
      left. exists c. repeat split. left. reflexivity.
    + destruct (queryRanks env (rankQueries s)) as [rows|] eqn:Q.
      * destruct (refreshRanks_ok env (snd (dateNow env s)) rows Q) as (rs & -> & _).
        eexists _, _. split; [reflexivity|].
        cbn [dateNow snd clockReads ranksCache rankQueries memeQueries memeTokensCache].
        repeat split; try lia.
        left. eexists. repeat split. right. split; reflexivity.
      * rewrite refreshRanks_fail by exact Q.
        eexists _, _. split; [reflexivity|].
        cbn [dateNow snd clockReads ranksCache rankQueries memeQueries memeTokensCache].
        rewrite E. repeat split; try lia.
        right. repeat split.
  - rewrite (getCachedRanks_cold env s E).
    destruct (queryRanks env (rankQueries s)) as [rows|] eqn:Q.
    + destruct (refreshRanks_ok env s rows Q) as (rs & -> & _).
      eexists _, _. split; [reflexivity|].
      cbn [dateNow snd clockReads ranksCache rankQueries memeQueries memeTokensCache].
      repeat split; try lia.
      left. eexists. repeat split. right. split; reflexivity.
    + rewrite refreshRanks_fail by exact Q.
      eexists _, _. split; [reflexivity|].
      cbn [dateNow snd clockReads ranksCache rankQueries memeQueries memeTokensCache].
      rewrite E. repeat split; try lia.
      right. repeat split.
Qed.

Lemma getMemeTokenAddresses_fresh s c :
  memeTokensCache s = Some c ->
  (clock env (clockReads s) - meme_timestamp c < MEME_TOKENS_CACHE_TTL)%Z ->
  getMemeTokenAddresses env s = (Returned (addresses c), snd (dateNow env s)).
Proof.
  intros Hc Hf. rewrite (getMemeTokenAddresses_warm env s c Hc).
  destruct (Z.ltb_spec (clock env (clockReads s) - meme_timestamp c) MEME_TOKENS_CACHE_TTL);
    [reflexivity|lia].
Qed.

Lemma getCachedRanks_fresh s c :
  ranksCache s = Some c ->
  (clock env (clockReads s) - ranks_timestamp c < RANKS_CACHE_TTL)%Z ->
  getCachedRanks env s = (Returned (ranks c), snd (dateNow env s)).
Proof.
  intros Hc Hf. rewrite (getCachedRanks_warm env s c Hc).
  destruct (Z.ltb_spec (clock env (clockReads s) - ranks_timestamp c) RANKS_CACHE_TTL);
    [reflexivity|lia].
Qed.

End Reads.

(** What a read does to the number of queries: none when the entry is
    fresh, one when it is stale. *)
Lemma getCachedRanks_ttl env s c :
  ranksCache s = Some c ->
  let now := clock env (clockReads s) in
  (now - ranks_timestamp c < 60 * 1000 ->
   fst (getCachedRanks env s) = Returned (ranks c) /\
   rankQueries (snd (getCachedRanks env s)) = rankQueries s) /\
  (60 * 1000 <= now - ranks_timestamp c ->
   rankQueries (snd (getCachedRanks env s)) = S (rankQueries s)).
Proof.
  intros Hc now. subst now. rewrite (getCachedRanks_warm env s c Hc).
  change RANKS_CACHE_TTL with (60 * 1000).
  assert (Hq := refreshRanks_queries env (snd (dateNow env s))).
  cbn [dateNow snd rankQueries] in Hq.
  destruct (Z.ltb_spec (clock env (clockReads s) - ranks_timestamp c) (60 * 1000));
    repeat split; intros; try lia; try reflexivity; apply Hq.
Qed.

Lemma getMemeTokenAddresses_ttl env s c :
  memeTokensCache s = Some c ->
  let now := clock env (clockReads s) in
  (now - meme_timestamp c < 300 * 1000 ->
   fst (getMemeTokenAddresses env s) = Returned (addresses c) /\
   memeQueries (snd (getMemeTokenAddresses env s)) = memeQueries s) /\
  (300 * 1000 <= now - meme_timestamp c ->
   memeQueries (snd (getMemeTokenAddresses env s)) = S (memeQueries s)).
Proof.
  intros Hc now. subst now. rewrite (getMemeTokenAddresses_warm env s c Hc).
  change MEME_TOKENS_CACHE_TTL with (300 * 1000).
  assert (Hq := refreshMemeTokens_queries env (snd (dateNow env s))).
  cbn [dateNow snd memeQueries] in Hq.
  destruct (Z.ltb_spec (clock env (clockReads s) - meme_timestamp c) (300 * 1000));
    repeat split; intros; try lia; try reflexivity; apply Hq.
Qed.

(** C8. A read of the rank table that finds nothing fresh queries the
    store once and, when the store answers, keeps what it returns together
    with [refreshed], the reading of the clock made when it was stored.
    From then on, as long as that entry is the cached one, a read made less
    than 60 s (60000 ms) after [refreshed] returns the cached ranks and
    sends no query, and a read made 60 s or more after it sends exactly one
    query.  The meme-token cache does the same with 300 s, its payload
    being the set of the lowercased addresses of the store. *)
Theorem cache_ttl (env : Env) (s : State) :
  (forall rows,
     ranksStale env s -> queryRanks env (rankQueries s) = Some rows ->
     exists rs s1 refreshed,
       getCachedRanks env s = (Returned rs, s1) /\
       map name rs = map raw_name rows /\
       rankQueries s1 = S (rankQueries s) /\
       refreshed = clock env (pred (clockReads s1)) /\
       ranksCache s1 = Some {| ranks := rs; ranks_timestamp := refreshed |} /\
       forall s2, ranksCache s2 = ranksCache s1 ->
         let now := clock env (clockReads s2) in
         (now - refreshed < 60 * 1000 ->
          fst (getCachedRanks env s2) = Returned rs /\
          rankQueries (snd (getCachedRanks env s2)) = rankQueries s2) /\
         (60 * 1000 <= now - refreshed ->
          rankQueries (snd (getCachedRanks env s2)) = S (rankQueries s2))) /\
  (forall coins,
     memeTokensExpired env s -> getMemeCoins env (memeQueries s) = Some coins ->
     exists set s1 refreshed,
       getMemeTokenAddresses env s = (Returned set, s1) /\
       set = newSet (map (fun coin => toLowerCase (coin_address coin)) coins) /\
       memeQueries s1 = S (memeQueries s) /\
       refreshed = clock env (pred (clockReads s1)) /\
       memeTokensCache s1 = Some {| addresses := set; meme_timestamp := refreshed |} /\
       forall s2, memeTokensCache s2 = memeTokensCache s1 ->
         let now := clock env (clockReads s2) in
         (now - refreshed < 300 * 1000 ->
          fst (getMemeTokenAddresses env s2) = Returned set /\
          memeQueries (snd (getMemeTokenAddresses env s2)) = memeQueries s2) /\
         (300 * 1000 <= now - refreshed ->
          memeQueries (snd (getMemeTokenAddresses env s2)) = S (memeQueries s2))).
Proof.
  split.
  - intros rows Hstale Hq. unfold ranksStale in Hstale.
    assert (E : exists s0, getCachedRanks env s = refreshRanks env s0 /\
                           (s0 = s \/ s0 = snd (dateNow env s))).
    { destruct (ranksCache s) as [c|] eqn:Hc.
      - exists (snd (dateNow env s)). split; [|right; reflexivity].
        rewrite (getCachedRanks_warm env s c Hc).
        destruct (Z.ltb_spec (clock env (clockReads s) - ranks_timestamp c)
                             RANKS_CACHE_TTL); [lia|reflexivity].
      - exists s. split; [|left; reflexivity]. apply getCachedRanks_cold. exact Hc. }
    destruct E as (s0 & E & Hs0).
    destruct (refreshRanks_ok env s0 rows) as (rs & R & Hnames).
    { destruct Hs0; subst s0; exact Hq. }
    rewrite E, R. eexists rs, _, _. split; [reflexivity|].
    split; [exact Hnames|].
    split; [destruct Hs0; subst s0; reflexivity|].
    split; [reflexivity|]. split; [reflexivity|].
    intros s2 H2. cbn [ranksCache pred clockReads] in H2 |- *.
    apply (getCachedRanks_ttl env s2 _ H2).
  - intros coins Hstale Hq. unfold memeTokensExpired in Hstale.
    assert (E : exists s0, getMemeTokenAddresses env s = refreshMemeTokens env s0 /\
                           (s0 = s \/ s0 = snd (dateNow env s))).
    { destruct (memeTokensCache s) as [c|] eqn:Hc.
      - exists (snd (dateNow env s)). split; [|right; reflexivity].
        rewrite (getMemeTokenAddresses_warm env s c Hc).
        destruct (Z.ltb_spec (clock env (clockReads s) - meme_timestamp c)
                             MEME_TOKENS_CACHE_TTL); [lia|reflexivity].
      - exists s. split; [|left; reflexivity]. apply getMemeTokenAddresses_cold. exact Hc. }
    destruct E as (s0 & E & Hs0).
    rewrite E, (refreshMemeTokens_ok env s0 coins) by (destruct Hs0; subst s0; exact Hq).
    eexists _, _, _. split; [reflexivity|]. split; [reflexivity|].
    split; [destruct Hs0; subst s0; reflexivity|].
    split; [reflexivity|]. split; [reflexivity|].
    intros s2 H2. cbn [memeTokensCache pred clockReads] in H2 |- *.
    apply (getMemeTokenAddresses_ttl env s2 _ H2).
Qed.

(** ** Meme-token classification *)

(** C7. An address the store lists as a meme token, in whatever letter case
    it is stored, is classified as one by [isMemeToken] whatever the letter
    case of the query (its lowercase and uppercase spellings among them): by
    the call that loads the set, and by the calls answered from the cache
    afterwards. *)
Theorem meme_classification_case_insensitive
    (env : Env) (s : State) (coins : list MemeCoin) (inserted queried : string) :
  memeTokensCache s = None ->
  getMemeCoins env (memeQueries s) = Some coins ->
  In inserted (map coin_address coins) ->
  same_address queried inserted ->
  (same_address (toLowerCase inserted) inserted /\
   same_address (toUpperCase inserted) inserted) /\
  has (newSet (map (fun coin => toLowerCase (coin_address coin)) coins))
      (toLowerCase queried) = true /\
  fst (isMemeToken env queried s) = Returned true /\
  (let s' := snd (isMemeToken env queried s) in
   clock env (clockReads s') - clock env (clockReads s) < 300 * 1000 ->
   fst (isMemeToken env queried s') = Returned true /\
   memeQueries (snd (isMemeToken env queried s')) = memeQueries s').
Proof.
  intros Hcold Hq Hin Hsame.
  assert (Hhas : has (newSet (map (fun coin => toLowerCase (coin_address coin)) coins))
                     (toLowerCase queried) = true).
  { apply has_newSet. rewrite Hsame. rewrite in_map_iff in Hin.
    destruct Hin as (coin & <- & Hc). apply in_map_iff. exists coin. split; [reflexivity|exact Hc]. }
  split; [split; [apply same_address_lower|apply same_address_upper]|].
  split; [exact Hhas|].
  assert (E : isMemeToken env queried s =
              (Returned true,
               {| ranksCache := ranksCache s;
                  memeTokensCache :=
                    Some {| addresses :=
                              newSet (map (fun coin => toLowerCase (coin_address coin)) coins);
                            meme_timestamp := clock env (clockReads s) |};
                  clockReads := S (clockReads s); memeQueries := S (memeQueries s);
                  rankQueries := rankQueries s |})).
  { unfold isMemeToken, bind.
    rewrite (getMemeTokenAddresses_cold env s Hcold), (refreshMemeTokens_ok env s coins Hq).
    cbv zeta. unfold ret. rewrite Hhas. reflexivity. }
  rewrite E. cbn [fst snd]. split; [reflexivity|].
  intros Hfresh. unfold isMemeToken, bind.
  erewrite getMemeTokenAddresses_warm by reflexivity.
  cbn [clockReads meme_timestamp addresses dateNow snd] in *.
  change MEME_TOKENS_CACHE_TTL with (300 * 1000).
  destruct (Z.ltb_spec (clock env (S (clockReads s)) - clock env (clockReads s)) (300 * 1000));
    [|lia].
  unfold ret. cbn [fst snd memeQueries]. rewrite Hhas. split; reflexivity.
Qed.

(** ** Running the aggregator *)

Section AggregatorFacts.

Variable env : Env.

Lemma jsonIfOk_run {A} (r : Response A) s :
  jsonIfOk r s = if unparsable r then (Threw SyntaxError, s) else (Returned (dataOf r), s).
Proof.
  unfold jsonIfOk, unparsable, dataOf. destruct (ok r), (body r); reflexivity.
Qed.

(** One [await] of the [Promise.all], and one [res.json()]. *)
Ltac step_fetch f :=
  destruct f as [|?r]; cbn [rejected orb unparsableF dataOfF];
  [ rewrite ?orb_true_r; reflexivity | unfold bind at 1; cbn [settled ret] ].

Ltac step_json r :=
  unfold bind at 1; rewrite (jsonIfOk_run r);
  destruct (unparsable r); cbn [orb];
  [ rewrite ?orb_true_r; reflexivity | ].

(** The call throws on a rejected fetch, else on a 2xx body that is not
    JSON, else without wallet stats; otherwise it scores what was read. *)
Lemma calculateWalletScore_run walletAddress s :
  calculateWalletScore env walletAddress s =
  let wallet := toLowerCase walletAddress in
  let fs := http env wallet in
  if anyRejected fs then (Threw NetworkError, s)
  else if anyUnparsable fs then (Threw SyntaxError, s)
  else
    match dataOfF (f_walletStats fs) with
    | None => (Threw (Error "Failed to fetch wallet stats"), s)
    | Some walletStats =>
        score env wallet walletStats
          (dataOfF (f_bridge fs)) (dataOfF (f_swap fs)) (dataOfF (f_tydro fs))
          (dataOfF (f_gm fs)) (dataOfF (f_inkyPumpCreated fs))
          (dataOfF (f_inkyPumpBuy fs)) (dataOfF (f_inkyPumpSell fs))
          (dataOfF (f_shelliesRaffles fs)) (dataOfF (f_shelliesPayToPlay fs))
          (dataOfF (f_shelliesStaking fs)) (dataOfF (f_zns fs)) (dataOfF (f_nft2me fs))
          (dataOfF (f_nftTrading fs)) (dataOfF (f_marvk fs)) (dataOfF (f_nado fs))
          (dataOfF (f_copink fs)) s
    end.
Proof.
  cbv zeta. unfold calculateWalletScore, anyRejected, anyUnparsable. cbv zeta.
  generalize (toLowerCase walletAddress) as wallet. intros wallet.
  destruct (http env wallet) as
    [f1 f2 f3 f4 f5 f6 f7 f8 f9 f10 f11 f12 f13 f14 f15 f16 f17].
  cbn [f_walletStats f_bridge f_swap f_tydro f_gm f_inkyPumpCreated f_inkyPumpBuy
       f_inkyPumpSell f_shelliesRaffles f_shelliesPayToPlay f_shelliesStaking f_zns
       f_nft2me f_nftTrading f_marvk f_nado f_copink].
  unfold tryCatch.
  step_fetch f1. step_fetch f2. step_fetch f3. step_fetch f4. step_fetch f5.
  step_fetch f6. step_fetch f7. step_fetch f8. step_fetch f9. step_fetch f10.
  step_fetch f11. step_fetch f12. step_fetch f13. step_fetch f14. step_fetch f15.
  step_fetch f16. step_fetch f17.
  step_json r. step_json r0. step_json r1. step_json r2. step_json r3. step_json r4.
  step_json r5. step_json r6. step_json r7. step_json r8. step_json r9. step_json r10.
  step_json r11. step_json r12. step_json r13. step_json r14. step_json r15.
  destruct (dataOf r) as [walletStats|]; [|reflexivity].
  match goal with |- context [score ?e ?w ?a ?b ?c ?d ?e1 ?f ?g ?h ?i ?j ?k ?l ?m ?n ?o ?p ?q s] =>
    destruct (score e w a b c d e1 f g h i j k l m n o p q s) as [[resp|err] s']
  end; reflexivity.
Qed.

(** Whether a walk of the holdings throws does not depend on what it
    keeps. *)
Lemma filterTokens_shape keep keep' tokens :
  filterTokens keep tokens = None -> filterTokens keep' tokens = None.
Proof.
  induction tokens as [|token rest IH]; cbn [filterTokens]; [discriminate|].
  destruct token as [t|]; cbn [lowerAddress]; [|reflexivity].
  destruct (address t) as [a|]; cbn [option_map]; [|reflexivity].
  destruct (filterTokens keep rest); [discriminate|].
  intros _. rewrite IH by reflexivity. reflexivity.
Qed.

Lemma filterTokens_total keep tokens all :
  filterTokens (fun _ => true) tokens = Some all ->
  exists kept, filterTokens keep tokens = Some kept.
Proof.
  intros H. destruct (filterTokens keep tokens) as [kept|] eqn:E; [exists kept; reflexivity|].
  apply (filterTokens_shape keep (fun _ => true)) in E. congruence.
Qed.

Lemma filterTokens_app keep tokens t a :
  address t = Some a ->
  filterTokens keep (tokens ++ [Some t]) =
  option_map (fun kept => kept ++ (if keep (toLowerCase a) then [t] else []))
             (filterTokens keep tokens).
Proof.
  intros Ha. induction tokens as [|token rest IH]; cbn [app filterTokens].
  - cbn [lowerAddress]. rewrite Ha. cbn [option_map].
    destruct (keep (toLowerCase a)); reflexivity.
  - destruct token as [t0|]; cbn [lowerAddress]; [|reflexivity].
    destruct (address t0) as [a0|]; cbn [option_map]; [|reflexivity].
    rewrite IH. destruct (filterTokens keep rest) as [kept|]; cbn [option_map]; [|reflexivity].
    destruct (keep (toLowerCase a0)); reflexivity.
Qed.

Lemma sumUsdOf_total tokens : forall sum all,
  filterTokens (fun _ => true) tokens = Some all ->
  exists v, sumUsdOf tokens sum = Some v.
Proof.
  induction tokens as [|token rest IH]; intros sum all; cbn [filterTokens sumUsdOf].
  - intros _. exists sum. reflexivity.
  - destruct token as [t|]; cbn [lowerAddress]; [|discriminate].
    destruct (address t); cbn [option_map]; [|discriminate].
    destruct (filterTokens (fun _ => true) rest) as [all'|] eqn:E; [|discriminate].
    intros _. apply (IH _ all'). reflexivity.
Qed.

(** Running a step that returns, and one that throws. *)
Lemma bind_returned {A B} (m : M A) (k : A -> M B) s a s' :
  m s = (Returned a, s') -> bind m k s = k a s'.
Proof. intros H. unfold bind. rewrite H. reflexivity. Qed.

Lemma bind_threw {A B} (m : M A) (k : A -> M B) s e s' :
  m s = (Threw e, s') -> bind m k s = (Threw e, s').
Proof. intros H. unfold bind. rewrite H. reflexivity. Qed.

Lemma orTypeError_run {A} (result : option A) s :
  orTypeError result s =
  match result with
  | Some a => (Returned a, s)
  | None => (Threw TypeError, s)
  end.
Proof. destruct result; reflexivity. Qed.

Lemma calculateTokenHoldingsPoints_run tokens s memeTokens s' :
  getMemeTokenAddresses env s = (Returned memeTokens, s') ->
  calculateTokenHoldingsPoints env tokens s =
  match filterTokens (fun a => negb (has memeTokens a)) tokens with
  | Some kept => (Returned (tokenHoldingsTier (sumUsd kept)), s')
  | None => (Threw TypeError, s')
  end.
Proof.
  intros E. unfold calculateTokenHoldingsPoints. rewrite (bind_returned _ _ _ _ _ E).
  unfold bind. rewrite orTypeError_run. destruct (filterTokens _ tokens); reflexivity.
Qed.

Lemma calculateMemeCoinsPoints_run tokens s memeTokens s' :
  getMemeTokenAddresses env s = (Returned memeTokens, s') ->
  calculateMemeCoinsPoints env tokens s =
  match filterTokens (has memeTokens) tokens with
  | Some kept => (Returned (memeCoinsTier (sumUsd kept)), s')
  | None => (Threw TypeError, s')
  end.
Proof.
  intros E. unfold calculateMemeCoinsPoints. rewrite (bind_returned _ _ _ _ _ E).
  unfold bind. rewrite orTypeError_run. destruct (filterTokens _ tokens); reflexivity.
Qed.

(** [score] reads the meme-token set three times, then the rank table,
    then the clock, and returns the response made of what it read; it
    throws a TypeError at the first walk that has no result: at once for
    the collections, after the first read of the meme-token set for the
    holdings, after the third for the rows of [by_contract]. *)
Lemma score_trace (wallet : string) (walletStats : WalletStatsResponse)
    (bridgeData : option BridgeResponse) (swapData : option SwapResponse)
    (tydroData : option TydroResponse) (gmData : option CountResponse)
    (inkyPumpCreated inkyPumpBuy inkyPumpSell : option CountResponse)
    (shelliesRaffles shelliesPayToPlay shelliesStaking : option CountResponse)
    (znsData : option ZnsResponse) (nft2meData : option Nft2meResponse)
    (nftTradingData : option NftTradingResponse) (marvkData : option MarvkResponse)
    (nadoData : option NadoResponse) (copinkData : option CopinkResponse) (s : State) :
  let byContract := orEmpty (chain nftTradingData by_contract) in
  exists memeTokens1 s1 memeTokens2 s2 memeTokens3 s3 rs s4,
    getMemeTokenAddresses env s = (Returned memeTokens1, s1) /\
    getMemeTokenAddresses env s1 = (Returned memeTokens2, s2) /\
    getMemeTokenAddresses env s2 = (Returned memeTokens3, s3) /\
    getCachedRanks env s3 = (Returned rs, s4) /\
    score env wallet walletStats bridgeData swapData tydroData gmData
          inkyPumpCreated inkyPumpBuy inkyPumpSell
          shelliesRaffles shelliesPayToPlay shelliesStaking
          znsData nft2meData nftTradingData marvkData nadoData copinkData s
    = match sumCounts (orEmpty (nftCollections walletStats)) zero with
      | None => (Threw TypeError, s)
      | Some _ =>
          match filterTokens (fun _ => true) (orEmpty (tokenHoldings walletStats)) with
          | None => (Threw TypeError, s1)
          | Some _ =>
              match countOf byContract NFT_CONTRACTS_squid,
                    countOf byContract NFT_CONTRACTS_netProtocol,
                    countOf byContract NFT_CONTRACTS_mintique with
              | Some _, Some _, Some _ =>
                  (Returned
                     (responseOf wallet
                        (nativeEntries walletStats memeTokens1 memeTokens2 memeTokens3)
                        (platformEntries env bridgeData swapData tydroData gmData
                           inkyPumpCreated inkyPumpBuy inkyPumpSell
                           shelliesRaffles shelliesPayToPlay shelliesStaking
                           znsData nft2meData nftTradingData marvkData nadoData
                           copinkData)
                        rs (clock env (clockReads s4))),
                   snd (dateNow env s4))
              | _, _, _ => (Threw TypeError, s3)
              end
          end
      end.
Proof.
  cbv zeta.
  destruct (getMemeTokenAddresses_facts env s) as (m1 & s1 & E1 & _).
  destruct (getMemeTokenAddresses_facts env s1) as (m2 & s2 & E2 & _).
  destruct (getMemeTokenAddresses_facts env s2) as (m3 & s3 & E3 & _).
  destruct (getCachedRanks_facts env s3) as (rs & s4 & E4 & _).
  exists m1, s1, m2, s2, m3, s3, rs, s4.
  repeat (split; [assumption|]).
  unfold score. cbv zeta.
  set (holdings := orEmpty (tokenHoldings walletStats)).
  set (eth := nativeEth (opt0 (balanceUsd walletStats))).
  set (byContract := orEmpty (chain nftTradingData by_contract)).
  destruct (sumCounts (orEmpty (nftCollections walletStats)) zero) as [nftCount|] eqn:Sn;
    [|reflexivity].
  rewrite (bind_returned _ _ s nftCount s) by reflexivity.
  destruct (filterTokens (fun _ => true) holdings) as [all|] eqn:Sh.
  2:{ apply bind_threw. rewrite (calculateTokenHoldingsPoints_run _ _ _ _ E1).
      rewrite (filterTokens_app _ holdings eth _ eq_refl).
      rewrite (filterTokens_shape _ (fun a => negb (has m1 a)) holdings Sh). reflexivity. }
  destruct (filterTokens_total (has m2) holdings all Sh) as (k2 & K2).
  destruct (filterTokens_total (has m3) holdings all Sh) as (k3 & K3).
  assert (Sall : exists all', filterTokens (fun _ => true) (holdings ++ [Some eth]) = Some all').
  { rewrite (filterTokens_app _ holdings eth _ eq_refl), Sh. eexists. reflexivity. }
  destruct Sall as (all' & Sall).
  destruct (filterTokens_total (fun a => negb (has m1 a)) _ all' Sall) as (k0 & K0).
  destruct (sumUsdOf_total (holdings ++ [Some eth]) zero all' Sall) as (v & V).
  rewrite (bind_returned _ _ s (tokenHoldingsTier (sumUsd k0)) s1)
    by (rewrite (calculateTokenHoldingsPoints_run _ _ _ _ E1), K0; reflexivity).
  rewrite (bind_returned _ _ s1 v s1) by (rewrite V; reflexivity).
  rewrite (bind_returned _ _ s1 (memeCoinsTier (sumUsd k2)) s2)
    by (rewrite (calculateMemeCoinsPoints_run _ _ _ _ E2), K2; reflexivity).
  rewrite (bind_returned _ _ s2 m3 s3 E3).
  rewrite (bind_returned _ _ s3 k3 s3) by (rewrite K3; reflexivity).
  destruct (countOf byContract NFT_CONTRACTS_squid) as [squid|] eqn:C1; [|reflexivity].
  rewrite (bind_returned _ _ s3 squid s3) by reflexivity.
  destruct (countOf byContract NFT_CONTRACTS_netProtocol) as [net|] eqn:C2; [|reflexivity].
  rewrite (bind_returned _ _ s3 net s3) by reflexivity.
  destruct (countOf byContract NFT_CONTRACTS_mintique) as [mint|] eqn:C3; [|reflexivity].
  rewrite (bind_returned _ _ s3 mint s3) by reflexivity.
  rewrite (bind_returned _ _ s3 rs s4 E4).
  unfold bind, dateNow, ret. cbn [snd]. f_equal.
  unfold responseOf, nativeEntries, platformEntries. cbv zeta.
  fold holdings. fold eth. fold byContract.
  rewrite Sn, K0, V, K2, K3, C1, C2, C3. cbn [got].
  match goal with
  | |- Returned {| wallet_address := _; total_points := ?t; rank := _; breakdown := _;
                   last_updated := _ |} = _ =>
      set (total := t)
  end.
  match goal with
  | |- _ = Returned {| wallet_address := _; total_points := ?t; rank := _;
                       breakdown := _; last_updated := _ |} =>
      assert (Ht : total = t)
  end.
  { subst total. unfold breakdownSum, nativeSum, platformSum.
    cbn [native platforms fold_right existsb fst snd points platform_points
         setProp String.eqb Ascii.eqb Bool.eqb andb].
    lia. }
  rewrite <- Ht. reflexivity.
Qed.

(** What a response that [score] returns is made of. *)
Lemma score_spec (wallet : string) (walletStats : WalletStatsResponse)
    (bridgeData : option BridgeResponse) (swapData : option SwapResponse)
    (tydroData : option TydroResponse) (gmData : option CountResponse)
    (inkyPumpCreated inkyPumpBuy inkyPumpSell : option CountResponse)
    (shelliesRaffles shelliesPayToPlay shelliesStaking : option CountResponse)
    (znsData : option ZnsResponse) (nft2meData : option Nft2meResponse)
    (nftTradingData : option NftTradingResponse) (marvkData : option MarvkResponse)
    (nadoData : option NadoResponse) (copinkData : option CopinkResponse)
    (s : State) (resp : WalletScoreResponse) (s' : State) :
  score env wallet walletStats bridgeData swapData tydroData gmData
        inkyPumpCreated inkyPumpBuy inkyPumpSell
        shelliesRaffles shelliesPayToPlay shelliesStaking
        znsData nft2meData nftTradingData marvkData nadoData copinkData s
  = (Returned resp, s') ->
  exists memeTokens1 s1 memeTokens2 s2 memeTokens3 s3 rs s4,
    (getMemeTokenAddresses env s = (Returned memeTokens1, s1) /\
     getMemeTokenAddresses env s1 = (Returned memeTokens2, s2) /\
     getMemeTokenAddresses env s2 = (Returned memeTokens3, s3) /\
     getCachedRanks env s3 = (Returned rs, s4)) /\
    scoreable walletStats nftTradingData = true /\
    resp = responseOf wallet
             (nativeEntries walletStats memeTokens1 memeTokens2 memeTokens3)
             (platformEntries env bridgeData swapData tydroData gmData
                inkyPumpCreated inkyPumpBuy inkyPumpSell
                shelliesRaffles shelliesPayToPlay shelliesStaking
                znsData nft2meData nftTradingData marvkData nadoData copinkData)
             rs (clock env (clockReads s4)) /\
    s' = snd (dateNow env s4).
Proof.
  intros H.
  destruct (score_trace wallet walletStats bridgeData swapData tydroData gmData
              inkyPumpCreated inkyPumpBuy inkyPumpSell shelliesRaffles shelliesPayToPlay
              shelliesStaking znsData nft2meData nftTradingData marvkData nadoData
              copinkData s)
    as (m1 & s1 & m2 & s2 & m3 & s3 & rs & s4 & E1 & E2 & E3 & E4 & E).
  cbv zeta in E. rewrite E in H. clear E.
  exists m1, s1, m2, s2, m3, s3, rs, s4. split; [repeat split; assumption|].
  unfold scoreable. cbv zeta.
  destruct (sumCounts _ _); [|discriminate].
  destruct (filterTokens _ _); [|discriminate].
  destruct (countOf _ NFT_CONTRACTS_squid); [|discriminate].
  destruct (countOf _ NFT_CONTRACTS_netProtocol); [|discriminate].
  destruct (countOf _ NFT_CONTRACTS_mintique); [|discriminate].
  injection H as <- <-. repeat split.
Qed.

(** And what [score] does on arrays of another shape. *)
Lemma score_off_shape (wallet : string) (walletStats : WalletStatsResponse)
    (bridgeData : option BridgeResponse) (swapData : option SwapResponse)
    (tydroData : option TydroResponse) (gmData : option CountResponse)
    (inkyPumpCreated inkyPumpBuy inkyPumpSell : option CountResponse)
    (shelliesRaffles shelliesPayToPlay shelliesStaking : option CountResponse)
    (znsData : option ZnsResponse) (nft2meData : option Nft2meResponse)
    (nftTradingData : option NftTradingResponse) (marvkData : option MarvkResponse)
    (nadoData : option NadoResponse) (copinkData : option CopinkResponse) (s : State) :
  scoreable walletStats nftTradingData = false ->
  exists s',
    score env wallet walletStats bridgeData swapData tydroData gmData
          inkyPumpCreated inkyPumpBuy inkyPumpSell
          shelliesRaffles shelliesPayToPlay shelliesStaking
          znsData nft2meData nftTradingData marvkData nadoData copinkData s
    = (Threw TypeError, s') /\
    ranksCache s' = ranksCache s /\ rankQueries s' = rankQueries s /\
    (memeQueries s <= memeQueries s' <= memeQueries s + 3)%nat /\
    (memeCacheLowercase s -> memeCacheLowercase s') /\
    (sumCounts (orEmpty (nftCollections walletStats)) zero = None -> s' = s).
Proof.
  intros Hoff.
  destruct (score_trace wallet walletStats bridgeData swapData tydroData gmData
              inkyPumpCreated inkyPumpBuy inkyPumpSell shelliesRaffles shelliesPayToPlay
              shelliesStaking znsData nft2meData nftTradingData marvkData nadoData
              copinkData s)
    as (m1 & s1 & m2 & s2 & m3 & s3 & rs & s4 & E1 & E2 & E3 & E4 & E).
  cbv zeta in E. rewrite E. clear E.
  destruct (getMemeTokenAddresses_facts env s) as (? & ? & F1 & C1 & R1 & _ & Q1 & _ & L1).
  rewrite E1 in F1. injection F1 as <- <-.
  destruct (getMemeTokenAddresses_facts env s1) as (? & ? & F2 & C2 & R2 & _ & Q2 & _ & L2).
  rewrite E2 in F2. injection F2 as <- <-.
  destruct (getMemeTokenAddresses_facts env s2) as (? & ? & F3 & C3 & R3 & _ & Q3 & _ & L3).
  rewrite E3 in F3. injection F3 as <- <-.
  unfold scoreable in Hoff. cbv zeta in Hoff.
  destruct (sumCounts _ _).
  2:{ exists s. repeat split; try lia. intros H; exact H. }
  destruct (filterTokens _ _).
  2:{ exists s1. repeat split; try congruence; try lia; try discriminate.
      intros H. apply L1. exact H. }
  destruct (countOf _ NFT_CONTRACTS_squid);
    [destruct (countOf _ NFT_CONTRACTS_netProtocol);
     [destruct (countOf _ NFT_CONTRACTS_mintique); [discriminate|]|]|];
    exists s3; repeat split; try congruence; try lia; try discriminate;
    intros H; apply L3, L2, L1; exact H.
Qed.

End AggregatorFacts.

(** ** The response *)

Import Examples.

(** A call that returns has passed the three tests of
    [calculateWalletScore_run] and returns what [score] returns. *)
Lemma returned_is_scored env walletAddress s resp s' :
  calculateWalletScore env walletAddress s = (Returned resp, s') ->
  let fs := http env (toLowerCase walletAddress) in
  anyRejected fs = false /\ anyUnparsable fs = false /\
  exists walletStats,
    dataOfF (f_walletStats fs) = Some walletStats /\
    score env (toLowerCase walletAddress) walletStats
      (dataOfF (f_bridge fs)) (dataOfF (f_swap fs)) (dataOfF (f_tydro fs))
      (dataOfF (f_gm fs)) (dataOfF (f_inkyPumpCreated fs))
      (dataOfF (f_inkyPumpBuy fs)) (dataOfF (f_inkyPumpSell fs))
      (dataOfF (f_shelliesRaffles fs)) (dataOfF (f_shelliesPayToPlay fs))
      (dataOfF (f_shelliesStaking fs)) (dataOfF (f_zns fs)) (dataOfF (f_nft2me fs))
      (dataOfF (f_nftTrading fs)) (dataOfF (f_marvk fs)) (dataOfF (f_nado fs))
      (dataOfF (f_copink fs)) s = (Returned resp, s').
Proof.
  rewrite calculateWalletScore_run. cbv zeta.
  destruct (anyRejected _); [discriminate|].
  destruct (anyUnparsable _); [discriminate|].
  destruct (dataOfF (f_walletStats _)) as [walletStats|]; [|discriminate].
  intros H. repeat split. exists walletStats. split; [reflexivity|exact H].
Qed.

(** A call that returns has read the registries as [score] does and
    returns the response made of what was read. *)
Lemma calculateWalletScore_trace env walletAddress s resp s' :
  calculateWalletScore env walletAddress s = (Returned resp, s') ->
  let wallet := toLowerCase walletAddress in
  let fs := http env wallet in
  exists walletStats memeTokens1 s1 memeTokens2 s2 memeTokens3 s3 rs s4,
    anyRejected fs = false /\ anyUnparsable fs = false /\
    dataOfF (f_walletStats fs) = Some walletStats /\
    getMemeTokenAddresses env s = (Returned memeTokens1, s1) /\
    getMemeTokenAddresses env s1 = (Returned memeTokens2, s2) /\
    getMemeTokenAddresses env s2 = (Returned memeTokens3, s3) /\
    getCachedRanks env s3 = (Returned rs, s4) /\
    resp = responseOf wallet
             (nativeEntries walletStats memeTokens1 memeTokens2 memeTokens3)
             (platformsOf env fs) rs (clock env (clockReads s4)) /\
    s' = snd (dateNow env s4).
Proof.
  intros H. apply returned_is_scored in H. cbv zeta in H.
  destruct H as (HR & HU & walletStats & Hw & H). cbv zeta.
  apply score_spec in H.
  destruct H as (m1 & s1 & m2 & s2 & m3 & s3 & rs & s4 & (E1 & E2 & E3 & E4) & Hs & -> & ->).
  exists walletStats, m1, s1, m2, s2, m3, s3, rs, s4.
  repeat (split; [assumption|]). repeat split.
Qed.

(** The arrays of a call that returns could be walked. *)
Lemma calculateWalletScore_walked env walletAddress s resp s' :
  calculateWalletScore env walletAddress s = (Returned resp, s') ->
  let fs := http env (toLowerCase walletAddress) in
  exists walletStats,
    dataOfF (f_walletStats fs) = Some walletStats /\
    scoreable walletStats (dataOfF (f_nftTrading fs)) = true.
Proof.
  intros H. apply returned_is_scored in H. cbv zeta in H.
  destruct H as (HR & HU & walletStats & Hw & H). cbv zeta.
  apply score_spec in H.
  destruct H as (m1 & s1 & m2 & s2 & m3 & s3 & rs & s4 & _ & Hs & _).
  exists walletStats. split; assumption.
Qed.

(** Arrays of the declared shape are walked without a TypeError. *)
Lemma declaredShape_scoreable walletStats nftTradingData :
  declaredShape walletStats nftTradingData -> scoreable walletStats nftTradingData = true.
Proof.
  intros (Hcols & Htokens & Hrows). unfold scoreable. cbv zeta.
  assert (Ec : forall sum, exists n,
             sumCounts (orEmpty (nftCollections walletStats)) sum = Some n).
  { induction Hcols as [|col cols Hcol _ IH]; intros sum; cbn [sumCounts].
    - exists sum. reflexivity.
    - destruct col as [col|]; [apply IH|congruence]. }
  destruct (Ec zero) as (n & ->).
  assert (Et : exists all,
             filterTokens (fun _ => true) (orEmpty (tokenHoldings walletStats)) = Some all).
  { induction Htokens as [|token tokens Htoken _ IH]; cbn [filterTokens].
    - exists []. reflexivity.
    - destruct IH as (all & ->). destruct token as [t|]; cbn [lowerAddress] in *;
        [|congruence].
      destruct (address t); cbn [option_map] in *; [|congruence].
      eexists. reflexivity. }
  destruct Et as (all & ->).
  assert (Er : forall a, exists n,
             countOf (orEmpty (chain nftTradingData by_contract)) a = Some n).
  { intros a. unfold countOf.
    induction Hrows as [|row rows Hrow _ IH]; cbn [findContract].
    - eexists. reflexivity.
    - destruct row as [c|]; [|congruence].
      destruct (String.eqb (contract_address c) a); [eexists; reflexivity|exact IH]. }
  destruct (Er NFT_CONTRACTS_squid) as (? & ->).
  destruct (Er NFT_CONTRACTS_netProtocol) as (? & ->).
  destruct (Er NFT_CONTRACTS_mintique) as (? & ->).
  reflexivity.
Qed.

(** A call that passes the three tests returns when the arrays can be
    walked, and throws a TypeError when they cannot. *)
Lemma calculateWalletScore_returns env walletAddress s walletStats :
  let fs := http env (toLowerCase walletAddress) in
  anyRejected fs = false -> anyUnparsable fs = false ->
  dataOfF (f_walletStats fs) = Some walletStats ->
  scoreable walletStats (dataOfF (f_nftTrading fs)) = true ->
  exists resp s', calculateWalletScore env walletAddress s = (Returned resp, s').
Proof.
  cbv zeta. intros HR HU Hw Hs. rewrite calculateWalletScore_run. cbv zeta.
  rewrite HR, HU, Hw.
  match goal with
    |- context [score ?e ?w ?a ?b ?c ?d ?e1 ?f ?g ?h ?i ?j ?k ?l ?m ?n ?o ?p ?q ?s0] =>
    destruct (score_trace e w a b c d e1 f g h i j k l m n o p q s0)
      as (m1 & s1 & m2 & s2 & m3 & s3 & rs & s4 & _ & _ & _ & _ & E)
  end.
  cbv zeta in E. rewrite E. unfold scoreable in Hs. cbv zeta in Hs.
  destruct (sumCounts _ _); [|discriminate].
  destruct (filterTokens _ _); [|discriminate].
  destruct (countOf _ NFT_CONTRACTS_squid); [|discriminate].
  destruct (countOf _ NFT_CONTRACTS_netProtocol); [|discriminate].
  destruct (countOf _ NFT_CONTRACTS_mintique); [|discriminate].
  eexists _, _. reflexivity.
Qed.

Lemma calculateWalletScore_off_shape env walletAddress s walletStats :
  let fs := http env (toLowerCase walletAddress) in
  anyRejected fs = false -> anyUnparsable fs = false ->
  dataOfF (f_walletStats fs) = Some walletStats ->
  scoreable walletStats (dataOfF (f_nftTrading fs)) = false ->
  exists s',
    calculateWalletScore env walletAddress s = (Threw TypeError, s') /\
    ranksCache s' = ranksCache s /\ rankQueries s' = rankQueries s /\
    (memeQueries s <= memeQueries s' <= memeQueries s + 3)%nat /\
    (memeCacheLowercase s -> memeCacheLowercase s') /\
    (sumCounts (orEmpty (nftCollections walletStats)) zero = None -> s' = s).
Proof.
  cbv zeta. intros HR HU Hw Hs. rewrite calculateWalletScore_run. cbv zeta.
  rewrite HR, HU, Hw. apply score_off_shape. exact Hs.
Qed.

(** What a call throws, and where it stood then. *)
Lemma calculateWalletScore_thrown env walletAddress s e s' :
  calculateWalletScore env walletAddress s = (Threw e, s') ->
  let fs := http env (toLowerCase walletAddress) in
  (s' = s /\
   (e = NetworkError \/ e = SyntaxError \/ e = Error "Failed to fetch wallet stats") /\
   (anyRejected fs = true \/ anyUnparsable fs = true \/
    dataOfF (f_walletStats fs) = None)) \/
  (e = TypeError /\
   exists walletStats,
     anyRejected fs = false /\ anyUnparsable fs = false /\
     dataOfF (f_walletStats fs) = Some walletStats /\
     scoreable walletStats (dataOfF (f_nftTrading fs)) = false /\
     ranksCache s' = ranksCache s /\ rankQueries s' = rankQueries s /\
     (memeQueries s <= memeQueries s' <= memeQueries s + 3)%nat /\
     (memeCacheLowercase s -> memeCacheLowercase s') /\
     (sumCounts (orEmpty (nftCollections walletStats)) zero = None -> s' = s)).
Proof.
  intros H. cbv zeta.
  destruct (anyRejected (http env (toLowerCase walletAddress))) eqn:HR.
  { rewrite calculateWalletScore_run in H. cbv zeta in H. rewrite HR in H.
    injection H as <- <-. left. tauto. }
  destruct (anyUnparsable (http env (toLowerCase walletAddress))) eqn:HU.
  { rewrite calculateWalletScore_run in H. cbv zeta in H. rewrite HR, HU in H.
    injection H as <- <-. left. tauto. }
  destruct (dataOfF (f_walletStats (http env (toLowerCase walletAddress))))
    as [walletStats|] eqn:Hw.
  2:{ rewrite calculateWalletScore_run in H. cbv zeta in H. rewrite HR, HU, Hw in H.
      injection H as <- <-. left. tauto. }
  right.
  destruct (scoreable walletStats
              (dataOfF (f_nftTrading (http env (toLowerCase walletAddress))))) eqn:Hs.
  - destruct (calculateWalletScore_returns env walletAddress s walletStats HR HU Hw Hs)
      as (resp & s0 & E). rewrite E in H. discriminate.
  - destruct (calculateWalletScore_off_shape env walletAddress s walletStats HR HU Hw Hs)
      as (s0 & E & Hfacts). rewrite E in H. injection H as <- <-.
    split; [reflexivity|]. exists walletStats.
    repeat (split; [first [reflexivity | assumption]|]). exact Hfacts.
Qed.

(** C10. Every response that is returned has a total equal to the sum of
    the points of its breakdown entries, and exactly the five keys of
    [native] and the thirteen keys of [platforms], whatever the sources
    answered. *)
Theorem response_invariant (env : Env) (walletAddress : string) (s s' : State)
    (resp : WalletScoreResponse) :
  calculateWalletScore env walletAddress s = (Returned resp, s') ->
  total_points resp = breakdownSum [] (breakdown resp) /\
  keys (native (breakdown resp)) =
    ["nft_collections"; "erc20_tokens"; "meme_coins"; "wallet_age"; "total_tx"]%string /\
  keys (platforms (breakdown resp)) =
    ["bridge_in"; "bridge_out"; "gm"; "inkypump"; "tydro"; "swap"; "shellies"; "zns";
     "nft2me"; "nft_trading"; "marvk"; "nado"; "copink"]%string.
Proof.
  intros H. apply calculateWalletScore_trace in H. cbv zeta in H.
  destruct H as (walletStats & m1 & s1 & m2 & s2 & m3 & s3 & rs & s4 & _ & _ & _ &
                 _ & _ & _ & _ & -> & _).
  repeat split.
Qed.

Lemma response_invariant_witness :
  exists resp s',
    calculateWalletScore (world ticking true (withNado status500 allUp)) wallet initial
    = (Returned resp, s') /\
    total_points resp = 2200 /\
    total_points resp = breakdownSum [] (breakdown resp).
Proof.
  destruct (calculateWalletScore (world ticking true (withNado status500 allUp))
                                 wallet initial) as [[resp|e] s'] eqn:E.
  - exists resp, s'. split; [reflexivity|]. split.
    + vm_compute in E. injection E as <- _. reflexivity.
    + apply (response_invariant _ _ _ _ _ E).
  - vm_compute in E. discriminate.
Defined.

(** C9, as the code has it.  Seven NFTs resolve to 250 points, 400 days of
    age to 500 and 1500 USD bridged in to 250.  In a response computed from
    such data the three entries sit under their own keys with the raw values
    kept, and the total is 1000 (250 + 500 + 250) more than the points of
    the other fifteen entries. *)
Theorem example_three_categories (env : Env) (walletAddress : string) (s s' : State)
    (resp : WalletScoreResponse) (walletStats : WalletStatsResponse)
    (bridgeData : BridgeResponse) :
  let fs := http env (toLowerCase walletAddress) in
  calculateWalletScore env walletAddress s = (Returned resp, s') ->
  dataOfF (f_walletStats fs) = Some walletStats ->
  dataOfF (f_bridge fs) = Some bridgeData ->
  sumCounts (orEmpty (nftCollections walletStats)) zero = Some #7 ->
  ageDays walletStats = Some #400 ->
  bridgedInUsd bridgeData = Some #1500 ->
  (calculateNftCollectionsPoints #7 = 250 /\
   calculateWalletAgePoints #400 = 500 /\
   getBridgeVolumeTierPoints #1500 = 250) /\
  getProp (native (breakdown resp)) "nft_collections" =
    Some {| value := #7; points := 250 |} /\
  getProp (native (breakdown resp)) "wallet_age" =
    Some {| value := #400; points := 500 |} /\
  getProp (platforms (breakdown resp)) "bridge_in" =
    Some {| tx_count := opt0 (bridgedInCount bridgeData); usd_volume := #1500;
            platform_points := 250 |} /\
  total_points resp =
    1000 + breakdownSum ["nft_collections"; "wallet_age"; "bridge_in"]%string
                       (breakdown resp).
Proof.
  intros fs H Hstats Hbridge Hnft Hage Hin. subst fs.
  apply calculateWalletScore_trace in H. cbv zeta in H.
  destruct H as (walletStats' & m1 & s1 & m2 & s2 & m3 & s3 & rs & s4 & _ & _ & Hstats' &
                 _ & _ & _ & _ & Hresp & _).
  rewrite Hstats in Hstats'. injection Hstats' as <-.
  assert (Htotal : total_points resp = breakdownSum [] (breakdown resp))
    by (rewrite Hresp; reflexivity).
  assert (Hnative : native (breakdown resp) = nativeEntries walletStats m1 m2 m3)
    by (rewrite Hresp; reflexivity).
  assert (Hplatforms : platforms (breakdown resp) =
                       platformsOf env (http env (toLowerCase walletAddress)))
    by (rewrite Hresp; reflexivity).
  clear Hresp.
  unfold nativeEntries in Hnative. unfold platformsOf, platformEntries in Hplatforms.
  cbv zeta in Hnative, Hplatforms. rewrite Hbridge in Hplatforms.
  cbn [chain] in Hplatforms. cbn [got] in Hnative.
  assert (E7 : calculateNftCollectionsPoints #7 = 250) by (vm_compute; reflexivity).
  assert (E400 : calculateWalletAgePoints #400 = 500) by (vm_compute; reflexivity).
  assert (E1500 : getBridgeVolumeTierPoints #1500 = 250) by (vm_compute; reflexivity).
  assert (O400 : opt0 (Some #400) = #400) by (vm_compute; reflexivity).
  assert (O1500 : opt0 (Some #1500) = #1500) by (vm_compute; reflexivity).
  rewrite Hnft, Hage, O400 in Hnative. cbn [got] in Hnative. rewrite E7, E400 in Hnative.
  unfold calculateBridgeInPoints in Hplatforms.
  rewrite Hin, O1500, E1500 in Hplatforms.
  split; [repeat split; assumption|].
  rewrite Htotal. unfold breakdownSum. rewrite Hnative, Hplatforms.
  split; [reflexivity|]. split; [reflexivity|]. split; [reflexivity|].
  unfold nativeSum, platformSum.
  cbn [fold_right existsb fst snd points platform_points String.eqb Ascii.eqb Bool.eqb
       andb orb].
  lia.
Qed.

Lemma example_three_categories_witness :
  exists resp s',
    calculateWalletScore (world ticking true allUp) wallet initial = (Returned resp, s') /\
    getProp (native (breakdown resp)) "nft_collections" =
      Some {| value := #7; points := 250 |} /\
    total_points resp =
      1000 + breakdownSum ["nft_collections"; "wallet_age"; "bridge_in"]%string
                         (breakdown resp).
Proof.
  destruct (calculateWalletScore (world ticking true allUp) wallet initial)
    as [[resp|e] s'] eqn:E.
  - exists resp, s'. split; [reflexivity|].
    pose proof (example_three_categories (world ticking true allUp) wallet initial s'
                  resp Examples.walletStats bridge E
                  eq_refl eq_refl eq_refl eq_refl eq_refl) as H.
    split; apply H.
  - vm_compute in E. discriminate.
Defined.

(** C9 as stated fails: the three categories bring 1000 points, not 950. *)
Lemma example_three_categories_counterexample :
  calculateNftCollectionsPoints #7 + calculateWalletAgePoints #400
    + getBridgeVolumeTierPoints #1500 = 1000 /\
  exists resp s',
    calculateWalletScore (world ticking true allUp) wallet initial = (Returned resp, s') /\
    total_points resp = 3300 /\
    breakdownSum ["nft_collections"; "wallet_age"; "bridge_in"]%string (breakdown resp)
      = 2300 /\
    total_points resp <>
      950 + breakdownSum ["nft_collections"; "wallet_age"; "bridge_in"]%string
                         (breakdown resp).
Proof.
  split; [reflexivity|].
  eexists _, _. split; [vm_compute; reflexivity|].
  split; [reflexivity|]. split; [reflexivity|]. vm_compute. discriminate.
Qed.

(** ** Failing sources *)

(** C3. When the wallet-stats fetch is rejected, answers with a status
    that is not 2xx, or has a body that is empty, malformed or [null], the
    call throws and changes nothing: no response, whole or partial, comes
    back, whatever the other sources answer. *)
Theorem primary_source_is_fatal (env : Env) (walletAddress : string) (s : State) :
  primaryUnusable (http env (toLowerCase walletAddress)) ->
  exists e, calculateWalletScore env walletAddress s = (Threw e, s).
Proof.
  intros H. rewrite calculateWalletScore_run. cbv zeta.
  destruct (anyRejected _) eqn:R; [eexists; reflexivity|].
  destruct (anyUnparsable _) eqn:U; [eexists; reflexivity|].
  unfold primaryUnusable, anyRejected, anyUnparsable in *.
  destruct (f_walletStats (http env (toLowerCase walletAddress))) as [|r].
  - discriminate.
  - cbn [unparsableF orb dataOfF] in *. unfold unparsable, dataOf in *.
    destruct H as [H|[H|H]]; rewrite H in *.
    + eexists. reflexivity.
    + destruct (ok r); [discriminate|]. eexists. reflexivity.
    + destruct (ok r); eexists; reflexivity.
Qed.

Lemma primary_source_is_fatal_witness :
  exists e,
    calculateWalletScore (world ticking true (withWalletStats status500 allUp))
                         wallet initial = (Threw e, initial).
Proof.
  apply (primary_source_is_fatal (world ticking true (withWalletStats status500 allUp))
                                 wallet initial).
  left. reflexivity.
Defined.

Lemma non2xx_data {A} (f : Fetched A) : non2xx f -> dataOfF f = None.
Proof.
  destruct f as [|r]; cbn [non2xx dataOfF]; [contradiction|].
  unfold dataOf. intros ->. reflexivity.
Qed.

Local Open Scope string_scope.

(** Looks an entry up in a list of entries given in full. *)
Ltac lookup :=
  cbn [getProp String.eqb Ascii.eqb Bool.eqb andb].

(** C1, as the code has it.  A rejected fetch makes the call throw, and so
    does a 2xx body that is not JSON.  When every fetch resolves, every 2xx
    body is JSON of the declared shape (fields of the declared types, no
    [null] among the collections, the holdings and the rows of
    [by_contract], every holding with a string address) and the wallet
    stats are usable, the call returns a complete
    response, and a source that answered with a status that is not 2xx is
    read as holding nothing: a platform whose sources all answered so has
    zero counts, zero volume and zero points, except [nado], which keeps
    the 50 points of its volume ladder; in [inkypump] and [shellies], fed by
    three sources each, the share of the failed source is zero.  When the
    scoring cannot walk these arrays, the call throws a TypeError. *)
Theorem degraded_sources_read_as_empty
    (env : Env) (walletAddress : string) (s : State) (walletStats : WalletStatsResponse) :
  let fs := http env (toLowerCase walletAddress) in
  (anyRejected fs = true ->
   calculateWalletScore env walletAddress s = (Threw NetworkError, s)) /\
  (anyRejected fs = false -> anyUnparsable fs = true ->
   calculateWalletScore env walletAddress s = (Threw SyntaxError, s)) /\
  (anyRejected fs = false ->
  anyUnparsable fs = false ->
  dataOfF (f_walletStats fs) = Some walletStats ->
  declaredShape walletStats (dataOfF (f_nftTrading fs)) ->
  parseFloat env "0" = zero ->
  exists resp s',
    calculateWalletScore env walletAddress s = (Returned resp, s') /\
    keys (native (breakdown resp)) =
      ["nft_collections"; "erc20_tokens"; "meme_coins"; "wallet_age"; "total_tx"]%string /\
    keys (platforms (breakdown resp)) =
      ["bridge_in"; "bridge_out"; "gm"; "inkypump"; "tydro"; "swap"; "shellies"; "zns";
       "nft2me"; "nft_trading"; "marvk"; "nado"; "copink"]%string /\
    let platform := getProp (platforms (breakdown resp)) in
    let created := opt0 (chain (dataOfF (f_inkyPumpCreated fs)) total_count) in
    let buyCount := opt0 (chain (dataOfF (f_inkyPumpBuy fs)) total_count) in
    let sellCount := opt0 (chain (dataOfF (f_inkyPumpSell fs)) total_count) in
    let buyUsd := parseFloat env (orDigit0 (chain (dataOfF (f_inkyPumpBuy fs)) total_value)) in
    let sellUsd := parseFloat env (orDigit0 (chain (dataOfF (f_inkyPumpSell fs)) total_value)) in
    let played := opt0 (chain (dataOfF (f_shelliesPayToPlay fs)) total_count) in
    let staked := opt0 (chain (dataOfF (f_shelliesStaking fs)) total_count) in
    let raffles := opt0 (chain (dataOfF (f_shelliesRaffles fs)) total_count) in
    (non2xx (f_bridge fs) ->
     platform "bridge_in" = Some noActivity /\ platform "bridge_out" = Some noActivity) /\
    (non2xx (f_swap fs) -> platform "swap" = Some noActivity) /\
    (non2xx (f_tydro fs) -> platform "tydro" = Some noActivity) /\
    (non2xx (f_gm fs) -> platform "gm" = Some noActivity) /\
    (non2xx (f_zns fs) -> platform "zns" = Some noActivity) /\
    (non2xx (f_nft2me fs) -> platform "nft2me" = Some noActivity) /\
    (non2xx (f_nftTrading fs) -> platform "nft_trading" = Some noActivity) /\
    (non2xx (f_marvk fs) -> platform "marvk" = Some noActivity) /\
    (non2xx (f_copink fs) -> platform "copink" = Some noActivity) /\
    (non2xx (f_nado fs) ->
     platform "nado" =
       Some {| tx_count := zero; usd_volume := zero; platform_points := 50 |}) /\
    (non2xx (f_inkyPumpCreated fs) -> non2xx (f_inkyPumpBuy fs) ->
     non2xx (f_inkyPumpSell fs) -> platform "inkypump" = Some noActivity) /\
    (non2xx (f_shelliesRaffles fs) -> non2xx (f_shelliesPayToPlay fs) ->
     non2xx (f_shelliesStaking fs) -> platform "shellies" = Some noActivity) /\
    (non2xx (f_inkyPumpCreated fs) ->
     platform "inkypump" =
       Some {| tx_count := zero +! buyCount +! sellCount;
               usd_volume := buyUsd +! sellUsd;
               platform_points := calculateInkyPumpPoints zero buyUsd sellUsd |}) /\
    (non2xx (f_inkyPumpBuy fs) ->
     platform "inkypump" =
       Some {| tx_count := created +! zero +! sellCount;
               usd_volume := zero +! sellUsd;
               platform_points := calculateInkyPumpPoints created zero sellUsd |}) /\
    (non2xx (f_inkyPumpSell fs) ->
     platform "inkypump" =
       Some {| tx_count := created +! buyCount +! zero;
               usd_volume := buyUsd +! zero;
               platform_points := calculateInkyPumpPoints created buyUsd zero |}) /\
    (non2xx (f_shelliesPayToPlay fs) ->
     platform "shellies" =
       Some {| tx_count := zero +! staked +! raffles; usd_volume := zero;
               platform_points := calculateShelliesPoints zero staked raffles |}) /\
    (non2xx (f_shelliesStaking fs) ->
     platform "shellies" =
       Some {| tx_count := played +! zero +! raffles; usd_volume := zero;
               platform_points := calculateShelliesPoints played zero raffles |}) /\
    (non2xx (f_shelliesRaffles fs) ->
     platform "shellies" =
       Some {| tx_count := played +! staked +! zero; usd_volume := zero;
               platform_points := calculateShelliesPoints played staked zero |})) /\
  (anyRejected fs = false ->
   anyUnparsable fs = false ->
   dataOfF (f_walletStats fs) = Some walletStats ->
   scoreable walletStats (dataOfF (f_nftTrading fs)) = false ->
   ~ declaredShape walletStats (dataOfF (f_nftTrading fs)) /\
   exists s', calculateWalletScore env walletAddress s = (Threw TypeError, s')).
Proof.
  intros fs.
  pose proof (calculateWalletScore_run env walletAddress s) as Hrun.
  cbv zeta in Hrun. fold fs in Hrun.
  split; [intros HR; rewrite HR in Hrun; exact Hrun|].
  split; [intros HR HU; rewrite HR, HU in Hrun; exact Hrun|].
  split.
  2:{ intros HR HU Hstats Hoff. split.
      - intros Hshape. apply declaredShape_scoreable in Hshape. congruence.
      - destruct (calculateWalletScore_off_shape env walletAddress s walletStats
                    HR HU Hstats Hoff) as (s' & E & _).
        exists s'. exact E. }
  intros HR HU Hstats Hshape Hpf.
  destruct (calculateWalletScore_returns env walletAddress s walletStats HR HU Hstats
              (declaredShape_scoreable _ _ Hshape)) as (resp & s' & E).
  exists resp, s'. split; [exact E|].
  apply calculateWalletScore_trace in E. cbv zeta in E. fold fs in E.
  destruct E as (walletStats' & m1 & s1 & m2 & s2 & m3 & s3 & rs & s4 & _ & _ & Hstats' &
                 _ & _ & _ & _ & -> & _).
  unfold responseOf. cbv zeta. cbn [breakdown native platforms].
  split; [reflexivity|]. split; [reflexivity|].
  unfold platformsOf, platformEntries. cbv zeta.
  repeat match goal with |- _ /\ _ => split end; intros;
    repeat match goal with
    | H : non2xx ?f |- _ => rewrite (non2xx_data f H); clear H
    end;
    repeat match goal with |- _ /\ _ => split end;
    lookup; cbn [chain opt0 orDigit0 orEmpty]; rewrite ?Hpf; reflexivity.
Qed.

Lemma degraded_sources_read_as_empty_witness :
  exists resp s',
    calculateWalletScore (world ticking true (withNado status500 allUp)) wallet initial
    = (Returned resp, s') /\
    getProp (platforms (breakdown resp)) "nado" =
      Some {| tx_count := zero; usd_volume := zero; platform_points := 50 |}.
Proof.
  destruct (degraded_sources_read_as_empty
              (world ticking true (withNado status500 allUp)) wallet initial
              Examples.walletStats) as (_ & _ & Hreturns & _).
  assert (Hshape : declaredShape Examples.walletStats
                     (dataOfF (f_nftTrading (withNado status500 allUp)))).
  { repeat split; repeat constructor; discriminate. }
  destruct (Hreturns eq_refl eq_refl eq_refl Hshape eq_refl) as (resp & s' & E & _ & _ & H).
  exists resp, s'. split; [exact E|].
  cbv zeta in H. apply H. reflexivity.
Defined.

(** C1 as stated fails: a rejected fetch and a 2xx body that is not JSON
    make the call throw, and a failed nado source leaves 50 points. *)
Lemma degraded_sources_counterexample :
  fst (calculateWalletScore (world ticking true (withBridge Rejected allUp))
                            wallet initial) = Threw NetworkError /\
  fst (calculateWalletScore (world ticking true (withBridge notJson allUp))
                            wallet initial) = Threw SyntaxError /\
  exists resp,
    fst (calculateWalletScore (world ticking true (withNado status500 allUp))
                              wallet initial) = Returned resp /\
    option_map platform_points (getProp (platforms (breakdown resp)) "nado") = Some 50.
Proof.
  split; [vm_compute; reflexivity|]. split; [vm_compute; reflexivity|].
  eexists. split; vm_compute; reflexivity.
Qed.

(** ** Registry failures *)

(** C5. When the store fails at a refresh, the rank table resolves to the
    empty list, in which no rank is found, so that the response has [rank]
    null; the meme-token set resolves to the six built-in addresses.
    Neither failure is thrown. *)
Theorem registry_failures_asymmetric (env : Env) (s : State) :
  ranksExpired env s -> memeTokensExpired env s ->
  queryRanks env (rankQueries s) = None ->
  getMemeCoins env (memeQueries s) = None ->
  fst (getCachedRanks env s) = Returned [] /\
  (forall P, getRankForPoints [] P = None) /\
  (forall walletAddress resp s',
     calculateWalletScore env walletAddress s = (Returned resp, s') ->
     rank resp = None) /\
  fst (getMemeTokenAddresses env s) = Returned fallbackMemeTokens /\
  fallbackMemeTokens =
    [ "0x0606fc632ee812ba970af72f8489baaa443c4b98";
      "0x20c69c12abf2b6f8d8ca33604dd25c700c7e70a5";
      "0xd642b49d10cc6e1bc1c6945725667c35e0875f22";
      "0x2a1bce657f919ac3f9ab50b2584cfc77563a02ec";
      "0x32bcb803f696c99eb263d60a05cafd8689026575";
      "0x62c99fac20b33b5423fdf9226179e973a8353e36" ] /\
  List.length fallbackMemeTokens = 6%nat.
Proof.
  intros Hre Hme Hq Hm.
  assert (Hempty : forall s3, ranksCache s3 = ranksCache s -> rankQueries s3 = rankQueries s ->
                     (clockReads s <= clockReads s3)%nat ->
                     fst (getCachedRanks env s3) = Returned []).
  { intros s3 Hc3 Hq3 Ht3. unfold ranksExpired in Hre.
    destruct (ranksCache s) as [c|] eqn:Ec.
    - rewrite (getCachedRanks_warm env s3 c Hc3).
      specialize (Hre (clockReads s3) Ht3).
      destruct (Z.ltb_spec (clock env (clockReads s3) - ranks_timestamp c) RANKS_CACHE_TTL);
        [lia|].
      rewrite refreshRanks_fail by (cbn [dateNow snd rankQueries]; rewrite Hq3; exact Hq).
      reflexivity.
    - rewrite (getCachedRanks_cold env s3 Hc3), refreshRanks_fail
        by (rewrite Hq3; exact Hq).
      reflexivity. }
  unfold memeTokensExpired in Hme.
  repeat match goal with |- _ /\ _ => split end; try reflexivity.
  - apply Hempty; [reflexivity|reflexivity|lia].
  - intros walletAddress resp s' H.
    apply calculateWalletScore_trace in H. cbv zeta in H.
    destruct H as (walletStats & m1 & s1 & m2 & s2 & m3 & s3 & rs & s4 & _ & _ & _ &
                   E1 & E2 & E3 & E4 & -> & _).
    destruct (getMemeTokenAddresses_facts env s) as (? & ? & F1 & C1 & Q1 & T1 & _).
    rewrite E1 in F1. injection F1 as <- <-.
    destruct (getMemeTokenAddresses_facts env s1) as (? & ? & F2 & C2 & Q2 & T2 & _).
    rewrite E2 in F2. injection F2 as <- <-.
    destruct (getMemeTokenAddresses_facts env s2) as (? & ? & F3 & C3 & Q3 & T3 & _).
    rewrite E3 in F3. injection F3 as <- <-.
    pose proof (Hempty s3 ltac:(congruence) ltac:(congruence) ltac:(lia)) as Hrs.
    rewrite E4 in Hrs. injection Hrs as ->.
    reflexivity.
  - destruct (memeTokensCache s) as [c|] eqn:Ec.
    + rewrite (getMemeTokenAddresses_warm env s c Ec).
      destruct (Z.ltb_spec (clock env (clockReads s) - meme_timestamp c)
                           MEME_TOKENS_CACHE_TTL); [lia|].
      rewrite refreshMemeTokens_fail by exact Hm. reflexivity.
    + rewrite (getMemeTokenAddresses_cold env s Ec), refreshMemeTokens_fail by exact Hm.
      reflexivity.
Qed.

Lemma registry_failures_asymmetric_witness :
  (exists resp s',
     calculateWalletScore (world ticking false allUp) wallet initial = (Returned resp, s') /\
     rank resp = None) /\
  fst (getMemeTokenAddresses (world ticking false allUp) initial)
    = Returned fallbackMemeTokens.
Proof.
  pose proof (registry_failures_asymmetric (world ticking false allUp) initial
                I I eq_refl eq_refl) as (_ & _ & Hrank & Hmeme & _).
  split; [|exact Hmeme].
  destruct (calculateWalletScore (world ticking false allUp) wallet initial)
    as [[resp|e] s'] eqn:E.
  - exists resp, s'. split; [reflexivity|]. exact (Hrank wallet resp s' E).
  - vm_compute in E. discriminate.
Defined.

Lemma cache_ttl_witness :
  exists rs s1,
    getCachedRanks (world ticking true allUp) initial = (Returned rs, s1) /\
    map name rs = ["Bronze"; "Silver"] /\
    ranksCache s1 = Some {| ranks := rs; ranks_timestamp := 4000 |} /\
    (let s2 := s1 in
     fst (getCachedRanks (world ticking true allUp) s2) = Returned rs /\
     rankQueries (snd (getCachedRanks (world ticking true allUp) s2)) = 1%nat) /\
    (let s2 := {| ranksCache := ranksCache s1; memeTokensCache := None;
                  clockReads := 64; memeQueries := 0; rankQueries := 1 |} in
     rankQueries (snd (getCachedRanks (world ticking true allUp) s2)) = 2%nat).
Proof.
  destruct (cache_ttl (world ticking true allUp) initial) as (Hranks & _).
  destruct (Hranks [bronze; silver] I eq_refl)
    as (rs & s1 & refreshed & E & Hnames & Hq & Ht & Hc & Hnext).
  assert (Hs1 : clockReads s1 = 5%nat /\ rankQueries s1 = 1%nat).
  { vm_compute in E. injection E as _ <-. split; reflexivity. }
  destruct Hs1 as (Hreads & Hqueries).
  rewrite Hreads in Ht. cbn [pred] in Ht.
  assert (Hr : refreshed = 4000) by (rewrite Ht; reflexivity).
  exists rs, s1. split; [exact E|]. split; [exact Hnames|].
  split; [rewrite Hc, Hr; reflexivity|]. cbv zeta. split.
  - destruct (Hnext s1 eq_refl) as (Hfresh & _). cbv zeta in Hfresh.
    rewrite <- Hqueries. apply Hfresh. rewrite Hreads, Hr. reflexivity.
  - match goal with |- context [getCachedRanks _ ?s2] =>
      destruct (Hnext s2 eq_refl) as (_ & Hstale) end.
    cbv zeta in Hstale. apply Hstale. rewrite Hr. cbn [clockReads]. vm_compute. discriminate.
Defined.

Lemma meme_classification_case_insensitive_witness :
  fst (isMemeToken (world ticking true allUp)
                   "0x0606fc632ee812ba970af72f8489BAAA443C4B98" initial) = Returned true.
Proof.
  pose proof (meme_classification_case_insensitive (world ticking true allUp) initial
                [ {| coin_address := anita |} ] anita
                "0x0606fc632ee812ba970af72f8489BAAA443C4B98"
                eq_refl eq_refl (or_introl eq_refl) eq_refl) as (_ & _ & H & _).
  exact H.
Defined.

(** * Further properties *)

Import More Recorded Samples.

(** ** Bounds of the tier resolvers *)

(** Splits every comparison of a ladder. *)
Ltac rungs :=
  repeat match goal with
         | |- context [if ?b then _ else _] => destruct b
         end.

Ltac bounded :=
  intros;
  unfold calculateNftCollectionsPoints, tokenHoldingsTier, memeCoinsTier,
    calculateWalletAgePoints, calculateTotalTxPoints, calculateBridgeInPoints,
    calculateBridgeOutPoints, getBridgeVolumeTierPoints, calculateGmPoints,
    calculateInkyPumpPoints, calculateTydroPoints, getTydroSupplyTierPoints,
    getTydroBorrowTierPoints, calculateSwapVolumePoints, calculateShelliesPoints,
    calculateZnsPoints, calculateMarvkPoints, calculateNadoPoints,
    calculateCopinkPoints, calculateNft2mePoints, calculateNftTradingPoints;
  cbv zeta; rungs; lia.

Lemma nftCollections_bounds x : 0 <= calculateNftCollectionsPoints x <= 400.
Proof. bounded. Qed.

Lemma tokenHoldings_bounds x : 0 <= tokenHoldingsTier x <= 400.
Proof. bounded. Qed.

Lemma memeCoins_bounds x : 0 <= memeCoinsTier x <= 300.
Proof. bounded. Qed.

Lemma walletAge_bounds x : 0 <= calculateWalletAgePoints x <= 600.
Proof. bounded. Qed.

Lemma totalTx_bounds x : 0 <= calculateTotalTxPoints x <= 600.
Proof. bounded. Qed.

Lemma bridgeVolume_bounds x : 0 <= getBridgeVolumeTierPoints x <= 500.
Proof. bounded. Qed.

Lemma gm_bounds x : 0 <= calculateGmPoints x <= 400.
Proof. bounded. Qed.

Lemma inkyPump_bounds c b s : 0 <= calculateInkyPumpPoints c b s <= 400.
Proof. bounded. Qed.

Lemma tydroSupply_bounds x : 0 <= getTydroSupplyTierPoints x <= 1250.
Proof. bounded. Qed.

Lemma tydroBorrow_bounds x : 0 <= getTydroBorrowTierPoints x <= 1250.
Proof. bounded. Qed.

Lemma tydro_bounds x y : 0 <= calculateTydroPoints x y <= 2500.
Proof. bounded. Qed.

Lemma swapVolume_bounds x : 0 <= calculateSwapVolumePoints x <= 500.
Proof. bounded. Qed.

Lemma shellies_bounds p k r : 0 <= calculateShelliesPoints p k r <= 400.
Proof. bounded. Qed.

Lemma zns_bounds d g r : 0 <= calculateZnsPoints d g r <= 300.
Proof. bounded. Qed.

Lemma marvk_bounds c l v : 0 <= calculateMarvkPoints c l v <= 300.
Proof. bounded. Qed.

Lemma nado_bounds d v : 0 <= calculateNadoPoints d v <= 2500.
Proof. bounded. Qed.

Lemma copink_bounds n v : 0 <= calculateCopinkPoints n v <= 400.
Proof. bounded. Qed.

Lemma nft2me_bounds c m : 0 <= calculateNft2mePoints c m <= 300.
Proof. bounded. Qed.

Lemma nftTrading_bounds a b c : 0 <= calculateNftTradingPoints a b c <= 400.
Proof. bounded. Qed.

(** X1. Whatever the input ([NaN] and the infinities included), every
    resolver returns between 0 and the maximum the source documents for it
    (the top rung for wallet age and transaction count, which have no
    documented maximum), and some input reaches that maximum. *)
Theorem tier_resolvers_bounded :
  (forall x, 0 <= calculateNftCollectionsPoints x <= 400) /\
  calculateNftCollectionsPoints #10 = 400 /\
  (forall x, 0 <= tokenHoldingsTier x <= 400) /\
  tokenHoldingsTier #10000 = 400 /\
  (forall x, 0 <= memeCoinsTier x <= 300) /\
  memeCoinsTier #1000 = 300 /\
  (forall x, 0 <= calculateWalletAgePoints x <= 600) /\
  calculateWalletAgePoints #731 = 600 /\
  (forall x, 0 <= calculateTotalTxPoints x <= 600) /\
  calculateTotalTxPoints #901 = 600 /\
  (forall x, 0 <= calculateBridgeInPoints x <= 500) /\
  (forall x, 0 <= calculateBridgeOutPoints x <= 500) /\
  getBridgeVolumeTierPoints #10000 = 500 /\
  (forall x, 0 <= calculateGmPoints x <= 400) /\
  calculateGmPoints #150 = 400 /\
  (forall c b s, 0 <= calculateInkyPumpPoints c b s <= 400) /\
  calculateInkyPumpPoints #3 #10000 #0 = 400 /\
  (forall x, 0 <= getTydroSupplyTierPoints x <= 1250) /\
  (forall x, 0 <= getTydroBorrowTierPoints x <= 1250) /\
  (forall x y, 0 <= calculateTydroPoints x y <= 2500) /\
  calculateTydroPoints #50000 #25000 = 2500 /\
  (forall x, 0 <= calculateSwapVolumePoints x <= 500) /\
  calculateSwapVolumePoints #25000 = 500 /\
  (forall p k r, 0 <= calculateShelliesPoints p k r <= 400) /\
  calculateShelliesPoints #50 #5 #10 = 400 /\
  (forall d g r, 0 <= calculateZnsPoints d g r <= 300) /\
  calculateZnsPoints #3 #10 #3 = 300 /\
  (forall c l v, 0 <= calculateMarvkPoints c l v <= 300) /\
  calculateMarvkPoints #1 #5 #5 = 300 /\
  (forall d v, 0 <= calculateNadoPoints d v <= 2500) /\
  calculateNadoPoints #50000 #25000000 = 2500 /\
  (forall n v, 0 <= calculateCopinkPoints n v <= 400) /\
  calculateCopinkPoints #3 #10000 = 400 /\
  (forall c m, 0 <= calculateNft2mePoints c m <= 300) /\
  calculateNft2mePoints #3 #100 = 300 /\
  (forall a b c, 0 <= calculateNftTradingPoints a b c <= 400) /\
  calculateNftTradingPoints #4 #3 #3 = 400.
Proof.
  repeat match goal with |- _ /\ _ => split end;
    match goal with |- forall _, _ => idtac | |- _ => vm_compute; reflexivity end;
    first [ apply nftCollections_bounds | apply tokenHoldings_bounds
          | apply memeCoins_bounds | apply walletAge_bounds | apply totalTx_bounds
          | apply bridgeVolume_bounds | apply gm_bounds | apply inkyPump_bounds
          | apply tydroSupply_bounds | apply tydroBorrow_bounds | apply tydro_bounds
          | apply swapVolume_bounds | apply shellies_bounds | apply zns_bounds
          | apply marvk_bounds | apply nado_bounds | apply copink_bounds
          | apply nft2me_bounds | apply nftTrading_bounds ].
Qed.

(** ** The total *)

(** Replaces every resolver call by a number within its bounds. *)
Ltac resolver_bounds :=
  repeat match goal with
         | |- context [calculateNftCollectionsPoints ?x] =>
             pose proof (nftCollections_bounds x);
             generalize dependent (calculateNftCollectionsPoints x); intros
         | |- context [tokenHoldingsTier ?x] =>
             pose proof (tokenHoldings_bounds x);
             generalize dependent (tokenHoldingsTier x); intros
         | |- context [memeCoinsTier ?x] =>
             pose proof (memeCoins_bounds x);
             generalize dependent (memeCoinsTier x); intros
         | |- context [calculateWalletAgePoints ?x] =>
             pose proof (walletAge_bounds x);
             generalize dependent (calculateWalletAgePoints x); intros
         | |- context [calculateTotalTxPoints ?x] =>
             pose proof (totalTx_bounds x);
             generalize dependent (calculateTotalTxPoints x); intros
         | |- context [getBridgeVolumeTierPoints ?x] =>
             pose proof (bridgeVolume_bounds x);
             generalize dependent (getBridgeVolumeTierPoints x); intros
         | |- context [calculateGmPoints ?x] =>
             pose proof (gm_bounds x);
             generalize dependent (calculateGmPoints x); intros
         | |- context [calculateInkyPumpPoints ?x ?y ?z] =>
             pose proof (inkyPump_bounds x y z);
             generalize dependent (calculateInkyPumpPoints x y z); intros
         | |- context [calculateTydroPoints ?x ?y] =>
             pose proof (tydro_bounds x y);
             generalize dependent (calculateTydroPoints x y); intros
         | |- context [calculateSwapVolumePoints ?x] =>
             pose proof (swapVolume_bounds x);
             generalize dependent (calculateSwapVolumePoints x); intros
         | |- context [calculateShelliesPoints ?x ?y ?z] =>
             pose proof (shellies_bounds x y z);
             generalize dependent (calculateShelliesPoints x y z); intros
         | |- context [calculateZnsPoints ?x ?y ?z] =>
             pose proof (zns_bounds x y z);
             generalize dependent (calculateZnsPoints x y z); intros
         | |- context [calculateNft2mePoints ?x ?y] =>
             pose proof (nft2me_bounds x y);
             generalize dependent (calculateNft2mePoints x y); intros
         | |- context [calculateNftTradingPoints ?x ?y ?z] =>
             pose proof (nftTrading_bounds x y z);
             generalize dependent (calculateNftTradingPoints x y z); intros
         | |- context [calculateMarvkPoints ?x ?y ?z] =>
             pose proof (marvk_bounds x y z);
             generalize dependent (calculateMarvkPoints x y z); intros
         | |- context [calculateNadoPoints ?x ?y] =>
             pose proof (nado_bounds x y);
             generalize dependent (calculateNadoPoints x y); intros
         | |- context [calculateCopinkPoints ?x ?y] =>
             pose proof (copink_bounds x y);
             generalize dependent (calculateCopinkPoints x y); intros
         end.

(** The sums of a breakdown made of the recorded entries. *)
Lemma sums_bounded env walletStats memeTokens1 memeTokens2 memeTokens3 fs :
  0 <= nativeSum [] (nativeEntries walletStats memeTokens1 memeTokens2 memeTokens3)
    <= 2300 /\
  0 <= platformSum [] (platformsOf env fs) <= 9400.
Proof.
  unfold nativeSum, platformSum, platformsOf, nativeEntries, platformEntries. cbv zeta.
  cbn [fold_right existsb fst snd points platform_points].
  unfold calculateBridgeInPoints, calculateBridgeOutPoints.
  resolver_bounds.
  lia.
Qed.

(** X2. The total of a returned response lies between 0 and 11700: at
    most 2300 from the five native entries and 9400 from the thirteen
    platform entries, whatever the sources answered. *)
Theorem total_points_bounded (env : Env) (walletAddress : string) (s s' : State)
    (resp : WalletScoreResponse) :
  calculateWalletScore env walletAddress s = (Returned resp, s') ->
  0 <= nativeSum [] (native (breakdown resp)) <= 2300 /\
  0 <= platformSum [] (platforms (breakdown resp)) <= 9400 /\
  0 <= total_points resp <= 11700.
Proof.
  intros H. apply calculateWalletScore_trace in H. cbv zeta in H.
  destruct H as (walletStats & m1 & s1 & m2 & s2 & m3 & s3 & rs & s4 & _ & _ & _ &
                 _ & _ & _ & _ & -> & _).
  unfold responseOf. cbv zeta. cbn [breakdown native platforms total_points].
  unfold breakdownSum. cbn [native platforms].
  match goal with |- context [platformsOf ?e ?fs] =>
    destruct (sums_bounded e walletStats m1 m2 m3 fs) as (Hn & Hp) end.
  lia.
Qed.

Lemma total_points_bounded_witness :
  exists resp s',
    calculateWalletScore (world ticking true allUp) wallet initial = (Returned resp, s') /\
    0 <= total_points resp <= 11700.
Proof.
  destruct (calculateWalletScore (world ticking true allUp) wallet initial)
    as [[resp|e] s'] eqn:E.
  - exists resp, s'. split; [reflexivity|].
    apply (total_points_bounded _ _ _ _ _ E).
  - vm_compute in E. discriminate.
Defined.

(** ** Bridge tiers *)

(** X3. The name and the points of a bridge volume are always those of
    one and the same tier, [NaN] and negative volumes falling in tier 0;
    so the name shown for a volume never disagrees with the points
    granted for it, inbound or outbound. *)
Theorem bridge_tier_name_matches_points (volumeUsd : number) :
  In (getBridgeTierName volumeUsd, getBridgeVolumeTierPoints volumeUsd) bridgeTiers /\
  calculateBridgeInPoints volumeUsd = getBridgeVolumeTierPoints volumeUsd /\
  calculateBridgeOutPoints volumeUsd = getBridgeVolumeTierPoints volumeUsd /\
  (getBridgeTierName volumeUsd = "0 (None)" <-> getBridgeVolumeTierPoints volumeUsd = 0).
Proof.
  unfold getBridgeTierName, getBridgeVolumeTierPoints, bridgeTiers.
  repeat split; try reflexivity; rungs; cbn;
    first [tauto | reflexivity | discriminate | intros; discriminate].
Qed.

(** ** Ranks that cannot be reached *)

(** X4. A rank that is found has bounds that are numbers, and so is the
    total it was found for: a rank whose [min_points] or [max_points] is
    [NaN] (a store text that [parseInt] could not read) is never awarded,
    and a [NaN] total has no rank.  The rank found is one of the table. *)
Theorem nan_bounds_never_match (ranks : list Rank) (totalPoints : number) (r : Rank) :
  getRankForPoints ranks totalPoints = Some r ->
  In r ranks /\
  isNaN totalPoints = false /\
  isNaN (min_points r) = false /\
  (forall max, max_points r = Some max -> isNaN max = false).
Proof.
  induction ranks as [|rank rest IH]; cbn [getRankForPoints]; [discriminate|].
  destruct (inRange rank totalPoints) eqn:E.
  - intros H. injection H as ->. unfold inRange in E. cbv zeta in E.
    apply andb_true_iff in E. destruct E as (Hmin & Hmax).
    apply le_not_nan in Hmin. destruct Hmin as (Hm & Hp).
    repeat split; [left; reflexivity|exact Hp|exact Hm|].
    intros max Hsome. rewrite Hsome in Hmax. apply le_not_nan in Hmax. apply Hmax.
  - intros H. destruct (IH H) as (Hin & Hrest). split; [right; exact Hin|exact Hrest].
Qed.

Lemma nan_bounds_never_match_witness :
  In bronzeRank [bronzeRank] /\
  isNaN #150 = false /\
  isNaN (min_points bronzeRank) = false /\
  (forall max, max_points bronzeRank = Some max -> isNaN max = false).
Proof.
  apply (nan_bounds_never_match [bronzeRank] #150 bronzeRank). reflexivity.
Defined.

(** ** Throwing and the state *)



(** ** Load on the store *)

(** X6. One call that returns sends at most three meme-token queries and
    at most one ranks query, and reads the clock at least once. *)
Theorem store_load_of_a_call (env : Env) (walletAddress : string) (s s' : State)
    (resp : WalletScoreResponse) :
  calculateWalletScore env walletAddress s = (Returned resp, s') ->
  (memeQueries s <= memeQueries s' <= memeQueries s + 3)%nat /\
  (rankQueries s <= rankQueries s' <= rankQueries s + 1)%nat /\
  (clockReads s < clockReads s')%nat.
Proof.
  intros H. apply calculateWalletScore_trace in H. cbv zeta in H.
  destruct H as (walletStats & m1 & s1 & m2 & s2 & m3 & s3 & rs & s4 & _ & _ & _ &
                 E1 & E2 & E3 & E4 & _ & ->).
  destruct (getMemeTokenAddresses_facts env s) as (? & ? & F1 & _ & R1 & T1 & Q1 & _).
  rewrite E1 in F1. injection F1 as <- <-.
  destruct (getMemeTokenAddresses_facts env s1) as (? & ? & F2 & _ & R2 & T2 & Q2 & _).
  rewrite E2 in F2. injection F2 as <- <-.
  destruct (getMemeTokenAddresses_facts env s2) as (? & ? & F3 & _ & R3 & T3 & Q3 & _).
  rewrite E3 in F3. injection F3 as <- <-.
  destruct (getCachedRanks_facts env s3) as (? & ? & F4 & _ & M4 & T4 & Q4 & _).
  rewrite E4 in F4. injection F4 as <- <-.
  cbn [dateNow snd memeQueries rankQueries clockReads]. lia.
Qed.

Lemma store_load_of_a_call_witness :
  exists resp s',
    calculateWalletScore (world ticking false allUp) wallet initial = (Returned resp, s') /\
    memeQueries s' = 3%nat /\ rankQueries s' = 1%nat /\
    (memeQueries initial <= memeQueries s' <= memeQueries initial + 3)%nat.
Proof.
  destruct (calculateWalletScore (world ticking false allUp) wallet initial)
    as [[resp|e] s'] eqn:E.
  - exists resp, s'. split; [reflexivity|].
    destruct (store_load_of_a_call _ _ _ _ _ E) as (Hm & _).
    vm_compute in E. injection E as _ <-. repeat split; apply Hm.
  - vm_compute in E. discriminate.
Defined.

(** A failed refresh with nothing cached, in full. *)
Lemma getMemeTokenAddresses_down env s :
  memeTokensCache s = None -> getMemeCoins env (memeQueries s) = None ->
  getMemeTokenAddresses env s =
  (Returned fallbackMemeTokens,
   {| ranksCache := ranksCache s; memeTokensCache := None;
      clockReads := clockReads s; memeQueries := S (memeQueries s);
      rankQueries := rankQueries s |}).
Proof.
  intros Hc Hq. rewrite (getMemeTokenAddresses_cold env s Hc), refreshMemeTokens_fail by exact Hq.
  rewrite Hc. reflexivity.
Qed.

Lemma getCachedRanks_down env s :
  ranksCache s = None -> queryRanks env (rankQueries s) = None ->
  getCachedRanks env s =
  (Returned [],
   {| ranksCache := None; memeTokensCache := memeTokensCache s;
      clockReads := clockReads s; memeQueries := memeQueries s;
      rankQueries := S (rankQueries s) |}).
Proof.
  intros Hc Hq. rewrite (getCachedRanks_cold env s Hc), refreshRanks_fail by exact Hq.
  rewrite Hc. reflexivity.
Qed.

(** X7. A failure of the store is not remembered.  With nothing cached and
    the store down, a call that returns has sent three meme-token queries
    and one ranks query, has read the clock once (for [last_updated]), and
    leaves both caches empty: the next call sends the same four queries. *)
Theorem store_failure_is_not_cached (env : Env) (walletAddress : string) (s s' : State)
    (resp : WalletScoreResponse) :
  memeTokensCache s = None -> ranksCache s = None ->
  (forall n, (memeQueries s <= n)%nat -> getMemeCoins env n = None) ->
  (forall n, (rankQueries s <= n)%nat -> queryRanks env n = None) ->
  calculateWalletScore env walletAddress s = (Returned resp, s') ->
  s' = {| ranksCache := None; memeTokensCache := None;
          clockReads := S (clockReads s);
          memeQueries := memeQueries s + 3;
          rankQueries := rankQueries s + 1 |} /\
  last_updated resp = clock env (clockReads s).
Proof.
  intros Hm Hr Dm Dr H. apply calculateWalletScore_trace in H. cbv zeta in H.
  destruct H as (walletStats & m1 & s1 & m2 & s2 & m3 & s3 & rs & s4 & _ & _ & _ &
                 E1 & E2 & E3 & E4 & -> & ->).
  rewrite getMemeTokenAddresses_down in E1 by (try apply Dm; auto).
  injection E1 as <- <-.
  rewrite getMemeTokenAddresses_down in E2
    by (cbn [memeTokensCache memeQueries]; try apply Dm; auto).
  injection E2 as <- <-.
  rewrite getMemeTokenAddresses_down in E3
    by (cbn [memeTokensCache memeQueries]; try apply Dm; auto).
  injection E3 as <- <-.
  rewrite getCachedRanks_down in E4
    by (cbn [ranksCache rankQueries]; try apply Dr; auto).
  injection E4 as <- <-.
  cbn [dateNow snd ranksCache memeTokensCache clockReads memeQueries rankQueries
       responseOf last_updated].
  split; [f_equal; lia|reflexivity].
Qed.

Lemma store_failure_is_not_cached_witness :
  exists resp s',
    calculateWalletScore (world ticking false allUp) wallet initial = (Returned resp, s') /\
    s' = {| ranksCache := None; memeTokensCache := None; clockReads := 1;
            memeQueries := 3; rankQueries := 1 |}.
Proof.
  destruct (calculateWalletScore (world ticking false allUp) wallet initial)
    as [[resp|e] s'] eqn:E.
  - exists resp, s'. split; [reflexivity|].
    apply (store_failure_is_not_cached (world ticking false allUp) wallet initial s' resp
             eq_refl eq_refl (fun _ _ => eq_refl) (fun _ _ => eq_refl) E).
  - vm_compute in E. discriminate.
Defined.

(** ** Calls answered from the caches *)

(** A call that finds both caches fresh at its five readings of the clock
    scores with the cached set and table and only advances the clock. *)
Lemma calculateWalletScore_fresh env walletAddress s resp s' mc rc :
  memeTokensCache s = Some mc -> ranksCache s = Some rc ->
  (forall n, (clockReads s <= n < clockReads s + 5)%nat ->
             (clock env n - meme_timestamp mc < MEME_TOKENS_CACHE_TTL)%Z) ->
  (forall n, (clockReads s <= n < clockReads s + 5)%nat ->
             (clock env n - ranks_timestamp rc < RANKS_CACHE_TTL)%Z) ->
  calculateWalletScore env walletAddress s = (Returned resp, s') ->
  let wallet := toLowerCase walletAddress in
  exists walletStats,
    dataOfF (f_walletStats (http env wallet)) = Some walletStats /\
    resp = responseOf wallet
             (nativeEntries walletStats (addresses mc) (addresses mc) (addresses mc))
             (platformsOf env (http env wallet)) (ranks rc)
             (clock env (clockReads s + 4)) /\
    s' = {| ranksCache := ranksCache s; memeTokensCache := memeTokensCache s;
            clockReads := clockReads s + 5; memeQueries := memeQueries s;
            rankQueries := rankQueries s |}.
Proof.
  intros Hm Hr Fm Fr H. apply calculateWalletScore_trace in H. cbv zeta in H.
  destruct H as (walletStats & m1 & s1 & m2 & s2 & m3 & s3 & rs & s4 & _ & _ & Hw &
                 E1 & E2 & E3 & E4 & -> & ->).
  rewrite (getMemeTokenAddresses_fresh env s mc Hm) in E1 by (apply Fm; lia).
  injection E1 as <- <-.
  rewrite (getMemeTokenAddresses_fresh env _ mc) in E2
    by (cbn [dateNow snd memeTokensCache clockReads]; first [exact Hm|apply Fm; lia]).
  injection E2 as <- <-.
  rewrite (getMemeTokenAddresses_fresh env _ mc) in E3
    by (cbn [dateNow snd memeTokensCache clockReads]; first [exact Hm|apply Fm; lia]).
  injection E3 as <- <-.
  rewrite (getCachedRanks_fresh env _ rc) in E4
    by (cbn [dateNow snd ranksCache clockReads]; first [exact Hr|apply Fr; lia]).
  injection E4 as <- <-.
  cbv zeta. exists walletStats. split; [exact Hw|].
  cbn [dateNow snd ranksCache memeTokensCache clockReads memeQueries rankQueries].
  split; f_equal; f_equal; lia.
Qed.

(** X8. While both caches stay fresh (for the ten readings of the clock
    that two calls make), calling again for the same wallet returns the
    same response up to [last_updated], and neither call queries the store
    or changes a cache. *)
Theorem repeated_call_is_stable (env : Env) (walletAddress : string) (s s' : State)
    (resp : WalletScoreResponse) :
  cachesFresh env 10 s ->
  calculateWalletScore env walletAddress s = (Returned resp, s') ->
  exists resp2 s'',
    calculateWalletScore env walletAddress s' = (Returned resp2, s'') /\
    sameButTime resp resp2 /\
    ranksCache s'' = ranksCache s /\ memeTokensCache s'' = memeTokensCache s /\
    memeQueries s'' = memeQueries s /\ rankQueries s'' = rankQueries s.
Proof.
  intros ((rc & Hr & Fr) & (mc & Hm & Fm)) H.
  pose proof (returned_is_scored _ _ _ _ _ H) as R. cbv zeta in R.
  destruct R as (HR & HU & _).
  pose proof (calculateWalletScore_walked _ _ _ _ _ H) as (walletStats0 & Hw0 & Hwalk).
  destruct (calculateWalletScore_fresh env walletAddress s resp s' mc rc Hm Hr)
    as (walletStats & Hw & -> & ->); try assumption.
  { intros n Hn. apply Fm. lia. }
  { intros n Hn. apply Fr. lia. }
  match goal with |- context [calculateWalletScore env walletAddress ?s0] =>
    set (s1 := s0)
  end.
  destruct (calculateWalletScore_returns env walletAddress s1 walletStats0)
    as (resp2 & s'' & E2); try assumption.
  exists resp2, s''. split; [exact E2|].
  destruct (calculateWalletScore_fresh env walletAddress s1 resp2 s'' mc rc)
    as (walletStats2 & Hw2 & -> & ->); try assumption.
  { intros n Hn. apply Fm. cbn [s1 clockReads] in Hn. lia. }
  { intros n Hn. apply Fr. cbn [s1 clockReads] in Hn. lia. }
  cbv zeta in Hw, Hw2. rewrite Hw in Hw2. injection Hw2 as <-.
  cbn [s1 ranksCache memeTokensCache memeQueries rankQueries].
  repeat split.
Qed.

Lemma repeated_call_is_stable_witness :
  exists resp s' resp2 s'',
    calculateWalletScore (world steady true allUp) wallet warm = (Returned resp, s') /\
    calculateWalletScore (world steady true allUp) wallet s' = (Returned resp2, s'') /\
    sameButTime resp resp2 /\ memeQueries s'' = memeQueries warm.
Proof.
  destruct (calculateWalletScore (world steady true allUp) wallet warm)
    as [[resp|e] s'] eqn:E.
  - assert (F : cachesFresh (world steady true allUp) 10 warm).
    { split; eexists; (split; [reflexivity|]); intros n _; vm_compute; reflexivity. }
    destruct (repeated_call_is_stable _ _ _ _ _ F E)
      as (resp2 & s'' & E2 & Hsame & _ & _ & Hq & _).
    exists resp, s', resp2, s''. repeat split; try assumption; apply Hsame.
  - vm_compute in E. discriminate.
Defined.

(** ** The spelling of the wallet address *)

(** X9. Two spellings of one address, differing in letter case only, give
    the same outcome in the same state; the response carries the lowercase
    spelling, and scoring that spelling gives the same outcome again. *)
Theorem wallet_spelling_is_irrelevant (env : Env) (a b : string) (s : State) :
  same_address a b ->
  calculateWalletScore env a s = calculateWalletScore env b s /\
  forall resp s',
    calculateWalletScore env a s = (Returned resp, s') ->
    wallet_address resp = toLowerCase b /\
    toLowerCase (wallet_address resp) = wallet_address resp /\
    calculateWalletScore env (wallet_address resp) s = (Returned resp, s').
Proof.
  unfold same_address. intros Hab.
  assert (Hrun : forall x y, toLowerCase x = toLowerCase y ->
                   calculateWalletScore env x s = calculateWalletScore env y s).
  { intros x y Hxy. rewrite !calculateWalletScore_run. cbv zeta. rewrite Hxy. reflexivity. }
  split; [apply Hrun; exact Hab|].
  intros resp s' H.
  pose proof (calculateWalletScore_trace _ _ _ _ _ H) as T. cbv zeta in T.
  destruct T as (walletStats & m1 & s1 & m2 & s2 & m3 & s3 & rs & s4 & _ & _ & _ &
                 _ & _ & _ & _ & Hresp & _).
  assert (Hw : wallet_address resp = toLowerCase a) by (rewrite Hresp; reflexivity).
  rewrite Hw. split; [exact Hab|]. split; [apply toLowerCase_idempotent|].
  rewrite <- H. apply Hrun. apply toLowerCase_idempotent.
Qed.

Lemma wallet_spelling_is_irrelevant_witness :
  calculateWalletScore (world ticking true allUp) (toUpperCase wallet) initial =
  calculateWalletScore (world ticking true allUp) wallet initial.
Proof.
  pose proof (wallet_spelling_is_irrelevant (world ticking true allUp)
                (toUpperCase wallet) wallet initial (same_address_upper wallet)) as (H & _).
  exact H.
Defined.

(** ** What an entry depends on *)

(** X10. The entry of a platform is a function of the answers of its own
    endpoints (and of [parseFloat] for the InkyPump volumes): two calls
    that return, in whatever states, at whatever times, with whatever
    store, for whatever wallets, record the same entry for a platform
    whose endpoints gave them the same data.  The native entries
    [nft_collections], [wallet_age] and [total_tx] and the value of
    [erc20_tokens] depend on the wallet stats alone. *)
Theorem entries_depend_on_their_sources
    (env1 env2 : Env) (wallet1 wallet2 : string) (s1 s2 s1' s2' : State)
    (resp1 resp2 : WalletScoreResponse) :
  (forall text, parseFloat env1 text = parseFloat env2 text) ->
  calculateWalletScore env1 wallet1 s1 = (Returned resp1, s1') ->
  calculateWalletScore env2 wallet2 s2 = (Returned resp2, s2') ->
  let fs1 := http env1 (toLowerCase wallet1) in
  let fs2 := http env2 (toLowerCase wallet2) in
  let platform1 := getProp (platforms (breakdown resp1)) in
  let platform2 := getProp (platforms (breakdown resp2)) in
  let native1 := getProp (native (breakdown resp1)) in
  let native2 := getProp (native (breakdown resp2)) in
  (dataOfF (f_bridge fs1) = dataOfF (f_bridge fs2) ->
   platform1 "bridge_in" = platform2 "bridge_in" /\
   platform1 "bridge_out" = platform2 "bridge_out") /\
  (dataOfF (f_gm fs1) = dataOfF (f_gm fs2) -> platform1 "gm" = platform2 "gm") /\
  (dataOfF (f_inkyPumpCreated fs1) = dataOfF (f_inkyPumpCreated fs2) ->
   dataOfF (f_inkyPumpBuy fs1) = dataOfF (f_inkyPumpBuy fs2) ->
   dataOfF (f_inkyPumpSell fs1) = dataOfF (f_inkyPumpSell fs2) ->
   platform1 "inkypump" = platform2 "inkypump") /\
  (dataOfF (f_tydro fs1) = dataOfF (f_tydro fs2) ->
   platform1 "tydro" = platform2 "tydro") /\
  (dataOfF (f_swap fs1) = dataOfF (f_swap fs2) -> platform1 "swap" = platform2 "swap") /\
  (dataOfF (f_shelliesRaffles fs1) = dataOfF (f_shelliesRaffles fs2) ->
   dataOfF (f_shelliesPayToPlay fs1) = dataOfF (f_shelliesPayToPlay fs2) ->
   dataOfF (f_shelliesStaking fs1) = dataOfF (f_shelliesStaking fs2) ->
   platform1 "shellies" = platform2 "shellies") /\
  (dataOfF (f_zns fs1) = dataOfF (f_zns fs2) -> platform1 "zns" = platform2 "zns") /\
  (dataOfF (f_nft2me fs1) = dataOfF (f_nft2me fs2) ->
   platform1 "nft2me" = platform2 "nft2me") /\
  (dataOfF (f_nftTrading fs1) = dataOfF (f_nftTrading fs2) ->
   platform1 "nft_trading" = platform2 "nft_trading") /\
  (dataOfF (f_marvk fs1) = dataOfF (f_marvk fs2) ->
   platform1 "marvk" = platform2 "marvk") /\
  (dataOfF (f_nado fs1) = dataOfF (f_nado fs2) -> platform1 "nado" = platform2 "nado") /\
  (dataOfF (f_copink fs1) = dataOfF (f_copink fs2) ->
   platform1 "copink" = platform2 "copink") /\
  (dataOfF (f_walletStats fs1) = dataOfF (f_walletStats fs2) ->
   native1 "nft_collections" = native2 "nft_collections" /\
   native1 "wallet_age" = native2 "wallet_age" /\
   native1 "total_tx" = native2 "total_tx" /\
   option_map value (native1 "erc20_tokens") = option_map value (native2 "erc20_tokens")).
Proof.
  intros Hpf H1 H2.
  apply calculateWalletScore_trace in H1. cbv zeta in H1.
  destruct H1 as (walletStats1 & ? & ? & ? & ? & ? & ? & ? & ? & _ & _ & Hw1 &
                  _ & _ & _ & _ & -> & _).
  apply calculateWalletScore_trace in H2. cbv zeta in H2.
  destruct H2 as (walletStats2 & ? & ? & ? & ? & ? & ? & ? & ? & _ & _ & Hw2 &
                  _ & _ & _ & _ & -> & _).
  cbv zeta. rewrite Hw1, Hw2.
  unfold responseOf, platformsOf, platformEntries, nativeEntries. cbv zeta.
  cbn [breakdown platforms native].
  repeat match goal with |- _ /\ _ => split | |- _ -> _ => intro end;
    lookup;
    repeat match goal with
           | H : dataOfF _ = dataOfF _ |- _ => rewrite H; clear H
           | H : Some _ = Some _ |- _ => injection H as ->
           end;
    rewrite ?Hpf; reflexivity.
Qed.

Lemma entries_depend_on_their_sources_witness :
  exists resp1 s1' resp2 s2',
    calculateWalletScore (world ticking true allUp) wallet initial = (Returned resp1, s1') /\
    calculateWalletScore (world steady false (withNado status500 allUp))
                         (toUpperCase wallet) warm = (Returned resp2, s2') /\
    getProp (platforms (breakdown resp1)) "gm" = getProp (platforms (breakdown resp2)) "gm".
Proof.
  destruct (calculateWalletScore (world ticking true allUp) wallet initial)
    as [[resp1|e1] s1'] eqn:E1; [|vm_compute in E1; discriminate].
  destruct (calculateWalletScore (world steady false (withNado status500 allUp))
                                 (toUpperCase wallet) warm)
    as [[resp2|e2] s2'] eqn:E2; [|vm_compute in E2; discriminate].
  exists resp1, s1', resp2, s2'. split; [reflexivity|]. split; [reflexivity|].
  pose proof (entries_depend_on_their_sources
                (world ticking true allUp)
                (world steady false (withNado status500 allUp))
                wallet (toUpperCase wallet) initial warm s1' s2' resp1 resp2
                (fun _ => eq_refl) E1 E2) as H.
  cbv zeta in H. destruct H as (_ & H & _). apply H. vm_compute. reflexivity.
Defined.

(** ** What is classified as a meme token *)

Lemma has_In set x : has set x = true <-> In x set.
Proof.
  unfold has. rewrite existsb_exists. split.
  - intros (y & Hy & E). apply String.eqb_eq in E. subst. exact Hy.
  - intros H. exists x. split; [exact H|apply String.eqb_refl].
Qed.

Lemma has_lowered coins q :
  has (newSet (map (fun coin => toLowerCase (coin_address coin)) coins)) (toLowerCase q)
  = true ->
  exists coin, In coin coins /\ same_address q (coin_address coin).
Proof.
  intros H. apply has_newSet in H. apply in_map_iff in H.
  destruct H as (coin & E & Hin). exists coin. split; [exact Hin|]. symmetry. exact E.
Qed.

(** X11. [isMemeToken] never throws, and it says yes for three reasons
    only: the address, lowercased, is in the fresh cached set; or the
    store, queried because nothing fresh was cached, lists an address that
    differs from it in letter case at most; or that query failed and the
    lowercased address is one of the six built-in ones. *)
Theorem meme_classification_is_sound (env : Env) (s : State) (address : string) :
  exists answer, fst (isMemeToken env address s) = Returned answer /\
  (answer = true ->
   (exists c, memeTokensCache s = Some c /\
              (clock env (clockReads s) - meme_timestamp c < MEME_TOKENS_CACHE_TTL)%Z /\
              In (toLowerCase address) (addresses c)) \/
   (exists coins coin, getMemeCoins env (memeQueries s) = Some coins /\
                       In coin coins /\ same_address address (coin_address coin)) \/
   (getMemeCoins env (memeQueries s) = None /\
    In (toLowerCase address) fallbackMemeTokens)).
Proof.
  unfold isMemeToken, bind.
  assert (R : forall s0, memeQueries s0 = memeQueries s ->
            exists answer,
              fst (let (o, s1) := refreshMemeTokens env s0 in
                   match o with
                   | Returned a => ret (has a (toLowerCase address)) s1
                   | Threw e => (Threw e, s1)
                   end) = Returned answer /\
              (answer = true ->
               (exists coins coin, getMemeCoins env (memeQueries s) = Some coins /\
                                   In coin coins /\ same_address address (coin_address coin)) \/
               (getMemeCoins env (memeQueries s) = None /\
                In (toLowerCase address) fallbackMemeTokens))).
  { intros s0 Hq. destruct (getMemeCoins env (memeQueries s)) as [coins|] eqn:Q.
    - rewrite refreshMemeTokens_ok with (coins := coins) by (rewrite Hq; exact Q).
      cbv zeta. unfold ret. cbn [fst]. eexists. split; [reflexivity|].
      intros H. left. apply has_lowered in H. destruct H as (coin & Hin & Hs).
      exists coins, coin. repeat split; assumption.
    - rewrite refreshMemeTokens_fail by (rewrite Hq; exact Q).
      unfold ret. cbn [fst]. eexists. split; [reflexivity|].
      intros H. right. split; [reflexivity|]. apply has_In. exact H. }
  destruct (memeTokensCache s) as [c|] eqn:E.
  - rewrite (getMemeTokenAddresses_warm env s c E).
    destruct (Z.ltb_spec (clock env (clockReads s) - meme_timestamp c) MEME_TOKENS_CACHE_TTL).
    + unfold ret. cbn [fst]. eexists. split; [reflexivity|].
      intros Hyes. left. exists c. repeat split; [assumption|]. apply has_In. exact Hyes.
    + destruct (R (snd (dateNow env s)) eq_refl) as (answer & Ha & Hwhy).
      exists answer. split; [exact Ha|]. intros Ht. right. apply Hwhy. exact Ht.
  - rewrite (getMemeTokenAddresses_cold env s E).
    destruct (R s eq_refl) as (answer & Ha & Hwhy).
    exists answer. split; [exact Ha|]. intros Ht. right. apply Hwhy. exact Ht.
Qed.

Lemma meme_classification_is_sound_witness :
  fst (isMemeToken (world ticking true allUp) (toUpperCase anita) initial) = Returned true /\
  exists coins coin,
    getMemeCoins (world ticking true allUp) (memeQueries initial) = Some coins /\
    In coin coins /\ same_address (toUpperCase anita) (coin_address coin).
Proof.
  destruct (meme_classification_is_sound (world ticking true allUp) initial
              (toUpperCase anita)) as (answer & Ha & Hwhy).
  assert (Hyes : answer = true) by (vm_compute in Ha; congruence).
  split; [rewrite Ha, Hyes; reflexivity|].
  destruct (Hwhy Hyes) as [(c & Hc & _)|[H|(Hdown & _)]];
    [discriminate Hc|exact H|discriminate Hdown].
Defined.

(** ** What a refresh leaves behind *)

(** X12. When the store answers, what a read of a registry returns is what
    its cache holds afterwards, and a second read made while that entry is
    still fresh returns the same without a query.  (When the store fails,
    the failure value is returned and nothing is stored.) *)
Theorem read_is_cached (env : Env) (s : State) :
  (forall rs s1,
     getCachedRanks env s = (Returned rs, s1) ->
     queryRanks env (rankQueries s) <> None ->
     exists c, ranksCache s1 = Some c /\ ranks c = rs /\
       ((clock env (clockReads s1) - ranks_timestamp c < RANKS_CACHE_TTL)%Z ->
        getCachedRanks env s1 = (Returned rs, snd (dateNow env s1)))) /\
  (forall set s1,
     getMemeTokenAddresses env s = (Returned set, s1) ->
     getMemeCoins env (memeQueries s) <> None ->
     exists c, memeTokensCache s1 = Some c /\ addresses c = set /\
       ((clock env (clockReads s1) - meme_timestamp c < MEME_TOKENS_CACHE_TTL)%Z ->
        getMemeTokenAddresses env s1 = (Returned set, snd (dateNow env s1)))).
Proof.
  split.
  - intros rs s1 E Hup.
    destruct (getCachedRanks_facts env s) as (? & ? & F & _ & _ & _ & _ & Hc).
    rewrite E in F. injection F as <- <-.
    destruct Hc as [(c & Hc & Hrs & _)|(_ & _ & _ & Hdown)]; [|contradiction].
    exists c. repeat split; try assumption.
    intros Hf. rewrite <- Hrs. apply getCachedRanks_fresh; assumption.
  - intros set s1 E Hup.
    destruct (getMemeTokenAddresses_facts env s) as (? & ? & F & _ & _ & _ & _ & Hc & _).
    rewrite E in F. injection F as <- <-.
    destruct Hc as [(c & Hc & Hset & _)|(_ & _ & _ & Hdown)]; [|contradiction].
    exists c. repeat split; try assumption.
    intros Hf. rewrite <- Hset. apply getMemeTokenAddresses_fresh; assumption.
Qed.

Lemma read_is_cached_witness :
  exists rs s1 c,
    getCachedRanks (world ticking true allUp) initial = (Returned rs, s1) /\
    ranksCache s1 = Some c /\ ranks c = rs /\
    getCachedRanks (world ticking true allUp) s1
    = (Returned rs, snd (dateNow (world ticking true allUp) s1)).
Proof.
  destruct (getCachedRanks (world ticking true allUp) initial) as [[rs|e] s1] eqn:E;
    [|vm_compute in E; discriminate].
  destruct (read_is_cached (world ticking true allUp) initial) as (H & _).
  destruct (H rs s1 E ltac:(discriminate)) as (c & Hc & Hrs & Hnext).
  exists rs, s1, c. repeat split; try assumption.
  apply Hnext. vm_compute in E. injection E as _ <-.
  vm_compute in Hc. injection Hc as <-. vm_compute. reflexivity.
Defined.

(** ** The image helpers *)

(** X13. [getProxiedImageUrl] gives the empty string for an absent or
    empty URL; it returns unchanged every URL that starts with [/] or with
    [data:], the protocol-relative ones ([//host/...], which name another
    host) among them; every other URL comes back as [/api/proxy-image?url=]
    followed by its encoding.  So a result is empty or starts with [/] or
    [data:], and passing a result again returns it unchanged: proxying
    twice does not wrap twice.  The function throws only when
    [encodeURIComponent] does. *)
Theorem proxied_url_cases (encodeURIComponent : string -> option string)
    (url : option string) :
  (forall r, getProxiedImageUrl encodeURIComponent url = Some r ->
     ((r = "" /\ (url = None \/ url = Some "")) \/
      (url = Some r /\ (prefix "/" r = true \/ prefix "data:" r = true)) \/
      (exists u encoded,
         url = Some u /\ prefix "/" u = false /\ prefix "data:" u = false /\
         encodeURIComponent u = Some encoded /\
         r = "/api/proxy-image?url=" ++ encoded)) /\
     (r = "" \/ prefix "/" r = true \/ prefix "data:" r = true) /\
     getProxiedImageUrl encodeURIComponent (Some r) = Some r) /\
  (getProxiedImageUrl encodeURIComponent url = None ->
   exists u, url = Some u /\ encodeURIComponent u = None) /\
  (forall rest,
     getProxiedImageUrl encodeURIComponent (Some ("//" ++ rest)) = Some ("//" ++ rest)).
Proof.
  assert (Hfix : forall r, (r = "" \/ prefix "/" r = true \/ prefix "data:" r = true) ->
                   getProxiedImageUrl encodeURIComponent (Some r) = Some r).
  { intros r Hr. unfold getProxiedImageUrl. destruct r as [|c r]; [reflexivity|].
    destruct Hr as [Hr|[Hr|Hr]]; [discriminate| |]; rewrite Hr; [|rewrite orb_true_r];
      reflexivity. }
  split; [|split].
  - intros r H.
    assert (Hcases :
      (r = "" /\ (url = None \/ url = Some "")) \/
      (url = Some r /\ (prefix "/" r = true \/ prefix "data:" r = true)) \/
      (exists u encoded,
         url = Some u /\ prefix "/" u = false /\ prefix "data:" u = false /\
         encodeURIComponent u = Some encoded /\
         r = "/api/proxy-image?url=" ++ encoded)).
    { unfold getProxiedImageUrl in H. destruct url as [[|c u]|].
      - injection H as <-. left. split; [reflexivity|right; reflexivity].
      - destruct (prefix "/" (String c u) || prefix "data:" (String c u))%bool eqn:P.
        + injection H as <-. apply orb_true_iff in P. right. left.
          split; [reflexivity|exact P].
        + apply orb_false_iff in P. destruct P as (P1 & P2).
          destruct (encodeURIComponent (String c u)) as [encoded|] eqn:E; [|discriminate].
          injection H as <-. right. right. exists (String c u), encoded.
          repeat split; assumption.
      - injection H as <-. left. split; [reflexivity|left; reflexivity]. }
    assert (Hlocal : r = "" \/ prefix "/" r = true \/ prefix "data:" r = true).
    { destruct Hcases as [(-> & _)|[(_ & P)|(u & encoded & _ & _ & _ & _ & ->)]].
      - left. reflexivity.
      - right. exact P.
      - right. left. reflexivity. }
    split; [exact Hcases|]. split; [exact Hlocal|]. apply Hfix. exact Hlocal.
  - intros H. unfold getProxiedImageUrl in H. destruct url as [[|c u]|]; try discriminate.
    destruct (prefix "/" (String c u) || prefix "data:" (String c u))%bool; [discriminate|].
    destruct (encodeURIComponent (String c u)) eqn:E; [discriminate|].
    exists (String c u). split; [reflexivity|exact E].
  - intros rest. apply Hfix. right. left. destruct rest; reflexivity.
Qed.

Lemma proxied_url_cases_witness :
  getProxiedImageUrl encodeUtf8 (Some "https://img.example/a.png")
  = Some "/api/proxy-image?url=https%3A%2F%2Fimg.example%2Fa.png" /\
  getProxiedImageUrl encodeUtf8
    (Some "/api/proxy-image?url=https%3A%2F%2Fimg.example%2Fa.png")
  = Some "/api/proxy-image?url=https%3A%2F%2Fimg.example%2Fa.png" /\
  getProxiedImageUrl encodeUtf8 (Some "//img.example/a.png") = Some "//img.example/a.png".
Proof.
  destruct (proxied_url_cases encodeUtf8 (Some "https://img.example/a.png"))
    as (H & _ & Hrelative).
  split; [reflexivity|]. split.
  - apply (H "/api/proxy-image?url=https%3A%2F%2Fimg.example%2Fa.png"). reflexivity.
  - apply (Hrelative "img.example/a.png").
Defined.

(** ** InkyPump volumes *)

Lemma add_nan_l x : S754_nan +! x = S754_nan.
Proof. destruct x; reflexivity. Qed.

Lemma add_nan_r x : x +! S754_nan = S754_nan.
Proof. destruct x; reflexivity. Qed.

Lemma isNaN_nan x : isNaN x = true -> x = S754_nan.
Proof. destruct x; (discriminate || reflexivity). Qed.

(** X14. Buy volume and sell volume are interchangeable: the InkyPump
    points depend on them through their sum only, which does not depend on
    the order. *)
Theorem inkypump_buy_sell_symmetric (createdCount buyVolumeUsd sellVolumeUsd : number) :
  calculateInkyPumpPoints createdCount buyVolumeUsd sellVolumeUsd =
  calculateInkyPumpPoints createdCount sellVolumeUsd buyVolumeUsd.
Proof.
  unfold calculateInkyPumpPoints. cbv zeta.
  rewrite (add_comm buyVolumeUsd sellVolumeUsd). reflexivity.
Qed.

(** X15. The InkyPump volumes are parsed without a guard: when
    [parseFloat] reads the buy or the sell total as [NaN], the recorded
    volume is [NaN] and the volume of the other side is lost with it: the
    entry keeps the points of the created tokens only, at most 50. *)
Theorem unreadable_inkypump_volume (env : Env) (walletAddress : string) (s s' : State)
    (resp : WalletScoreResponse) :
  calculateWalletScore env walletAddress s = (Returned resp, s') ->
  let fs := http env (toLowerCase walletAddress) in
  let created := opt0 (chain (dataOfF (f_inkyPumpCreated fs)) total_count) in
  let buyUsd := parseFloat env (orDigit0 (chain (dataOfF (f_inkyPumpBuy fs)) total_value)) in
  let sellUsd := parseFloat env (orDigit0 (chain (dataOfF (f_inkyPumpSell fs)) total_value)) in
  isNaN buyUsd = true \/ isNaN sellUsd = true ->
  exists entry,
    getProp (platforms (breakdown resp)) "inkypump" = Some entry /\
    isNaN (usd_volume entry) = true /\
    platform_points entry = calculateInkyPumpPoints created zero zero /\
    0 <= platform_points entry <= 50.
Proof.
  intros H. apply calculateWalletScore_trace in H. cbv zeta in H.
  destruct H as (walletStats & ? & ? & ? & ? & ? & ? & ? & ? & _ & _ & _ &
                 _ & _ & _ & _ & -> & _).
  cbv zeta. intros Hnan.
  unfold responseOf, platformsOf, platformEntries. cbv zeta.
  cbn [breakdown platforms]. lookup.
  eexists. split; [reflexivity|]. cbn [usd_volume platform_points].
  assert (Hsum : parseFloat env
                   (orDigit0 (chain (dataOfF (f_inkyPumpBuy
                      (http env (toLowerCase walletAddress)))) total_value))
                 +! parseFloat env
                   (orDigit0 (chain (dataOfF (f_inkyPumpSell
                      (http env (toLowerCase walletAddress)))) total_value))
                 = S754_nan).
  { destruct Hnan as [Hn|Hn]; apply isNaN_nan in Hn; rewrite Hn;
      [apply add_nan_l|apply add_nan_r]. }
  rewrite Hsum. split; [reflexivity|].
  unfold calculateInkyPumpPoints. cbv zeta. rewrite Hsum.
  rewrite !ge_nan. change (zero +! zero) with zero.
  assert (Hz : forall c, (c >? #0) = true -> (zero >=? c) = false)
    by (intros c; apply not_positive_below; reflexivity).
  rewrite !Hz by reflexivity.
  split; [reflexivity|]. rungs; lia.
Qed.

Lemma unreadable_inkypump_volume_witness :
  exists resp s' entry,
    calculateWalletScore (world ticking true (withInkyPumpSell (status200 garbled) allUp))
                         wallet initial = (Returned resp, s') /\
    getProp (platforms (breakdown resp)) "inkypump" = Some entry /\
    isNaN (usd_volume entry) = true /\
    platform_points entry = 0.
Proof.
  destruct (calculateWalletScore
              (world ticking true (withInkyPumpSell (status200 garbled) allUp))
              wallet initial) as [[resp|e] s'] eqn:E.
  - destruct (unreadable_inkypump_volume _ _ _ _ _ E (or_intror eq_refl))
      as (entry & He & Hn & Hp & _).
    exists resp, s', entry. repeat split; assumption.
  - vm_compute in E. discriminate.
Defined.

(** ** Numbers that are never [NaN] *)

Lemma or0_number x : isNaN (or0 x) = false.
Proof. destruct x; reflexivity. Qed.

Lemma opt0_number x : isNaN (opt0 x) = false.
Proof. destruct x as [x|]; [apply or0_number|reflexivity]. Qed.

Lemma lit_number z : isNaN #z = false.
Proof.
  unfold lit, binary_normalize. destruct z as [|m|m]; [reflexivity| |];
    (pose proof (binary_round_value) as H;
     match goal with |- context [binary_round _ _ ?sg m 0] =>
       specialize (H sg m 0 ltac:(lia)) end;
     destruct H as (_ & _ & Hshape);
     destruct (binary_round _ _ _ m 0); (reflexivity || contradiction)).
Qed.

(** X16. The guards [|| 0] keep [NaN] out of every number that comes from
    one field of one answer: in a returned response, the [tx_count] and
    [usd_volume] of every platform but the three whose numbers are sums or
    parsed texts ([inkypump], [tydro], [shellies]) are numbers, and so are
    the values of [meme_coins], [wallet_age] and [total_tx]. *)
Theorem guarded_numbers_are_never_nan (env : Env) (walletAddress : string) (s s' : State)
    (resp : WalletScoreResponse) :
  calculateWalletScore env walletAddress s = (Returned resp, s') ->
  Forall (fun kv => In (fst kv) ["inkypump"; "tydro"; "shellies"] \/
                    (isNaN (tx_count (snd kv)) = false /\
                     isNaN (usd_volume (snd kv)) = false))
         (platforms (breakdown resp)) /\
  Forall (fun kv => In (fst kv) ["nft_collections"; "erc20_tokens"] \/
                    isNaN (value (snd kv)) = false)
         (native (breakdown resp)).
Proof.
  intros H. apply calculateWalletScore_trace in H. cbv zeta in H.
  destruct H as (walletStats & ? & ? & ? & ? & ? & ? & ? & ? & _ & _ & _ &
                 _ & _ & _ & _ & -> & _).
  unfold responseOf, platformsOf, platformEntries, nativeEntries. cbv zeta.
  cbn [breakdown platforms native].
  split; repeat apply Forall_cons; try apply Forall_nil;
    cbn [fst snd tx_count usd_volume value];
    first [ right; split; first [apply opt0_number | reflexivity]
          | right; first [apply opt0_number | apply lit_number]
          | left; cbn; tauto ].
Qed.

Lemma guarded_numbers_are_never_nan_witness :
  exists resp s',
    calculateWalletScore (world ticking true allUp) wallet initial = (Returned resp, s') /\
    Forall (fun kv => In (fst kv) ["nft_collections"; "erc20_tokens"] \/
                      isNaN (value (snd kv)) = false)
           (native (breakdown resp)).
Proof.
  destruct (calculateWalletScore (world ticking true allUp) wallet initial)
    as [[resp|e] s'] eqn:E.
  - exists resp, s'. split; [reflexivity|].
    apply (guarded_numbers_are_never_nan _ _ _ _ _ E).
  - vm_compute in E. discriminate.
Defined.

(** ** NFT trades on other contracts *)

Lemma find_none (byContract : list (option ContractCount)) (a : string) :
  (forall c, In (Some c) byContract -> contract_address c <> a) ->
  got zero (countOf byContract a) = zero.
Proof.
  intros H. unfold countOf.
  induction byContract as [|row rows IH]; cbn [findContract]; [reflexivity|].
  destruct row as [c|]; [|reflexivity].
  destruct (String.eqb_spec (contract_address c) a) as [E|_].
  - exfalso. apply (H c); [left; reflexivity|exact E].
  - apply IH. intros c' Hin. apply H. right. exact Hin.
Qed.

(** X17. Trades are credited by an exact match of the contract address
    with one of the three lowercase addresses of [NFT_CONTRACTS].  When no
    row of [by_contract] carries one of them exactly (rows of other
    contracts, or of these in another letter case), the entry [nft_trading]
    has 0 points, though [tx_count] still shows the reported total. *)
Theorem trades_elsewhere_earn_nothing (env : Env) (walletAddress : string) (s s' : State)
    (resp : WalletScoreResponse) :
  calculateWalletScore env walletAddress s = (Returned resp, s') ->
  let nftTradingData := dataOfF (f_nftTrading (http env (toLowerCase walletAddress))) in
  (forall c, In (Some c) (orEmpty (chain nftTradingData by_contract)) ->
             contract_address c <> NFT_CONTRACTS_squid /\
             contract_address c <> NFT_CONTRACTS_netProtocol /\
             contract_address c <> NFT_CONTRACTS_mintique) ->
  getProp (platforms (breakdown resp)) "nft_trading" =
  Some {| tx_count := opt0 (chain nftTradingData nft_total_count);
          usd_volume := zero; platform_points := 0 |}.
Proof.
  intros H. apply calculateWalletScore_trace in H. cbv zeta in H.
  destruct H as (walletStats & ? & ? & ? & ? & ? & ? & ? & ? & _ & _ & _ &
                 _ & _ & _ & _ & -> & _).
  cbv zeta. intros Hrows.
  unfold responseOf, platformsOf, platformEntries. cbv zeta.
  cbn [breakdown platforms]. lookup.
  rewrite !find_none by (intros c Hc; apply (Hrows c Hc)).
  reflexivity.
Qed.

Lemma trades_elsewhere_earn_nothing_witness :
  exists resp s',
    calculateWalletScore (world ticking true (withNftTrading (status200 elsewhere) allUp))
                         wallet initial = (Returned resp, s') /\
    getProp (platforms (breakdown resp)) "nft_trading" =
    Some {| tx_count := #12; usd_volume := zero; platform_points := 0 |}.
Proof.
  destruct (calculateWalletScore
              (world ticking true (withNftTrading (status200 elsewhere) allUp))
              wallet initial) as [[resp|e] s'] eqn:E.
  - exists resp, s'. split; [reflexivity|].
    apply (trades_elsewhere_earn_nothing _ _ _ _ _ E).
    intros c [Hc|[]]. injection Hc as <-. repeat split; discriminate.
  - vm_compute in E. discriminate.
Defined.

(** ** The rank of a response *)

(** X18. While the rank table is cached and stays fresh (for the seven
    readings of the clock a call can make up to its read of the table),
    the rank of a returned response is the first rank of the cached table
    whose range holds the total of that same response, under its name,
    colour and logo; it is null exactly when the table has no such rank. *)
Theorem rank_is_the_rank_of_the_total (env : Env) (walletAddress : string) (s s' : State)
    (resp : WalletScoreResponse) (rc : RanksCache) :
  ranksCache s = Some rc ->
  (forall n, (clockReads s <= n < clockReads s + 7)%nat ->
             (clock env n - ranks_timestamp rc < RANKS_CACHE_TTL)%Z) ->
  calculateWalletScore env walletAddress s = (Returned resp, s') ->
  rank resp =
    option_map (fun r => {| rank_name := name r; rank_color := color r;
                            rank_logo_url := logo_url r |})
               (getRankForPoints (ranks rc) #(total_points resp)) /\
  (rank resp = None <-> getRankForPoints (ranks rc) #(total_points resp) = None).
Proof.
  intros Hr Fr H. apply calculateWalletScore_trace in H. cbv zeta in H.
  destruct H as (walletStats & m1 & s1 & m2 & s2 & m3 & s3 & rs & s4 & _ & _ & _ &
                 E1 & E2 & E3 & E4 & -> & _).
  destruct (getMemeTokenAddresses_facts env s) as (? & ? & F1 & C1 & _ & T1 & _).
  rewrite E1 in F1. injection F1 as <- <-.
  destruct (getMemeTokenAddresses_facts env s1) as (? & ? & F2 & C2 & _ & T2 & _).
  rewrite E2 in F2. injection F2 as <- <-.
  destruct (getMemeTokenAddresses_facts env s2) as (? & ? & F3 & C3 & _ & T3 & _).
  rewrite E3 in F3. injection F3 as <- <-.
  rewrite (getCachedRanks_fresh env s3 rc) in E4
    by first [congruence | apply Fr; lia].
  injection E4 as <- _.
  unfold responseOf. cbv zeta. cbn [rank total_points].
  split; [reflexivity|].
  destruct (getRankForPoints _ _); cbn [option_map]; split; congruence.
Qed.

Lemma rank_is_the_rank_of_the_total_witness :
  exists resp s',
    calculateWalletScore (world steady true allUp) wallet warm = (Returned resp, s') /\
    rank resp = Some {| rank_name := "Bronze"; rank_color := None; rank_logo_url := None |}.
Proof.
  destruct (calculateWalletScore (world steady true allUp) wallet warm)
    as [[resp|e] s'] eqn:E.
  - exists resp, s'. split; [reflexivity|].
    pose proof (rank_is_the_rank_of_the_total (world steady true allUp) wallet warm s' resp
                  _ eq_refl (fun _ _ => eq_refl) E) as (H & _).
    rewrite H. vm_compute in E. injection E as <- _. vm_compute. reflexivity.
  - vm_compute in E. discriminate.
Defined.

(** ** Ranks and the rows they come from *)

Section Rows.

Variable env : Env.

Lemma mapM_parseRank_rows rows : forall s rs s',
  mapM (parseRank env) rows s = (Returned rs, s') -> Forall2 (madeOf env) rows rs.
Proof.
  induction rows as [|row rows IH]; intros s rs s'.
  - cbn [mapM]. unfold ret. intros H. injection H as <- _. constructor.
  - cbn [mapM]. unfold bind at 1. unfold parseRank at 1. unfold bind, dateNow, ret.
    cbn [clockReads ranksCache memeTokensCache memeQueries rankQueries].
    match goal with |- context [mapM (parseRank env) rows ?s1] =>
      destruct (mapM (parseRank env) rows s1) as [[rs0|e] s0] eqn:E end;
      [|discriminate].
    intros H. injection H as <- _. constructor; [|exact (IH _ _ _ E)].
    unfold madeOf, columnValue. cbn [name color logo_url min_points max_points].
    repeat split. destruct (raw_max_points row) as [[t|n]|]; reflexivity.
Qed.

Lemma refreshRanks_rows s rows rs s' :
  queryRanks env (rankQueries s) = Some rows ->
  refreshRanks env s = (Returned rs, s') -> Forall2 (madeOf env) rows rs.
Proof.
  intros Q. unfold refreshRanks, tryCatch, bind at 1, query_ranks. rewrite Q.
  unfold bind at 1.
  match goal with |- context [mapM (parseRank env) rows ?s1] =>
    destruct (mapM (parseRank env) rows s1) as [[rs0|e] s0] eqn:E end.
  - unfold bind, dateNow, setRanksCache, ret. intros H. injection H as <- _.
    exact (mapM_parseRank_rows _ _ _ _ E).
  - destruct (mapM_parseRank env rows
                {| ranksCache := ranksCache s; memeTokensCache := memeTokensCache s;
                   clockReads := clockReads s; memeQueries := memeQueries s;
                   rankQueries := S (rankQueries s) |}) as (rs1 & E1 & _).
    rewrite E1 in E. discriminate.
Qed.

Lemma getRankForPoints_found ranks P r :
  getRankForPoints ranks P = Some r -> In r ranks /\ inRange r P = true.
Proof.
  induction ranks as [|rank rest IH]; cbn [getRankForPoints]; [discriminate|].
  destruct (inRange rank P) eqn:E.
  - intros H. injection H as <-. split; [left; reflexivity|exact E].
  - intros H. destruct (IH H) as (Hin & Hr). split; [right; exact Hin|exact Hr].
Qed.

Lemma Forall2_In_r {A B} (R : A -> B -> Prop) l l' b :
  Forall2 R l l' -> In b l' -> exists a, In a l /\ R a b.
Proof.
  induction 1 as [|a0 b0 l l' Hab _ IH]; intros Hin; [contradiction|].
  destruct Hin as [<-|Hin].
  - exists a0. split; [left; reflexivity|exact Hab].
  - destruct (IH Hin) as (a & Ha & HR). exists a. split; [right; exact Ha|exact HR].
Qed.

End Rows.

(** X19. The rank of a response computed right after a refresh of the
    rank table is a row of the store: it carries the name, the colour and
    the logo of a row whose range, its texts read by [parseInt], holds the
    total of the response. *)
Theorem awarded_rank_is_a_store_row (env : Env) (walletAddress : string) (s s' : State)
    (resp : WalletScoreResponse) (rows : list RawRank) (info : RankInfo) :
  ranksCache s = None ->
  queryRanks env (rankQueries s) = Some rows ->
  calculateWalletScore env walletAddress s = (Returned resp, s') ->
  rank resp = Some info ->
  exists row,
    In row rows /\
    rank_name info = raw_name row /\
    rank_color info = raw_color row /\
    rank_logo_url info = raw_logo_url row /\
    (#(total_points resp) >=? columnValue env (raw_min_points row)) = true /\
    match raw_max_points row with
    | None => True
    | Some max => (#(total_points resp) <=? columnValue env max)%js = true
    end.
Proof.
  intros Hcold Q H Hrank. apply calculateWalletScore_trace in H. cbv zeta in H.
  destruct H as (walletStats & m1 & s1 & m2 & s2 & m3 & s3 & rs & s4 & _ & _ & _ &
                 E1 & E2 & E3 & E4 & -> & _).
  destruct (getMemeTokenAddresses_facts env s) as (? & ? & F1 & C1 & Q1 & _).
  rewrite E1 in F1. injection F1 as <- <-.
  destruct (getMemeTokenAddresses_facts env s1) as (? & ? & F2 & C2 & Q2 & _).
  rewrite E2 in F2. injection F2 as <- <-.
  destruct (getMemeTokenAddresses_facts env s2) as (? & ? & F3 & C3 & Q3 & _).
  rewrite E3 in F3. injection F3 as <- <-.
  rewrite getCachedRanks_cold in E4 by congruence.
  apply refreshRanks_rows with (rows := rows) in E4; [|congruence].
  unfold responseOf in *. cbv zeta in *. cbn [rank total_points] in *.
  destruct (getRankForPoints rs _) as [r|] eqn:G; [|discriminate].
  cbn [option_map] in Hrank. injection Hrank as <-.
  apply getRankForPoints_found in G. destruct G as (Hin & Hrange).
  destruct (Forall2_In_r _ _ _ _ E4 Hin) as (row & Hrow & Hn & Hc & Hl & Hmin & Hmax).
  exists row. cbn [rank_name rank_color rank_logo_url].
  unfold inRange in Hrange. cbv zeta in Hrange. apply andb_true_iff in Hrange.
  destruct Hrange as (Hge & Hle). rewrite Hmin in Hge. rewrite Hmax in Hle.
  repeat split; try assumption.
  destruct (raw_max_points row); [exact Hle|exact I].
Qed.

Lemma awarded_rank_is_a_store_row_witness :
  exists resp s' row,
    calculateWalletScore (world ticking true allUp) wallet initial = (Returned resp, s') /\
    In row [bronze; silver] /\
    option_map rank_name (rank resp) = Some (raw_name row).
Proof.
  destruct (calculateWalletScore (world ticking true allUp) wallet initial)
    as [[resp|e] s'] eqn:E; [|vm_compute in E; discriminate].
  destruct (rank resp) as [info|] eqn:R;
    [|vm_compute in E; injection E as <- _; discriminate].
  destruct (awarded_rank_is_a_store_row (world ticking true allUp) wallet initial s' resp
              [bronze; silver] info eq_refl eq_refl E R) as (row & Hin & Hn & _).
  exists resp, s', row. split; [reflexivity|]. split; [exact Hin|].
  rewrite R. cbn [option_map]. rewrite Hn. reflexivity.
Defined.

(** ** The meme-token cache *)

(** X20. The meme-token cache only ever holds lowercase addresses: this
    is so at start, every set [getMemeTokenAddresses] returns from a state
    where it is so is lowercase, and it stays so after every read of a
    registry, every [isMemeToken] and every [calculateWalletScore], thrown
    or returned.  Looking up the lowercased address is therefore the right
    test. *)
Theorem meme_cache_stays_lowercase (env : Env) (s : State) :
  memeCacheLowercase initial /\
  (memeCacheLowercase s ->
   (forall set s', getMemeTokenAddresses env s = (Returned set, s') ->
                   lowercaseSet set /\ memeCacheLowercase s') /\
   memeCacheLowercase (snd (getCachedRanks env s)) /\
   (forall address, memeCacheLowercase (snd (isMemeToken env address s))) /\
   (forall walletAddress, memeCacheLowercase (snd (calculateWalletScore env walletAddress s)))).
Proof.
  split; [exact I|]. intros Hs.
  assert (Hread : forall s0, memeCacheLowercase s0 ->
            forall set s', getMemeTokenAddresses env s0 = (Returned set, s') ->
                           lowercaseSet set /\ memeCacheLowercase s').
  { intros s0 H0 set s' E.
    destruct (getMemeTokenAddresses_facts env s0) as (? & ? & F & _ & _ & _ & _ & _ & Hl).
    rewrite E in F. injection F as <- <-. apply Hl. exact H0. }
  assert (Hranks : forall s0 rs s', memeCacheLowercase s0 ->
            getCachedRanks env s0 = (Returned rs, s') -> memeCacheLowercase s').
  { intros s0 rs s' H0 E.
    destruct (getCachedRanks_facts env s0) as (? & ? & F & Hm & _).
    rewrite E in F. injection F as <- <-. unfold memeCacheLowercase in *.
    rewrite Hm. exact H0. }
  repeat split.
  - apply (Hread s Hs set s' H).
  - apply (Hread s Hs set s' H).
  - destruct (getCachedRanks_facts env s) as (rs & s' & F & _).
    rewrite F. exact (Hranks s rs s' Hs F).
  - intros address. unfold isMemeToken, bind.
    destruct (getMemeTokenAddresses_facts env s) as (set & s' & F & _).
    rewrite F. unfold ret. cbn [snd]. apply (Hread s Hs set s' F).
  - intros walletAddress.
    destruct (calculateWalletScore env walletAddress s) as [[resp|e] s'] eqn:E.
    + apply calculateWalletScore_trace in E. cbv zeta in E.
      destruct E as (walletStats & m1 & s1 & m2 & s2 & m3 & s3 & rs & s4 & _ & _ & _ &
                     E1 & E2 & E3 & E4 & _ & ->).
      cbn [snd]. pose proof (Hread s Hs _ _ E1) as (_ & H1).
      pose proof (Hread s1 H1 _ _ E2) as (_ & H2).
      pose proof (Hread s2 H2 _ _ E3) as (_ & H3).
      pose proof (Hranks s3 _ _ H3 E4) as H4.
      exact H4.
    + apply calculateWalletScore_thrown in E. cbv zeta in E.
      destruct E as [(-> & _)|(_ & walletStats & _ & _ & _ & _ & _ & _ & _ & Hl & _)];
        [exact Hs|exact (Hl Hs)].
Qed.

Lemma meme_cache_stays_lowercase_witness :
  memeCacheLowercase
    (snd (calculateWalletScore (world ticking true allUp) wallet initial)) /\
  memeTokensCache (snd (calculateWalletScore (world ticking true allUp) wallet initial))
  <> None.
Proof.
  split; [|vm_compute; discriminate].
  destruct (meme_cache_stays_lowercase (world ticking true allUp) initial) as (H0 & H).
  apply (H H0).
Defined.

(** ** Meme tokens and the other tokens *)

Lemma filterTokens_drop keep before token a after :
  address token = Some a -> keep (toLowerCase a) = false ->
  filterTokens keep (before ++ Some token :: after) = filterTokens keep (before ++ after).
Proof.
  intros Ha Hk. induction before as [|t0 before IH]; cbn [app filterTokens].
  - cbn [lowerAddress]. rewrite Ha. cbn [option_map]. rewrite Hk.
    destruct (filterTokens keep after); reflexivity.
  - rewrite IH. reflexivity.
Qed.

(** X21. The two token categories exclude each other.  In one and the
    same state, a holding that [isMemeToken] classifies as a meme token
    adds nothing to the token-holdings points, whatever its value, and a
    holding it does not classify so adds nothing to the meme-coin
    points. *)
Theorem token_categories_are_exclusive (env : Env) (s : State)
    (before after : list (option TokenHolding)) (token : TokenHolding) (a : string) :
  address token = Some a ->
  (fst (isMemeToken env a s) = Returned true ->
   calculateTokenHoldingsPoints env (before ++ Some token :: after) s =
   calculateTokenHoldingsPoints env (before ++ after) s) /\
  (fst (isMemeToken env a s) = Returned false ->
   calculateMemeCoinsPoints env (before ++ Some token :: after) s =
   calculateMemeCoinsPoints env (before ++ after) s).
Proof.
  intros Ha. unfold isMemeToken, bind.
  destruct (getMemeTokenAddresses_facts env s) as (set & s' & F & _).
  rewrite !(calculateTokenHoldingsPoints_run env _ _ _ _ F),
          !(calculateMemeCoinsPoints_run env _ _ _ _ F).
  rewrite F. unfold ret. cbn [fst].
  split; intros H; injection H as H;
    rewrite (filterTokens_drop _ before token a after Ha); try reflexivity; rewrite H;
    reflexivity.
Qed.

Lemma token_categories_are_exclusive_witness :
  calculateTokenHoldingsPoints (world ticking true allUp)
    ([] ++ Some {| address := Some anita; symbol := None; usdValue := #5000 |} :: [])
    initial =
  calculateTokenHoldingsPoints (world ticking true allUp) ([] ++ []) initial.
Proof.
  pose proof (token_categories_are_exclusive (world ticking true allUp) initial [] []
                {| address := Some anita; symbol := None; usdValue := #5000 |} anita
                eq_refl) as (H & _).
  apply H. vm_compute. reflexivity.
Defined.

(** ** The floor of the total *)

Lemma or0_not_negative v : (#0 >? v) = false -> (or0 v >=? #0) = true.
Proof.
  change (#0) with (S754_zero false).
  destruct v as [sg|sg| |sg m e]; try reflexivity; destruct sg; (reflexivity || discriminate).
Qed.

Lemma nado_floor d v : (v >=? #0) = true -> 50 <= calculateNadoPoints d v.
Proof.
  intros H. unfold calculateNadoPoints. cbv zeta. rewrite H. rungs; lia.
Qed.

(** X22. The volume ladder of Nado starts at zero, and an absent volume
    reads as zero: every response that is returned totals at least 50
    points, 50 or more of them under [nado], unless the Nado answer carries
    a negative volume. *)
Theorem nado_floor_of_the_total (env : Env) (walletAddress : string) (s s' : State)
    (resp : WalletScoreResponse) :
  calculateWalletScore env walletAddress s = (Returned resp, s') ->
  let volume := chain (dataOfF (f_nado (http env (toLowerCase walletAddress))))
                      nadoVolumeUSD in
  (forall v, volume = Some v -> (#0 >? v) = false) ->
  50 <= total_points resp /\
  exists entry, getProp (platforms (breakdown resp)) "nado" = Some entry /\
                50 <= platform_points entry.
Proof.
  intros H. apply calculateWalletScore_trace in H. cbv zeta in H.
  destruct H as (walletStats & m1 & s1 & m2 & s2 & m3 & s3 & rs & s4 & _ & _ & _ &
                 _ & _ & _ & _ & -> & _).
  cbv zeta. intros Hv.
  set (fs := http env (toLowerCase walletAddress)) in *.
  assert (Hge : (opt0 (chain (dataOfF (f_nado fs)) nadoVolumeUSD) >=? #0) = true).
  { destruct (chain (dataOfF (f_nado fs)) nadoVolumeUSD) as [v|]; [|reflexivity].
    cbn [opt0]. apply or0_not_negative. apply Hv. reflexivity. }
  pose proof (nado_floor (opt0 (chain (dataOfF (f_nado fs)) totalDeposits)) _ Hge) as Hn.
  split.
  - unfold responseOf. cbv zeta. cbn [total_points].
    unfold breakdownSum, nativeSum, platformSum, platformsOf, nativeEntries, platformEntries.
    cbv zeta.
    cbn [native platforms fold_right existsb fst snd points platform_points].
    unfold calculateBridgeInPoints, calculateBridgeOutPoints.
    resolver_bounds.
    lia.
  - unfold responseOf, platformsOf, platformEntries. cbv zeta.
    cbn [breakdown platforms]. lookup. eexists. split; [reflexivity|].
    cbn [platform_points]. exact Hn.
Qed.

Lemma nado_floor_of_the_total_witness :
  exists resp s',
    calculateWalletScore (world ticking true (withNado status500 allUp)) wallet initial
    = (Returned resp, s') /\ 50 <= total_points resp.
Proof.
  destruct (calculateWalletScore (world ticking true (withNado status500 allUp))
                                 wallet initial) as [[resp|e] s'] eqn:E.
  - exists resp, s'. split; [reflexivity|].
    apply (nado_floor_of_the_total _ _ _ _ _ E). intros v Hv. discriminate Hv.
  - vm_compute in E. discriminate.
Defined.
